(** * The comparison core of the VLM dashboard (src/dashboard.py)

    A shallow embedding of the text normaliser, the fuzzy matchers, the
    candidate de-duplication, the reconciler [calculate_accuracy], the
    loader gate [load_data] and the corpus summary of [main], followed by
    the properties of the specification that concern them.

    Conventions of the embedding.
    - A Python [str] is a [string]; a character is read as a code point
      below 256, with Python's [str.isspace] and [str.lower] on that range.
    - A Python [int] is a [Z]; the accuracies, which Python computes as
      floats from integer counts, are exact rationals ([Q]).
    - A [dict] is an association list in insertion order, since the
      reconciler iterates over its items and stops at the first hit.
    - A table (pandas DataFrame) is the list of its rows in index order.
    - The caches of [st.cache_data] are explicit state: a cached function
      takes the caches of the process and hands them back, and a run of
      the script reads the clock once. *)

From Stdlib Require Import String Ascii List Bool ZArith NArith QArith Lia Lqa ListSet
  Permutation Sorted.
Import ListNotations.

Local Open Scope string_scope.
Local Open Scope Z_scope.

(* ================================================================== *)
(** ** Python string primitives *)
(* ================================================================== *)

Module PyStr.

(** [str.isspace] on code points below 256. *)
Definition isspace (c : ascii) : bool :=
  let n := N_of_ascii c in
  (((9 <=? n) && (n <=? 13)) || ((28 <=? n) && (n <=? 32))
   || (n =? 133) || (n =? 160))%N.

(** [str.lower] on one code point below 256. *)
Definition lower_char (c : ascii) : ascii :=
  let n := N_of_ascii c in
  if (((65 <=? n) && (n <=? 90))
      || ((192 <=? n) && (n <=? 222) && negb (n =? 215)))%N
  then ascii_of_N (n + 32) else c.

Fixpoint lower (s : string) : string :=
  match s with
  | EmptyString => EmptyString
  | String c r => String (lower_char c) (lower r)
  end.

(** Truth value of a string: [bool(s)]. *)
Definition truthy (s : string) : bool := negb (s =? "")%string.

Fixpoint lstrip (s : string) : string :=
  match s with
  | EmptyString => EmptyString
  | String c r => if isspace c then lstrip r else s
  end.

Fixpoint rstrip (s : string) : string :=
  match s with
  | EmptyString => EmptyString
  | String c r =>
      let r' := rstrip r in
      if isspace c && negb (truthy r') then EmptyString else String c r'
  end.

(** [s.strip()] *)
Definition strip (s : string) : string := rstrip (lstrip s).

(** [s.rstrip(ch)] for a one-character argument: every trailing [ch] goes. *)
Fixpoint rstrip_char (ch : ascii) (s : string) : string :=
  match s with
  | EmptyString => EmptyString
  | String c r =>
      let r' := rstrip_char ch r in
      if Ascii.eqb c ch && negb (truthy r') then EmptyString else String c r'
  end.

(** [s.replace(ch, '')] for a one-character [ch]. *)
Fixpoint remove_char (ch : ascii) (s : string) : string :=
  match s with
  | EmptyString => EmptyString
  | String c r =>
      if Ascii.eqb c ch then remove_char ch r else String c (remove_char ch r)
  end.

(** [s.split(ch)] for a one-character separator: never empty. *)
Fixpoint split_on (ch : ascii) (s : string) : list string :=
  match s with
  | EmptyString => [EmptyString]
  | String c r =>
      if Ascii.eqb c ch then EmptyString :: split_on ch r
      else match split_on ch r with
           | h :: t => String c h :: t
           | [] => [String c EmptyString]
           end
  end.

(** [s.split()]: the maximal runs of non-whitespace characters. *)
Fixpoint split (s : string) : list string :=
  match s with
  | EmptyString => []
  | String c r =>
      if isspace c then split r
      else match r with
           | EmptyString => [String c EmptyString]
           | String c' _ =>
               if isspace c' then String c EmptyString :: split r
               else match split r with
                    | w :: ws => String c w :: ws
                    | [] => [String c EmptyString]
                    end
           end
  end.

End PyStr.

(* ================================================================== *)
(** ** Normaliser and fuzzy matchers (dashboard.py, lines 974-1048) *)
(* ================================================================== *)

(** [normalize_text]: strip, lower, then drop '-', ' ' and '_'. *)
Definition normalize_text (text : string) : string :=
  if negb (PyStr.truthy text) then ""
  else PyStr.remove_char "_" (PyStr.remove_char " " (PyStr.remove_char "-"
         (PyStr.lower (PyStr.strip text)))).

(** [normalize_word], local to [word_level_match]: strip, lower, then drop
    ' ', '-' and '_'.  No plural handling. *)
Definition normalize_word (word : string) : string :=
  PyStr.remove_char "_" (PyStr.remove_char "-" (PyStr.remove_char " "
    (PyStr.lower (PyStr.strip word)))).

(** [[v.strip().lower() for v in str(val).split(',')]] *)
Definition comma_values (val : string) : list string :=
  map (fun v => PyStr.lower (PyStr.strip v)) (PyStr.split_on "," val).

(** [words.add(x)] guarded by [if x:]. *)
Definition add_if_truthy (x : string) (words : set string) : set string :=
  if PyStr.truthy x then set_add string_dec x words else words.

(** The loop of [word_level_match] that fills [words1] (and [words2]):
    for each comma value, first its whitespace words, then the whole
    phrase, each through [normalize_word]. *)
Definition word_level_tokens (val : string) : set string :=
  fold_left
    (fun words v =>
       let words :=
         fold_left (fun ws word => add_if_truthy (normalize_word word) ws)
                   (PyStr.split v) words in
       add_if_truthy (normalize_word v) words)
    (comma_values val) (empty_set string).

(** [word_level_match(val1, val2)] *)
Definition word_level_match (val1 val2 : string) : bool :=
  if negb (PyStr.truthy val1) || negb (PyStr.truthy val2) then false
  else
    let words1 := word_level_tokens val1 in
    let words2 := word_level_tokens val2 in
    (0 <? Z.of_nat (length (set_inter string_dec words1 words2))).

(** The loop of [fuzzy_match_subcat]: per-word tokens only, each through
    [normalize_text] and [rstrip('s')]. *)
Definition fuzzy_tokens (subcat : string) : set string :=
  fold_left
    (fun words v =>
       fold_left
         (fun ws word =>
            add_if_truthy (PyStr.rstrip_char "s" (normalize_text word)) ws)
         (PyStr.split v) words)
    (comma_values subcat) (empty_set string).

(** [fuzzy_match_subcat(subcat1, subcat2)] *)
Definition fuzzy_match_subcat (subcat1 subcat2 : string) : bool :=
  if negb (PyStr.truthy subcat1) || negb (PyStr.truthy subcat2) then false
  else
    let words1 := fuzzy_tokens subcat1 in
    let words2 := fuzzy_tokens subcat2 in
    match set_inter string_dec words1 words2 with
    | [] => false
    | _ :: _ => true
    end.

(* ================================================================== *)
(** ** Tables and dictionaries *)
(* ================================================================== *)

(** One row of a per-image table as [sort_by_category] leaves it: the
    display columns and the hidden pair of filled-in labels that the
    matching code reads. *)
Record Row : Type := mkRow {
  Cat : string;
  Subcat : string;
  Key : string;
  Value : string;
  _cat_for_match : string;
  _subcat_for_match : string
}.

Definition DataFrame : Type := list Row.

(** The keys of [vlm_lookup] and [fnf_lookup]: the tuple
    [(cat, subcat, key)] or the tuple [(cat, key)]. *)
Inductive LookupKey : Type :=
| Key3 (cat subcat key : string)
| Key2 (cat key : string).

Definition key_eqb (a b : LookupKey) : bool :=
  match a, b with
  | Key3 c s k, Key3 c' s' k' => (c =? c')%string && (s =? s')%string && (k =? k')%string
  | Key2 c k, Key2 c' k' => (c =? c')%string && (k =? k')%string
  | _, _ => false
  end.

Module Dict.

(** Items in insertion order; every key occurs once. *)
Definition t : Type := list (LookupKey * string).

Definition empty : t := [].

(** [d.get(k)] *)
Fixpoint get (d : t) (k : LookupKey) : option string :=
  match d with
  | [] => None
  | (k', v) :: d' => if key_eqb k' k then Some v else get d' k
  end.

(** [k in d] *)
Definition mem (d : t) (k : LookupKey) : bool :=
  match get d k with Some _ => true | None => false end.

(** [d[k] = v]: an existing key keeps its place and takes the new value,
    a new key goes last. *)
Fixpoint set (d : t) (k : LookupKey) (v : string) : t :=
  match d with
  | [] => [(k, v)]
  | (k', v') :: d' =>
      if key_eqb k' k then (k', v) :: d' else (k', v') :: set d' k v
  end.

(** [d.get(k, default)] *)
Definition get_default (d : t) (k : LookupKey) (default : string) : string :=
  match get d k with Some v => v | None => default end.

End Dict.

(** [str(row.get(col, '')).strip().lower()] on a string cell. *)
Definition cell (s : string) : string := PyStr.lower (PyStr.strip s).

(* ================================================================== *)
(** ** remove_duplicates (dashboard.py, lines 509-532) *)
(* ================================================================== *)

(** [normalize_for_dedup] *)
Definition normalize_for_dedup (text : string) : string :=
  if negb (PyStr.truthy text) then ""
  else PyStr.remove_char "_" (PyStr.remove_char " " (PyStr.remove_char "-"
         (PyStr.lower (PyStr.strip text)))).

(** The three temporary columns [_cat_norm], [_subcat_norm], [_key_norm]. *)
Definition dedup_key (r : Row) : string * string * string :=
  (normalize_for_dedup (_cat_for_match r),
   normalize_for_dedup (_subcat_for_match r),
   normalize_for_dedup (Key r)).

Definition dedup_key_eqb (a b : string * string * string) : bool :=
  let '(c, s, k) := a in
  let '(c', s', k') := b in
  (c =? c')%string && (s =? s')%string && (k =? k')%string.

(** [drop_duplicates(subset=..., keep='first')]: a row stays when no
    earlier row carries its key. *)
Fixpoint drop_duplicates (seen : list (string * string * string))
         (rows : DataFrame) : DataFrame :=
  match rows with
  | [] => []
  | r :: rest =>
      if existsb (dedup_key_eqb (dedup_key r)) seen
      then drop_duplicates seen rest
      else r :: drop_duplicates (dedup_key r :: seen) rest
  end.

Definition remove_duplicates (vlm_df : DataFrame) : DataFrame :=
  match vlm_df with
  | [] => vlm_df
  | _ => drop_duplicates [] vlm_df
  end.

(* ================================================================== *)
(** ** fnf_lookup (dashboard.py, lines 1052-1078) *)
(* ================================================================== *)

(** One turn of the loop over the ground-truth rows: rows without a value
    are skipped, and a key already present keeps its first value. *)
Definition fnf_lookup_step (fnf_lookup : Dict.t) (r : Row) : Dict.t :=
  let cat := cell (_cat_for_match r) in
  let subcat := cell (_subcat_for_match r) in
  let key := cell (Key r) in
  let val := cell (Value r) in
  if negb (PyStr.truthy val) || (val =? "nan")%string then fnf_lookup
  else
    let key3 := Key3 cat subcat key in
    let key2 := Key2 cat key in
    let fnf_lookup :=
      if negb (Dict.mem fnf_lookup key3) then Dict.set fnf_lookup key3 val
      else fnf_lookup in
    if negb (Dict.mem fnf_lookup key2) then Dict.set fnf_lookup key2 val
    else fnf_lookup.

Definition build_fnf_lookup (edited_fnf_img : DataFrame) : Dict.t :=
  fold_left fnf_lookup_step edited_fnf_img Dict.empty.

(* ================================================================== *)
(** ** calculate_accuracy (dashboard.py, lines 803-972) *)
(* ================================================================== *)

(** Exceptions the scoring step could raise, and the results of fallible
    code. *)
Inductive PyExn : Type := ZeroDivisionError.

Inductive result (A : Type) : Type :=
| Ok (a : A)
| Raise (e : PyExn).
Arguments Ok {A} a.
Arguments Raise {A} e.

Definition bind {A B : Type} (m : result A) (f : A -> result B) : result B :=
  match m with
  | Ok a => f a
  | Raise e => Raise e
  end.

Notation "x <- m ;; k" := (bind m (fun x => k))
  (at level 61, m at next level, right associativity).

(** Python's [a / b] on integers. *)
Definition truediv (a b : Z) : result Q :=
  if b =? 0 then Raise ZeroDivisionError
  else Ok (inject_Z a / inject_Z b)%Q.

(** The record [calculate_accuracy] returns. *)
Record AccuracyRecord : Type := mkAccuracy {
  marketing_acc : Q;
  marketing_match : Z;
  marketing_total : Z;
  marketing_extra : Z;
  product_acc : Q;
  value_acc : Q;
  subcat_acc : Q;
  product_match : Z;
  product_total : Z;
  product_extra : Z;
  subcat_errors : Z;
  has_brand : bool;
  has_product_name : bool
}.

(** Step 1 (lines 818-834): the candidate index and the two bonus flags.
    Both assignments overwrite: a key met again takes the later value. *)
Record VlmIndex : Type := mkVlmIndex {
  vlm_lookup : Dict.t;
  idx_has_brand : bool;
  idx_has_product_name : bool
}.

Definition index_vlm_row (ix : VlmIndex) (vlm_row : Row) : VlmIndex :=
  let v_cat := cell (_cat_for_match vlm_row) in
  let v_subcat := cell (_subcat_for_match vlm_row) in
  let v_key := cell (Key vlm_row) in
  let v_val := cell (Value vlm_row) in
  let hb := if (v_key =? "brand")%string && PyStr.truthy v_val
            then true else idx_has_brand ix in
  let hp := if (v_key =? "product_name")%string && PyStr.truthy v_val
            then true else idx_has_product_name ix in
  let lk := Dict.set (vlm_lookup ix) (Key3 v_cat v_subcat v_key) v_val in
  let lk := Dict.set lk (Key2 v_cat v_key) v_val in
  mkVlmIndex lk hb hp.

Definition build_vlm_index (vlm_df : DataFrame) : VlmIndex :=
  fold_left index_vlm_row vlm_df (mkVlmIndex Dict.empty false false).

(** [lookup.get((cat, subcat, key), lookup.get((cat, key), ''))]
    (lines 849-850 and 920-921). *)
Definition direct_value (lookup : Dict.t) (cat subcat key : string) : string :=
  Dict.get_default lookup (Key3 cat subcat key)
    (Dict.get_default lookup (Key2 cat key) "").

(** The test of the marketing scan (lines 857 and 927). *)
Definition marketing_hit (cat : string) (item : LookupKey * string) : bool :=
  match fst item with
  | Key2 c k => (k =? "")%string && word_level_match cat c
  | Key3 _ _ _ => false
  end.

(** The test of the product scan (lines 862-866 and 932-935). *)
Definition product_hit (cat subcat key : string)
           (item : LookupKey * string) : bool :=
  match fst item with
  | Key3 c s k =>
      word_level_match cat c && (k =? key)%string
      && (negb (PyStr.truthy subcat) || negb (PyStr.truthy s)
          || fuzzy_match_subcat subcat s)
  | Key2 _ _ => false
  end.

(** [for key, val in lookup.items(): if <test>: value = val; break] *)
Definition scan_value (test : LookupKey * string -> bool) (lookup : Dict.t)
           (value : string) : string :=
  match find test lookup with
  | Some (_, val) => val
  | None => value
  end.

(** The value looked up for an entry [(cat, subcat, key)] in the index of
    the other table.  Lines 846-868 use it on [vlm_lookup] for a
    ground-truth row, lines 919-937 on [fnf_lookup] for a candidate row;
    the two blocks are the same code with the names exchanged. *)
Definition find_value (lookup : Dict.t) (cat subcat key : string) : string :=
  let value := direct_value lookup cat subcat key in
  if negb (PyStr.truthy value) then
    if negb (PyStr.truthy key)
    then scan_value (marketing_hit cat) lookup value
    else scan_value (product_hit cat subcat key) lookup value
  else value.

(** The counters of step 2. *)
Record Tally : Type := mkTally {
  t_marketing_match : Z;
  t_marketing_total : Z;
  t_product_match : Z;
  t_product_total : Z;
  t_subcat_errors : Z
}.

(** Lines 881-897: the subcategory check of a product entry, against the
    first candidate row whose category word-matches and whose key is equal. *)
Definition subcat_error (vlm_df : DataFrame)
           (f_cat f_subcat f_key v_val : string) : bool :=
  if PyStr.truthy f_cat && PyStr.truthy f_subcat && PyStr.truthy f_key
     && PyStr.truthy v_val
  then
    match find (fun vlm_row =>
                  word_level_match f_cat (cell (_cat_for_match vlm_row))
                  && (cell (Key vlm_row) =? f_key)%string) vlm_df with
    | Some vlm_row =>
        let v_subcat_check := cell (_subcat_for_match vlm_row) in
        PyStr.truthy v_subcat_check
        && negb (fuzzy_match_subcat v_subcat_check f_subcat)
    | None => false
    end
  else false.

(** One turn of the loop over the ground-truth rows (lines 837-904). *)
Definition score_fnf_row (vlm_df : DataFrame) (lookup : Dict.t)
           (t : Tally) (fnf_row : Row) : Tally :=
  let f_cat := cell (_cat_for_match fnf_row) in
  let f_subcat := cell (_subcat_for_match fnf_row) in
  let f_key := cell (Key fnf_row) in
  let f_val := cell (Value fnf_row) in
  let is_marketing := negb (PyStr.truthy f_key) in
  let v_val := find_value lookup f_cat f_subcat f_key in
  let matched := PyStr.truthy v_val && word_level_match f_val v_val in
  if is_marketing && PyStr.truthy f_val then
    mkTally (t_marketing_match t + (if matched then 1 else 0))
            (t_marketing_total t + 1)
            (t_product_match t) (t_product_total t) (t_subcat_errors t)
  else if negb is_marketing && PyStr.truthy f_val then
    mkTally (t_marketing_match t) (t_marketing_total t)
            (t_product_match t + (if matched then 1 else 0))
            (t_product_total t + 1)
            (t_subcat_errors t
             + (if subcat_error vlm_df f_cat f_subcat f_key v_val
                then 1 else 0))
  else t.

(** The counters of step 3: [(marketing_extra, product_extra)]. *)
Definition count_extra (fnf_lookup : Dict.t) (extra : Z * Z)
           (vlm_row : Row) : Z * Z :=
  let v_cat := cell (_cat_for_match vlm_row) in
  let v_subcat := cell (_subcat_for_match vlm_row) in
  let v_key := cell (Key vlm_row) in
  let v_val := cell (Value vlm_row) in
  if negb (PyStr.truthy v_val) then extra
  else
    let is_marketing := negb (PyStr.truthy v_key) in
    let f_val := find_value fnf_lookup v_cat v_subcat v_key in
    if negb (PyStr.truthy f_val) then
      if is_marketing then (fst extra + 1, snd extra)
      else (fst extra, snd extra + 1)
    else extra.

(** Lines 945-972: the accuracies and the returned record. *)
Definition score (t : Tally) (extra : Z * Z) (ix : VlmIndex)
  : result AccuracyRecord :=
  marketing_acc <-
    (if 0 <? t_marketing_total t
     then q <- truediv (t_marketing_match t) (t_marketing_total t) ;;
          Ok (q * 100)%Q
     else Ok 0%Q) ;;
  accs <-
    (if 0 <? t_product_total t
     then q <- truediv (t_product_match t) (t_product_total t) ;;
          let value_acc := (q * 100)%Q in
          q' <- truediv (t_product_total t - t_subcat_errors t)
                        (t_product_total t) ;;
          let subcat_acc := (q' * 100)%Q in
          let product_acc := (value_acc * (6 # 10) + subcat_acc * (4 # 10))%Q in
          Ok (value_acc, subcat_acc, product_acc)
     else Ok (0%Q, 0%Q, 0%Q)) ;;
  let '(value_acc, subcat_acc, product_acc) := accs in
  Ok (mkAccuracy marketing_acc
                 (t_marketing_match t) (t_marketing_total t) (fst extra)
                 product_acc value_acc subcat_acc
                 (t_product_match t) (t_product_total t) (snd extra)
                 (t_subcat_errors t)
                 (idx_has_brand ix) (idx_has_product_name ix)).

(** [calculate_accuracy(vlm_df, fnf_df, fnf_lookup, ...)].  The remaining
    parameters of the source are [fnf_catsubcat], which the body never
    reads, and the three matchers defined above. *)
Definition calculate_accuracy (vlm_df fnf_df : DataFrame) (fnf_lookup : Dict.t)
  : result AccuracyRecord :=
  let ix := build_vlm_index vlm_df in
  let t := fold_left (score_fnf_row vlm_df (vlm_lookup ix)) fnf_df
                     (mkTally 0 0 0 0 0) in
  let extra := fold_left (count_extra fnf_lookup) vlm_df (0, 0) in
  score t extra ix.

(** The call of lines 1210 and 1372: the index of the ground truth is built
    from the same table that is passed as [fnf_df]. *)
Definition reconcile (G C : DataFrame) : result AccuracyRecord :=
  calculate_accuracy C G (build_fnf_lookup G).

Section Pipeline.

(** [add_missing_items(vlm_df, fnf_df)] (lines 577-787) runs between the
    de-duplication and the scoring: it adds empty-valued rows to the
    candidate table for ground-truth entries it does not find there and
    sorts the table again.  What is proved of the pipeline below holds
    whatever this step returns, so it stays a parameter. *)
Variable add_missing_items : DataFrame -> DataFrame -> DataFrame.

(** The path of a sorted candidate table [C] in [main]: de-duplicated
    (lines 541 and 546), completed with the missing rows (lines 797 and
    1238), then scored against the ground truth (lines 1210 and 1372). *)
Definition dedup_then_reconcile (G C : DataFrame) : result AccuracyRecord :=
  reconcile G (add_missing_items (remove_duplicates C) G).

End Pipeline.

(* ================================================================== *)
(** ** Loading the three sources (dashboard.py, lines 45-177, 299-397,
       1440-1443) *)
(* ================================================================== *)

(** A spreadsheet cell as [read_excel] delivers it: [None] is a blank
    cell (NaN), [Some s] a cell whose text is [s]. *)
Definition Cell : Type := option string.

Record RawRow : Type := mkRawRow {
  raw_Image : Cell;
  raw_Cat : Cell;
  raw_Subcat : Cell;
  raw_Key : Cell;
  raw_Value : Cell
}.

(** A workbook: its column names, and its rows read under the five
    expected headers (the image cell is the one under [Image], or under
    [Image_Name] in a file of the VLM run). *)
Record Workbook : Type := mkWorkbook {
  columns : list string;
  sheet : list RawRow
}.

(** What a path holds when it is opened. *)
Inductive FileState : Type :=
| Absent
| Unreadable (message : string)
| Readable (wb : Workbook).

Record LoadedRow : Type := mkLoadedRow {
  Image : Cell;
  lCat : string;
  lSubcat : string;
  lKey : string;
  lValue : string
}.

Definition required_cols : list string :=
  ["Image"; "Cat"; "Subcat"; "Key"; "Value"].

(** [all(col in df.columns for col in required_cols)] *)
Definition has_required_cols (wb : Workbook) : bool :=
  forallb (fun col => existsb (String.eqb col) (columns wb)) required_cols.

(** [df[col].fillna('').astype(str).str.lower()] on one cell. *)
Definition fill_lower (c : Cell) : string :=
  match c with
  | Some s => PyStr.lower s
  | None => ""
  end.

(** [df['Image'].ffill()] followed by the lowering of the four text
    columns. *)
Fixpoint shape_rows (prev : Cell) (rows : list RawRow) : list LoadedRow :=
  match rows with
  | [] => []
  | r :: rest =>
      let img := match raw_Image r with Some s => Some s | None => prev end in
      mkLoadedRow img (fill_lower (raw_Cat r)) (fill_lower (raw_Subcat r))
                  (fill_lower (raw_Key r)) (fill_lower (raw_Value r))
      :: shape_rows img rest
  end.

(** The pair [(df, error)] of the two spreadsheet loaders. *)
Definition Loaded : Type := option (list LoadedRow) * option string.

(** The body shared by [load_fnf_data] and [load_oddconcept_data]; they
    differ in the file and in the text of the first message. *)
Definition load_sheet (not_found : string) (file : FileState) : Loaded :=
  match file with
  | Absent => (None, Some not_found)
  | Unreadable message => (None, Some message)
  | Readable wb =>
      if negb (has_required_cols wb)
      then (None,
            Some "필수 컬럼이 없습니다. 필요: ['Image', 'Cat', 'Subcat', 'Key', 'Value']")
      else (Some (shape_rows None (sheet wb)), None)
  end.

(** The result files of the VLM run, newest first, as
    [load_gemini_results] meets them. *)
Inductive ResultFile : Type :=
| ResultOk (name : string) (wb : Workbook)
| ResultLocked (name : string)
| ResultBroken (name : string) (message : string).

Record GeminiTable : Type := mkGeminiTable {
  g_columns : list string;
  g_rows : list LoadedRow
}.

(** The renaming of [Image] to [Image_Name] and the lowering of the text
    columns; no forward fill and no column check here. *)
Definition shape_gemini (wb : Workbook) : GeminiTable :=
  mkGeminiTable
    (map (fun c => if (c =? "Image")%string then "Image_Name" else c)
         (columns wb))
    (map (fun r => mkLoadedRow (raw_Image r) (fill_lower (raw_Cat r))
                     (fill_lower (raw_Subcat r)) (fill_lower (raw_Key r))
                     (fill_lower (raw_Value r)))
         (sheet wb)).

Definition load_gemini_results (result_files : list ResultFile)
  : option GeminiTable * option string :=
  match result_files with
  | [] => (None, None)
  | ResultOk name wb :: _ => (Some (shape_gemini wb), Some name)
  | ResultLocked _ :: ResultOk name wb :: _ =>
      (Some (shape_gemini wb), Some (name ++ " (이전 버전)"))
  | ResultLocked _ :: _ => (None, Some "파일 열려있음")
  | ResultBroken _ message :: _ => (None, Some message)
  end.

(** Truth value of an error slot: [None] and the empty text are false. *)
Definition error_set (e : option string) : bool :=
  match e with
  | Some s => PyStr.truthy s
  | None => false
  end.

(** *** Streamlit's [st.cache_data] *)

(** A cached return value, and the reading of the clock when it was
    stored. *)
Record Entry (A : Type) : Type := mkEntry {
  entry_value : A;
  stored_at : Q
}.

Arguments mkEntry {A} _ _.
Arguments entry_value {A} _.
Arguments stored_at {A} _.

(** Whether an entry is still served: always without [ttl]; with a
    [ttl] of [t] seconds, while the clock is before [stored_at + t]. *)
Definition live {A : Type} (ttl : option Q) (now : Q) (e : Entry A) : bool :=
  match ttl with
  | None => true
  | Some t => negb (Qle_bool (stored_at e + t) now)
  end.

(** The four components [load_data] returns. *)
Record LoadData : Type := mkLoadData {
  df_fnf : option (list LoadedRow);
  df_gemini : option GeminiTable;
  df_oddconcept : option (list LoadedRow);
  error : option string
}.

(** The caches of the process.  Every parameter of the three cached
    functions has a name that starts with an underscore, and
    [st.cache_data] leaves such parameters out of the cache key: each
    function has one entry, whatever it is called with. *)
Record Caches : Type := mkCaches {
  load_fnf_data_cache : option (Entry Loaded);
  load_oddconcept_data_cache : option (Entry Loaded);
  load_data_cache : option (Entry LoadData)
}.

(** The caches when the process starts and after [st.cache_data.clear()]. *)
Definition no_caches : Caches := mkCaches None None None.

(** [@st.cache_data(ttl=...)] around [func]: a live entry is returned
    and [func] does not run; otherwise [func] runs and its value is
    stored with the clock reading [now]. *)
Definition cache_data {A : Type} (ttl : option Q)
           (slot : Caches -> option (Entry A))
           (store : Entry A -> Caches -> Caches)
           (func : Caches -> A * Caches) (now : Q) (caches : Caches)
  : A * Caches :=
  let miss :=
    let '(value, caches) := func caches in
    (value, store (mkEntry value now) caches) in
  match slot caches with
  | Some e => if live ttl now e then (entry_value e, caches) else miss
  | None => miss
  end.

Definition store_load_fnf_data (e : Entry Loaded) (caches : Caches) : Caches :=
  mkCaches (Some e) (load_oddconcept_data_cache caches) (load_data_cache caches).

Definition store_load_oddconcept_data (e : Entry Loaded) (caches : Caches)
  : Caches :=
  mkCaches (load_fnf_data_cache caches) (Some e) (load_data_cache caches).

Definition store_load_data (e : Entry LoadData) (caches : Caches) : Caches :=
  mkCaches (load_fnf_data_cache caches) (load_oddconcept_data_cache caches)
           (Some e).

Section Loader.

(** The texts of the two paths, as the messages print them. *)
Variables FNF_FILE ODDCONCEPT_FILE : string.

(** [load_fnf_data], under [@st.cache_data(ttl=1)] (lines 45-74): [now]
    is the clock, [file] what the path holds; [_file_mtime] is read by
    neither the cache nor the body. *)
Definition load_fnf_data (now : Q) (file : FileState) (_file_mtime : option Q)
           (caches : Caches) : Loaded * Caches :=
  cache_data (Some 1%Q) load_fnf_data_cache store_load_fnf_data
    (fun caches =>
       (load_sheet ("F&F 정답지 파일을 찾을 수 없습니다: " ++ FNF_FILE) file, caches))
    now caches.

(** [load_oddconcept_data], under [@st.cache_data(ttl=1)] (lines 77-106). *)
Definition load_oddconcept_data (now : Q) (file : FileState)
           (_file_mtime : option Q) (caches : Caches) : Loaded * Caches :=
  cache_data (Some 1%Q) load_oddconcept_data_cache store_load_oddconcept_data
    (fun caches =>
       (load_sheet ("오드컨셉 결과 파일을 찾을 수 없습니다: " ++ ODDCONCEPT_FILE)
                   file, caches))
    now caches.

(** [load_data], under [@st.cache_data] without ttl (lines 154-177). *)
Definition load_data (now : Q) (fnf : FileState) (result_files : list ResultFile)
           (odd : FileState) (_fnf_mtime _oddconcept_mtime : option Q)
           (caches : Caches) : LoadData * Caches :=
  cache_data None load_data_cache store_load_data
    (fun caches =>
       let '((df_fnf, fnf_error), caches) :=
         load_fnf_data now fnf _fnf_mtime caches in
       if error_set fnf_error then
         (mkLoadData None None None
            (Some ("F&F 로드 실패: "
                   ++ match fnf_error with Some s => s | None => "" end)),
          caches)
       else
         let '(df_gemini, gemini_file) := load_gemini_results result_files in
         let df_gemini :=
           match df_gemini with
           | Some df => df
           | None => mkGeminiTable required_cols []
           end in
         let '((df_oddconcept, odd_error), caches) :=
           load_oddconcept_data now odd _oddconcept_mtime caches in
         if error_set odd_error then
           (mkLoadData None None None
              (Some ("오드컨셉 로드 실패: "
                     ++ match odd_error with Some s => s | None => "" end)),
            caches)
         else (mkLoadData df_fnf (Some df_gemini) df_oddconcept None, caches))
    now caches.

(** [df[img_col].dropna().unique().tolist()] *)
Fixpoint unique_images (seen : list string) (rows : list LoadedRow)
  : list string :=
  match rows with
  | [] => []
  | r :: rest =>
      match Image r with
      | None => unique_images seen rest
      | Some name =>
          if existsb (String.eqb name) seen then unique_images seen rest
          else name :: unique_images (name :: seen) rest
      end
  end.

(** Lines 384-391: the images to compare come from the VLM table. *)
Definition image_list (df_gemini : option GeminiTable) : list string :=
  match df_gemini with
  | Some df =>
      if (0 <? Z.of_nat (length (g_rows df))) then
        let img_col :=
          if existsb (String.eqb "Image_Name") (g_columns df)
          then "Image_Name" else "Image" in
        if existsb (String.eqb img_col) (g_columns df)
        then unique_images [] (g_rows df)
        else []
      else []
  | None => []
  end.

(** Whether the VLM table has all of the given columns. *)
Definition has_cols (df_gemini : option GeminiTable) (cols : list string)
  : bool :=
  match df_gemini with
  | Some df => forallb (fun col => existsb (String.eqb col) (g_columns df)) cols
  | None => false
  end.

(** What [main] shows below the title: the load failure and nothing
    else (lines 308-313), the warning that there is no VLM result
    (line 394), or one section per image holding the comparison of both
    candidate sources (lines 397-1392).  [Crashed] is an exception that
    leaves [main]: in [calculate_stats] (line 316) when a loader handed
    back neither a table nor a message that counts as true, or at line 544
    when the VLM table lacks one of the four text columns. *)
Inductive Report : Type :=
| LoadFailed (message : string)
| Crashed
| NoGeminiResult
| Compared (images : list string).

(** [main] from line 308 on, given what [load_data] returned. *)
Definition main_report (ld : LoadData) : Report :=
  if error_set (error ld) then
    LoadFailed (match error ld with Some s => s | None => "" end)
  else
    match df_fnf ld, df_oddconcept ld with
    | Some _, Some _ =>
        match image_list (df_gemini ld) with
        | [] => NoGeminiResult
        | images =>
            if has_cols (df_gemini ld) ["Cat"; "Subcat"; "Key"; "Value"]
            then Compared images else Crashed
        end
    | _, _ => Crashed
    end.

(** Whether a run gets as far as the refresh button of lines 1441-1443:
    not after the [return] of line 313, and not after an exception. *)
Definition reaches_button (report : Report) : bool :=
  match report with
  | NoGeminiResult | Compared _ => true
  | LoadFailed _ | Crashed => false
  end.

(** What one run of the script meets: the clock, what the two paths
    hold and their modification times, the result files of the VLM
    run, and whether the run was started by a press of the refresh
    button. *)
Record Env : Type := mkEnv {
  env_clock : Q;
  env_fnf : FileState;
  env_fnf_st_mtime : Q;
  env_odd : FileState;
  env_odd_st_mtime : Q;
  env_result_files : list ResultFile;
  env_refresh_clicked : bool
}.

(** [path.stat().st_mtime if path.exists() else None] *)
Definition mtime_of (file : FileState) (st_mtime : Q) : option Q :=
  match file with
  | Absent => None
  | _ => Some st_mtime
  end.

(** One run of [main]: the report, and the caches it leaves.  A run that
    reaches the pressed refresh button clears every cache and asks for
    a rerun, which is the next run. *)
Definition main (env : Env) (caches : Caches) : Report * Caches :=
  let fnf_mtime := mtime_of (env_fnf env) (env_fnf_st_mtime env) in
  let oddconcept_mtime := mtime_of (env_odd env) (env_odd_st_mtime env) in
  let '(ld, caches) :=
    load_data (env_clock env) (env_fnf env) (env_result_files env)
              (env_odd env) fnf_mtime oddconcept_mtime caches in
  let report := main_report ld in
  if reaches_button report && env_refresh_clicked env
  then (report, no_caches)
  else (report, caches).

(** The caches of a process after the runs of [history], oldest first. *)
Definition caches_after (history : list Env) : Caches :=
  fold_left (fun caches env => snd (main env caches)) history no_caches.

End Loader.

(* ================================================================== *)
(** ** The corpus summary (dashboard.py, lines 1399-1407) *)
(* ================================================================== *)

(** [sum(rates)] *)
Definition py_sum (rates : list Q) : Q := fold_left Qplus rates 0%Q.

(** [sum(rates) / len(rates) if rates else 0] *)
Definition average (rates : list Q) : Q :=
  match rates with
  | [] => 0%Q
  | _ => (py_sum rates / inject_Z (Z.of_nat (length rates)))%Q
  end.

Record Summary : Type := mkSummary {
  avg_gemini_marketing : Q;
  avg_gemini_product : Q;
  avg_gemini : Q;
  avg_odd_marketing : Q;
  avg_odd_product : Q;
  avg_odd : Q
}.

(** The four rate lists get one entry per image (lines 1213-1214 and
    1375-1376); the summary averages each and halves the sum of the two
    averages of a source. *)
Definition summary (gemini_accs odd_accs : list AccuracyRecord) : Summary :=
  let gemini_marketing_rates := map marketing_acc gemini_accs in
  let gemini_product_rates := map product_acc gemini_accs in
  let odd_marketing_rates := map marketing_acc odd_accs in
  let odd_product_rates := map product_acc odd_accs in
  let avg_gemini_marketing := average gemini_marketing_rates in
  let avg_gemini_product := average gemini_product_rates in
  let avg_odd_marketing := average odd_marketing_rates in
  let avg_odd_product := average odd_product_rates in
  mkSummary avg_gemini_marketing avg_gemini_product
            ((avg_gemini_marketing + avg_gemini_product) / 2)%Q
            avg_odd_marketing avg_odd_product
            ((avg_odd_marketing + avg_odd_product) / 2)%Q.

(* ================================================================== *)
(** ** Notions used to state the properties *)
(* ================================================================== *)

(** What the loop over the ground truth keeps true of its counters. *)
Definition tally_ok (t : Tally) : Prop :=
  0 <= t_marketing_match t <= t_marketing_total t
  /\ 0 <= t_product_match t <= t_product_total t
  /\ 0 <= t_subcat_errors t <= t_product_total t.

(** The record that [score] returns, spelled out for the two cases of each
    denominator. *)
Definition marketing_acc_of (t : Tally) : Q :=
  if 0 <? t_marketing_total t
  then (inject_Z (t_marketing_match t) / inject_Z (t_marketing_total t) * 100)%Q
  else 0%Q.

Definition value_acc_of (t : Tally) : Q :=
  if 0 <? t_product_total t
  then (inject_Z (t_product_match t) / inject_Z (t_product_total t) * 100)%Q
  else 0%Q.

Definition subcat_acc_of (t : Tally) : Q :=
  if 0 <? t_product_total t
  then (inject_Z (t_product_total t - t_subcat_errors t)
        / inject_Z (t_product_total t) * 100)%Q
  else 0%Q.

Definition product_acc_of (t : Tally) : Q :=
  if 0 <? t_product_total t
  then (value_acc_of t * (6 # 10) + subcat_acc_of t * (4 # 10))%Q
  else 0%Q.

(* ================================================================== *)
(** ** Concrete tables used below *)
(* ================================================================== *)

(** A sorted row whose display labels are its own match labels. *)
Definition row (cat subcat key value : string) : Row :=
  mkRow cat subcat key value cat subcat.

(** Scenario A: one product entry in the ground truth, no candidate row;
    and the candidate table once the missing entry has been written into
    it with an empty value. *)
Definition scenario_a_G : DataFrame := [row "outer" "jacket" "color" "black"].
Definition scenario_a_C : DataFrame := [].
Definition scenario_a_C_completed : DataFrame := [row "outer" "jacket" "color" ""].

(** Scenario C: the candidate files the entry under another subcategory. *)
Definition scenario_c_G : DataFrame := [row "bottom" "jeans" "pattern" "solid"].
Definition scenario_c_C : DataFrame := [row "bottom" "pants" "pattern" "solid"].

(** A candidate table with every row written twice in place. *)
Definition every_row_twice (C : DataFrame) : DataFrame :=
  flat_map (fun r => [r; r]) C.

(** Scenario D: the candidate adds a fact the ground truth does not hold. *)
Definition scenario_d_C : DataFrame :=
  [row "bottom" "pants" "pattern" "solid"; row "bag" "tote" "color" "red"].

(** The relaxed test as the specification words it: the category
    word-matches, the key is equal and the subcategory fuzzy-matches. *)
Definition spec_relaxed_hit (cat subcat key : string)
           (item : LookupKey * string) : bool :=
  match fst item with
  | Key3 c s k =>
      word_level_match cat c && (k =? key)%string && fuzzy_match_subcat subcat s
  | Key2 _ _ => false
  end.

(** The order of lookups as the specification words it: the exact triple,
    then the relaxed match, and only then the pair without subcategory. *)
Definition spec_find_value (lookup : Dict.t) (cat subcat key : string) : string :=
  match Dict.get lookup (Key3 cat subcat key) with
  | Some v => v
  | None =>
      match find (spec_relaxed_hit cat subcat key) lookup with
      | Some (_, v) => v
      | None => Dict.get_default lookup (Key2 cat key) ""
      end
  end.

(** A candidate whose pair [(outer, color)] and whose relaxed match for
    [(outer, jacket, color)] come from different rows. *)
Definition order_C : DataFrame :=
  [row "outer" "coat" "color" "red"; row "outer wear" "jackets" "color" "black"].

(** A candidate with the key [color] under two subcategories of [outer],
    in the sort order of the table, and a ground truth asking for it. *)
Definition two_subcats_C : DataFrame :=
  [row "outer" "coat" "color" "red"; row "outer" "jacket" "color" "black"].
Definition two_subcats_G : DataFrame := [row "outer" "parka" "color" "red"].

(** [t] is a token of [val] for [word_level_match]: a non-empty text that
    is, for one of the comma-separated phrases of [val], the normalised
    phrase or one of its normalised words. *)
Definition is_token (val t : string) : Prop :=
  t <> ""
  /\ exists v, In v (comma_values val)
               /\ (t = normalize_word v
                   \/ exists word, In word (PyStr.split v)
                                   /\ t = normalize_word word).

(** Tokenising as the specification words it: for each phrase the whole
    normalised phrase and each normalised word, all with the trailing 's'
    stripped. *)
Definition spec_tokenize_value_set (text : string) : set string :=
  fold_left
    (fun words v =>
       let words :=
         add_if_truthy (PyStr.rstrip_char "s" (normalize_word v)) words in
       fold_left
         (fun ws word =>
            add_if_truthy (PyStr.rstrip_char "s" (normalize_word word)) ws)
         (PyStr.split v) words)
    (comma_values text) (empty_set string).

(** [word_overlap] as the specification words it. *)
Definition spec_word_overlap (a b : string) : bool :=
  match set_inter string_dec (spec_tokenize_value_set a)
                  (spec_tokenize_value_set b) with
  | [] => false
  | _ :: _ => true
  end.

(** A spreadsheet fails to load when it is absent, when reading it raises
    an exception whose text is not empty, or when it lacks one of the
    required columns; it loads when it can be read and has them all. *)
Definition load_fails (file : FileState) : bool :=
  match file with
  | Absent => true
  | Unreadable message => PyStr.truthy message
  | Readable wb => negb (has_required_cols wb)
  end.

Definition loads (file : FileState) : bool :=
  match file with
  | Readable wb => has_required_cols wb
  | _ => false
  end.

(** A workbook with the five columns and one row, a VLM result file
    holding it, and the texts of the two paths. *)
Definition sample_wb : Workbook :=
  mkWorkbook required_cols
    [mkRawRow (Some "look1.jpg") (Some "Outer") (Some "jacket")
              (Some "color") (Some "black")].

Definition sample_results : list ResultFile :=
  [ResultOk "vlm_analysis_result_20250101_000000.xlsx" sample_wb].

Definition sample_fnf_path : string := "fnf정답지.xlsx".
Definition sample_odd_path : string := "오드컨셉결과.xlsx".

(** Runs of the script: with the three sources in place; with the vendor
    file absent; a minute later, the vendor file deleted; and with no
    result file of the VLM run. *)
Definition run_all_present : Env :=
  mkEnv 0 (Readable sample_wb) 0 (Readable sample_wb) 0 sample_results false.

Definition run_vendor_absent : Env :=
  mkEnv 0 (Readable sample_wb) 0 Absent 0 sample_results false.

Definition run_vendor_deleted : Env :=
  mkEnv 60 (Readable sample_wb) 0 Absent 0 sample_results false.

Definition run_no_vlm_result : Env :=
  mkEnv 0 (Readable sample_wb) 0 (Readable sample_wb) 0 [] false.

(** The sum of one accuracy over the records of a corpus. *)
Definition total (f : AccuracyRecord -> Q) (accs : list AccuracyRecord) : Q :=
  fold_right (fun r acc => (f r + acc)%Q) 0%Q accs.

(** The number of images of a corpus, as a rational. *)
Definition images (accs : list AccuracyRecord) : Q :=
  inject_Z (Z.of_nat (length accs)).

(** Three per-image records with product accuracies 100, 0 and 50 and
    with unequal numbers of scored items. *)
Definition image_full : AccuracyRecord :=
  mkAccuracy 100 1 1 0 100 100 100 1 1 0 0 false false.
Definition image_empty : AccuracyRecord :=
  mkAccuracy 0 0 4 0 0 0 0 0 0 0 0 false false.
Definition image_half : AccuracyRecord :=
  mkAccuracy 50 1 2 0 50 50 50 4 8 0 4 false false.

(* ================================================================== *)
(** ** Further code of dashboard.py *)
(* ================================================================== *)

Module PyStrMore.

(** The string read backwards. *)
Fixpoint rev (s : string) : string :=
  match s with
  | EmptyString => EmptyString
  | String c r => rev r ++ String c EmptyString
  end.

(** [s.endswith(suffix)]: the suffix read backwards starts [s] read
    backwards. *)
Definition endswith (s suffix : string) : bool :=
  String.prefix (rev suffix) (rev s).

(** [s[:-k]] for a positive [k]. *)
Definition drop_last (k : nat) (s : string) : string :=
  String.substring 0 (String.length s - k) s.

End PyStrMore.

(** The extensions [normalize_image_name] knows, in the order it tries
    them. *)
Definition image_extensions : list string :=
  [".jpg"; ".jpeg"; ".png"; ".gif"; ".webp"].

(** [for ext in exts: if name.endswith(ext): name = name[:-len(ext)]; break] *)
Fixpoint strip_first_extension (exts : list string) (name : string) : string :=
  match exts with
  | [] => name
  | ext :: rest =>
      if PyStrMore.endswith name ext
      then PyStrMore.drop_last (String.length ext) name
      else strip_first_extension rest name
  end.

(** [normalize_image_name(name)] (lines 29-39); [None] is a NaN cell. *)
Definition normalize_image_name (name : Cell) : string :=
  match name with
  | None => ""
  | Some name =>
      if negb (PyStr.truthy name) then ""
      else strip_first_extension image_extensions
             (PyStr.lower (PyStr.strip name))
  end.

(** [normalize_for_compare], local to [add_missing_items] (lines 580-583). *)
Definition normalize_for_compare (text : string) : string :=
  if negb (PyStr.truthy text) then ""
  else PyStr.remove_char "_" (PyStr.remove_char " " (PyStr.remove_char "-"
         (PyStr.lower (PyStr.strip text)))).

(** The loop of [match_cat_words] that fills a word set (lines 600-612). *)
Definition cat_word_tokens (cat : string) : set string :=
  fold_left
    (fun words v =>
       fold_left
         (fun ws word =>
            add_if_truthy (PyStr.rstrip_char "s" (normalize_for_compare word)) ws)
         (PyStr.split v) words)
    (comma_values cat) (empty_set string).

(** [match_cat_words(cat1, cat2)] (lines 587-614). *)
Definition match_cat_words (cat1 cat2 : string) : bool :=
  if negb (PyStr.truthy cat1) || negb (PyStr.truthy cat2) then false
  else
    let s1 := PyStr.strip cat1 in
    let s2 := PyStr.strip cat2 in
    if negb (PyStr.truthy s1) || negb (PyStr.truthy s2) then false
    else
      match set_inter string_dec (cat_word_tokens cat1) (cat_word_tokens cat2) with
      | [] => false
      | _ :: _ => true
      end.

(** The loop of [match_subcat_words] that fills a word set (lines
    632-654): for each comma value first the whole phrase, then its
    words, each normalised and without trailing 's'. *)
Definition subcat_word_tokens (subcat : string) : set string :=
  fold_left
    (fun words v =>
       let words :=
         add_if_truthy (PyStr.rstrip_char "s" (normalize_for_compare v)) words in
       fold_left
         (fun ws word =>
            add_if_truthy (PyStr.rstrip_char "s" (normalize_for_compare word)) ws)
         (PyStr.split v) words)
    (comma_values subcat) (empty_set string).

(** [match_subcat_words(subcat1, subcat2)] (lines 617-656). *)
Definition match_subcat_words (subcat1 subcat2 : string) : bool :=
  if negb (PyStr.truthy subcat1) || negb (PyStr.truthy subcat2) then false
  else
    let s1 := PyStr.strip subcat1 in
    let s2 := PyStr.strip subcat2 in
    if negb (PyStr.truthy s1) || negb (PyStr.truthy s2) then false
    else
      match set_inter string_dec (subcat_word_tokens subcat1)
                      (subcat_word_tokens subcat2) with
      | [] => false
      | _ :: _ => true
      end.

(** [t] is a token of [label] for [fuzzy_match_subcat]: a non-empty text
    that is a word of one of the comma-separated phrases of [label],
    normalised and without its trailing 's'. *)
Definition is_fuzzy_token (label t : string) : Prop :=
  t <> ""
  /\ exists v, In v (comma_values label)
               /\ exists word, In word (PyStr.split v)
                               /\ t = PyStr.rstrip_char "s" (normalize_text word).

(** A text whose only whitespace is the space character. *)
Definition plain (s : string) : Prop :=
  forall c, In c (list_ascii_of_string s) -> PyStr.isspace c = true -> c = " "%char.

(** A text that does not begin with whitespace. *)
Definition starts_clean (s : string) : Prop :=
  match s with
  | EmptyString => True
  | String c _ => PyStr.isspace c = false
  end.

(** The same row with its key, its value and its two match labels
    stripped and lowered. *)
Definition normalise_row (r : Row) : Row :=
  mkRow (Cat r) (Subcat r) (cell (Key r)) (cell (Value r))
        (cell (_cat_for_match r)) (cell (_subcat_for_match r)).

(** The three separators removed from [x]. *)
Definition without_separators (x : string) : string :=
  PyStr.remove_char "_" (PyStr.remove_char " " (PyStr.remove_char "-" x)).

(** A row that [fnf_lookup] records: its value is neither empty nor the
    text "nan". *)
Definition valued (r : Row) : bool :=
  PyStr.truthy (cell (Value r)) && negb (cell (Value r) =? "nan")%string.

(** The two keys a row is filed under. *)
Definition key3_of (r : Row) : LookupKey :=
  Key3 (cell (_cat_for_match r)) (cell (_subcat_for_match r)) (cell (Key r)).

Definition key2_of (r : Row) : LookupKey :=
  Key2 (cell (_cat_for_match r)) (cell (Key r)).

(** The ground-truth rows that count: a non-empty value, without a key
    (marketing) or with one (product). *)
Definition is_marketing_entry (r : Row) : bool :=
  negb (PyStr.truthy (cell (Key r))) && PyStr.truthy (cell (Value r)).

Definition is_product_entry (r : Row) : bool :=
  PyStr.truthy (cell (Key r)) && PyStr.truthy (cell (Value r)).

(** The number of rows of a table that pass a test. *)
Definition count_rows (test : Row -> bool) (df : DataFrame) : Z :=
  Z.of_nat (length (filter test df)).

(** A row that sets a bonus flag: the given key and a non-empty value. *)
Definition names_bonus (key : string) (r : Row) : bool :=
  (cell (Key r) =? key)%string && PyStr.truthy (cell (Value r)).

(** Two rows that the reconciler cannot tell apart: the same key, value
    and match labels once stripped and lowered. *)
Definition same_cells (r r' : Row) : Prop :=
  cell (Key r) = cell (Key r')
  /\ cell (Value r) = cell (Value r')
  /\ cell (_cat_for_match r) = cell (_cat_for_match r')
  /\ cell (_subcat_for_match r) = cell (_subcat_for_match r').

(** Every value an index holds counts as true. *)
Definition all_values_truthy (d : Dict.t) : Prop :=
  forall k v, Dict.get d k = Some v -> PyStr.truthy v = true.

(** A record whose two accuracies are percentages. *)
Definition percent_record (r : AccuracyRecord) : Prop :=
  (0 <= marketing_acc r <= 100)%Q /\ (0 <= product_acc r <= 100)%Q.

(** The last image name among the given cells, if any: what a forward
    fill leaves in the row below them. *)
Definition last_named (cells : list Cell) (prev : Cell) : Cell :=
  fold_left (fun acc c => match c with Some s => Some s | None => acc end)
            cells prev.

Definition blank_loaded_row : LoadedRow := mkLoadedRow None "" "" "" "".

(* ================================================================== *)
(** ** sort_by_category (dashboard.py, lines 370-381 and 430-506) *)
(* ================================================================== *)

(** The four columns [main] cuts out of a loaded table for one image. *)
Record Cols : Type := mkCols {
  cCat : string;
  cSubcat : string;
  cKey : string;
  cValue : string
}.

(** The texts [clean_none_values] blanks, before it lowers the rest. *)
Definition none_texts : list string :=
  ["None"; "none"; "nan"; "NaN"; "N/A"; "n/a"; "null"; "NULL"; "/"].

(** [clean_none_values] on one text cell: an exact hit of [none_texts]
    becomes empty, then the cell is lowered. *)
Definition clean_text (s : string) : string :=
  PyStr.lower (if existsb (String.eqb s) none_texts then "" else s).

(** [ch in s] *)
Fixpoint str_contains (ch : ascii) (s : string) : bool :=
  match s with
  | EmptyString => false
  | String c r => Ascii.eqb c ch || str_contains ch r
  end.

(** [get_first_value] (lines 455-461). *)
Definition get_first_value (text : string) : string :=
  if negb (PyStr.truthy text) then ""
  else
    let text_str := PyStr.strip text in
    if str_contains "," text_str
    then PyStr.strip (hd "" (PyStr.split_on "," text_str))
    else text_str.

(** [cat_order] (lines 431-443). *)
Definition cat_order : list (string * Z) :=
  [("age group", 1); ("color tone filter", 2); ("coordination method", 3);
   ("gender", 4); ("skin tone", 5); ("pose", 6); ("hair style", 7);
   ("expression", 8); ("gaze direction", 9); ("fashion style", 10);
   ("location", 11); ("mood", 12);
   ("number of people", 13); ("overall fashion color tone", 14);
   ("season weather", 15); ("shooting composition", 16);
   ("outer", 20); ("inner", 21); ("bottom", 22); ("shoes", 23);
   ("bag", 24); ("accessories", 25); ("neckwear", 26); ("headwear", 27);
   ("eyewear", 28); ("hosiery", 29); ("onepiece", 30); ("swimwear", 31)].

Fixpoint assoc_get (table : list (string * Z)) (k : string) (default : Z) : Z :=
  match table with
  | [] => default
  | (k', v) :: rest => if (k' =? k)%string then v else assoc_get rest k default
  end.

(** [get_cat_order] (lines 445-447). *)
Definition get_cat_order (cat_val : string) : Z :=
  assoc_get cat_order (PyStr.lower (PyStr.strip cat_val)) 100.

(** The four sort columns of a row: [_cat_order], [_is_marketing],
    [_subcat_lower], [_key_lower]. *)
Record SortKey : Type := mkSortKey {
  k_cat_order : Z;
  k_is_marketing : Z;
  k_subcat_lower : string;
  k_key_lower : string
}.

(** The order of [sort_values(..., ascending=[True, False, True, True])]. *)
Definition sort_key_compare (a b : SortKey) : comparison :=
  match Z.compare (k_cat_order a) (k_cat_order b) with
  | Eq =>
      match Z.compare (k_is_marketing b) (k_is_marketing a) with
      | Eq =>
          match String.compare (k_subcat_lower a) (k_subcat_lower b) with
          | Eq => String.compare (k_key_lower a) (k_key_lower b)
          | c => c
          end
      | c => c
      end
  | c => c
  end.

Definition sort_key_le (a b : SortKey) : bool :=
  match sort_key_compare a b with
  | Gt => false
  | _ => true
  end.

Section SortByCategory.

(** The columns beside the four, and what [clean_none_values] makes of
    them: nothing on the first sort of a table, the two flags of
    [add_missing_items] on the second. *)
Context {A : Type}.
Variable clean_extra : A -> A.

(** A row between the cleaning and the sort, with its temporary columns. *)
Record Work : Type := mkWork {
  wCat : string;
  wSubcat : string;
  wKey : string;
  wValue : string;
  w_is_marketing : Z;
  w_cat_filled : string;
  w_subcat_filled : string;
  wExtra : A
}.

(** Lines 452-474, row by row: the cleaning, the first value of Cat and
    Subcat, the marketing mark, and the forward fill of the two labels
    ([prev_cat] and [prev_subcat] are the last non-empty Cat and Subcat
    above), with the filled Subcat of a marketing row forced empty. *)
Fixpoint fill_labels (prev_cat prev_subcat : option string)
         (df : list (Cols * A)) : list Work :=
  match df with
  | [] => []
  | (c, extra) :: rest =>
      let cat := get_first_value (clean_text (cCat c)) in
      let subcat := get_first_value (clean_text (cSubcat c)) in
      let key := clean_text (cKey c) in
      let value := clean_text (cValue c) in
      let is_marketing := if (key =? "")%string then 1 else 0 in
      let prev_cat := if (cat =? "")%string then prev_cat else Some cat in
      let prev_subcat :=
        if (subcat =? "")%string then prev_subcat else Some subcat in
      let cat_filled := match prev_cat with Some s => s | None => "" end in
      let subcat_filled :=
        if is_marketing =? 1 then ""
        else match prev_subcat with Some s => s | None => "" end in
      mkWork cat subcat key value is_marketing cat_filled subcat_filled
             (clean_extra extra)
      :: fill_labels prev_cat prev_subcat rest
  end.

(** Lines 477-479. *)
Definition sort_key (w : Work) : SortKey :=
  mkSortKey
    (if PyStr.truthy (w_cat_filled w) then get_cat_order (w_cat_filled w) else 999)
    (w_is_marketing w)
    (PyStr.lower (w_subcat_filled w))
    (PyStr.lower (wKey w)).

(** The stable sort of line 481: a row goes before the first row that is
    not smaller, so rows with equal sort columns keep their order. *)
Fixpoint insert_row (w : Work) (sorted : list Work) : list Work :=
  match sorted with
  | [] => [w]
  | x :: rest =>
      if sort_key_le (sort_key w) (sort_key x) then w :: sorted
      else x :: insert_row w rest
  end.

Definition sort_rows (rows : list Work) : list Work :=
  fold_right insert_row [] rows.

(** Lines 484-503: down the sorted table, a row that repeats the filled
    labels of the row above shows none, any other row shows its filled
    Cat and, unless it is a marketing row, its filled Subcat; the filled
    labels go to the two hidden columns. *)
Fixpoint collapse_labels (prev : option (string * string)) (rows : list Work)
  : list (Row * A) :=
  match rows with
  | [] => []
  | w :: rest =>
      let curr_cat := w_cat_filled w in
      let curr_subcat := w_subcat_filled w in
      let same :=
        match prev with
        | Some (prev_cat, prev_subcat) =>
            (curr_cat =? prev_cat)%string && (curr_subcat =? prev_subcat)%string
        | None => false
        end in
      if same then
        (mkRow "" "" (wKey w) (wValue w) curr_cat curr_subcat, wExtra w)
        :: collapse_labels prev rest
      else
        (mkRow curr_cat (if w_is_marketing w =? 1 then "" else curr_subcat)
               (wKey w) (wValue w) curr_cat curr_subcat, wExtra w)
        :: collapse_labels (Some (curr_cat, curr_subcat)) rest
  end.

(** [sort_by_category(df_raw)] *)
Definition sort_by_category_with (df_raw : list (Cols * A)) : list (Row * A) :=
  collapse_labels None (sort_rows (fill_labels None None df_raw)).

End SortByCategory.

(** The first sort of a table, which has the four columns only. *)
Definition sort_by_category (df_raw : list Cols) : DataFrame :=
  map fst (sort_by_category_with (fun u : unit => u)
                                 (map (fun c => (c, tt)) df_raw)).

(** The sort columns as they can be read off a sorted row. *)
Definition row_sort_key (r : Row) : SortKey :=
  mkSortKey
    (if PyStr.truthy (_cat_for_match r) then get_cat_order (_cat_for_match r) else 999)
    (if (Key r =? "")%string then 1 else 0)
    (PyStr.lower (_subcat_for_match r))
    (PyStr.lower (Key r)).

(** [col.replace('', pd.NA).ffill().fillna('')] on a column of texts. *)
Fixpoint ffill_texts (prev : option string) (col : list string) : list string :=
  match col with
  | [] => []
  | x :: rest =>
      let prev := if (x =? "")%string then prev else Some x in
      match prev with Some s => s | None => "" end :: ffill_texts prev rest
  end.

(** What the sort may not lose of a row: key, value and filled labels. *)
Definition row_facts (r : Row) : string * string * string * string :=
  (Key r, Value r, _cat_for_match r, _subcat_for_match r).

Definition work_facts {A : Type} (w : Work (A := A))
  : string * string * string * string :=
  (wKey w, wValue w, w_cat_filled w, w_subcat_filled w).

(* ================================================================== *)
(** ** add_missing_items (dashboard.py, lines 577-787) *)
(* ================================================================== *)

(** One entry of [vlm_items_list]. *)
Record VlmItem : Type := mkVlmItem {
  item_cat : string;
  item_cat_orig : string;
  item_subcat : string;
  item_subcat_orig : string;
  item_key : string
}.

(** Lines 659-674: the candidate rows with a category or a key. *)
Definition vlm_item_of (r : Row) : VlmItem :=
  let cat_orig := cell (_cat_for_match r) in
  let subcat_orig := cell (_subcat_for_match r) in
  mkVlmItem (normalize_for_compare cat_orig) cat_orig
            (normalize_for_compare subcat_orig) subcat_orig
            (normalize_for_compare (Key r)).

Definition vlm_items_list (vlm_df : DataFrame) : list VlmItem :=
  filter (fun it => PyStr.truthy (item_cat it) || PyStr.truthy (item_key it))
         (map vlm_item_of vlm_df).

(** One dictionary of [missing_rows]: the six columns of a row and the
    two flags. *)
Record MissingRow : Type := mkMissingRow {
  missing_row : Row;
  _is_missing : bool;
  _is_key_only_missing : bool
}.

(** What the search of one ground-truth row leaves in its four
    variables (lines 697-739). *)
Record Search : Type := mkSearch {
  found_match : bool;
  is_key_only_missing : bool;
  matching_vlm_subcats : list VlmItem;
  has_same_cat : bool
}.

Definition search_vlm (items : list VlmItem) (cat_orig subcat_orig key : string)
  : Search :=
  if negb (PyStr.truthy key) then
    (* marketing: the first item of a matching category without a key *)
    let hit :=
      existsb (fun it => match_cat_words cat_orig (item_cat_orig it)
                         && negb (PyStr.truthy (item_key it))) items in
    mkSearch hit false [] hit
  else
    let same_cat :=
      existsb (fun it => match_cat_words cat_orig (item_cat_orig it)) items in
    let matching :=
      filter (fun it => match_cat_words cat_orig (item_cat_orig it)
                        && match_subcat_words subcat_orig (item_subcat_orig it))
             items in
    let found := existsb (fun it => (item_key it =? key)%string) matching in
    let key_only :=
      match matching with
      | [] => false
      | _ :: _ => negb found
      end in
    mkSearch found (if negb same_cat then false else key_only) matching same_cat.

(** The state of the loop over the ground truth: the rows to add and the
    normalised triples already added. *)
Record MissingState : Type := mkMissingState {
  missing_rows : list MissingRow;
  added_items : list (string * string * string)
}.

(** One turn of the loop of lines 680-781. *)
Definition missing_step (items : list VlmItem) (st : MissingState) (row : Row)
  : MissingState :=
  let cat_orig := cell (_cat_for_match row) in
  let subcat_orig := cell (_subcat_for_match row) in
  let key_orig := cell (Key row) in
  let cat := normalize_for_compare cat_orig in
  let subcat := normalize_for_compare subcat_orig in
  let key := normalize_for_compare key_orig in
  if existsb (dedup_key_eqb (cat, subcat, key)) (added_items st) then st
  else
    let is_marketing := negb (PyStr.truthy key) in
    let s := search_vlm items cat_orig subcat_orig key in
    let is_valid_item :=
      PyStr.truthy cat && (is_marketing || PyStr.truthy key) in
    if negb (found_match s) && is_valid_item then
      if negb is_marketing && has_same_cat s
         && (match matching_vlm_subcats s with [] => true | _ :: _ => false end)
         && PyStr.truthy subcat
      then st
      else
        let cat_display :=
          if negb (PyStr.truthy (Cat row))
             || (PyStr.strip (Cat row) =? "")%string
          then cat_orig else Cat row in
        let subcat_display :=
          if negb (PyStr.truthy (Subcat row))
             || (PyStr.strip (Subcat row) =? "")%string
          then subcat_orig else Subcat row in
        let '(subcat_display, subcat_for_match) :=
          match is_key_only_missing s, matching_vlm_subcats s with
          | true, it :: _ => (item_subcat_orig it, item_subcat_orig it)
          | _, _ => (subcat_display, subcat_orig)
          end in
        mkMissingState
          (missing_rows st
           ++ [mkMissingRow
                 (mkRow cat_display subcat_display (Key row) ""
                        cat_orig subcat_for_match)
                 true (is_key_only_missing s)])
          (added_items st ++ [(cat, subcat, key)])
    else st.

(** The rows [add_missing_items] decides to add. *)
Definition find_missing (vlm_df fnf_df : DataFrame) : MissingState :=
  fold_left (missing_step (vlm_items_list vlm_df)) fnf_df
            (mkMissingState [] []).

(** A cell of the two flag columns: no value (NaN) in the rows of the
    candidate, a Python boolean in the added rows, a text once
    [clean_none_values] has gone over the column. *)
Inductive Flag : Type :=
| FlagNaN
| FlagBool (b : bool)
| FlagText (s : string).

(** [fillna('').astype(str)], the replacement and [str.lower()] on a flag. *)
Definition clean_flag (f : Flag) : Flag :=
  match f with
  | FlagNaN => FlagText (clean_text "")
  | FlagBool true => FlagText (clean_text "True")
  | FlagBool false => FlagText (clean_text "False")
  | FlagText s => FlagText (clean_text s)
  end.

Definition clean_flags (fs : Flag * Flag) : Flag * Flag :=
  (clean_flag (fst fs), clean_flag (snd fs)).

(** The four shown columns of a row, which the second sort starts from. *)
Definition cols_of (r : Row) : Cols :=
  mkCols (Cat r) (Subcat r) (Key r) (Value r).

(** What [add_missing_items] returns: the table it was given, or the
    table with the added rows and the two flag columns, sorted again. *)
Inductive Completed : Type :=
| Unchanged (vlm_df : DataFrame)
| WithMissing (rows : list (Row * (Flag * Flag))).

Definition add_missing_items (vlm_df fnf_df : DataFrame) : Completed :=
  match missing_rows (find_missing vlm_df fnf_df) with
  | [] => Unchanged vlm_df
  | missing =>
      WithMissing
        (sort_by_category_with clean_flags
           (map (fun r => (cols_of r, (FlagNaN, FlagNaN))) vlm_df
            ++ map (fun m => (cols_of (missing_row m),
                              (FlagBool (_is_missing m),
                               FlagBool (_is_key_only_missing m))))
                   missing)%list)
  end.

(** The six columns [calculate_accuracy] reads of the completed table. *)
Definition completed_rows (c : Completed) : DataFrame :=
  match c with
  | Unchanged vlm_df => vlm_df
  | WithMissing rows => map fst rows
  end.

(** A ground-truth row that the candidate holds, as [add_missing_items]
    judges it: a candidate row of a word-matching category, and either
    no key on both sides, or a word-matching subcategory and the same
    normalised key. *)
Definition held_by (vlm_df : DataFrame) (g : Row) : Prop :=
  exists v,
    In v vlm_df
    /\ match_cat_words (cell (_cat_for_match g)) (cell (_cat_for_match v)) = true
    /\ if PyStr.truthy (normalize_for_compare (cell (Key g)))
       then match_subcat_words (cell (_subcat_for_match g))
                               (cell (_subcat_for_match v)) = true
            /\ normalize_for_compare (Key v) = normalize_for_compare (cell (Key g))
       else normalize_for_compare (Key v) = "".

(** The characters of a text. *)
Definition chars (s : string) : list ascii := list_ascii_of_string s.

(** The normalised (Cat, Subcat, Key) of a ground-truth row, as
    [added_items] holds it. *)
Definition triple_of (g : Row) : string * string * string :=
  (normalize_for_compare (cell (_cat_for_match g)),
   normalize_for_compare (cell (_subcat_for_match g)),
   normalize_for_compare (cell (Key g))).

(** A ground-truth row that [add_missing_items] passes over although the
    candidate does not hold it: a row without a category, or a product
    row with a subcategory whose category the candidate has, but under
    subcategories that do not match. *)
Definition skipped_by (vlm_df : DataFrame) (g : Row) : Prop :=
  normalize_for_compare (cell (_cat_for_match g)) = ""
  \/ (normalize_for_compare (cell (Key g)) <> ""
      /\ normalize_for_compare (cell (_subcat_for_match g)) <> ""
      /\ (exists v,
             In v vlm_df
             /\ match_cat_words (cell (_cat_for_match g))
                                (cell (_cat_for_match v)) = true)
      /\ (forall v,
             In v vlm_df ->
             match_cat_words (cell (_cat_for_match g))
                             (cell (_cat_for_match v)) = true ->
             match_subcat_words (cell (_subcat_for_match g))
                                (cell (_subcat_for_match v)) = false)).

(** What a row [m] added for the ground-truth row [g] looks like: no
    value, the key and the matched category of [g], and the matched
    subcategory of [g] unless only the key is missing, in which case
    the row goes under the subcategory of a candidate row of matching
    category and subcategory. *)
Definition added_for (vlm_df : DataFrame) (g : Row) (m : MissingRow) : Prop :=
  Value (missing_row m) = ""
  /\ _is_missing m = true
  /\ Key (missing_row m) = Key g
  /\ _cat_for_match (missing_row m) = cell (_cat_for_match g)
  /\ if _is_key_only_missing m
     then exists v,
         In v vlm_df
         /\ match_cat_words (cell (_cat_for_match g))
                            (cell (_cat_for_match v)) = true
         /\ match_subcat_words (cell (_subcat_for_match g))
                               (cell (_subcat_for_match v)) = true
         /\ Subcat (missing_row m) = cell (_subcat_for_match v)
         /\ _subcat_for_match (missing_row m) = cell (_subcat_for_match v)
     else _subcat_for_match (missing_row m) = cell (_subcat_for_match g).

(** The search of one ground-truth row. *)
Definition search_of (items : list VlmItem) (g : Row) : Search :=
  search_vlm items (cell (_cat_for_match g)) (cell (_subcat_for_match g))
             (normalize_for_compare (cell (Key g))).

(** Whether the loop adds a row for [g], the triple of [g] being new. *)
Definition is_missing_entry (items : list VlmItem) (g : Row) : bool :=
  negb (found_match (search_of items g))
  && PyStr.truthy (normalize_for_compare (cell (_cat_for_match g)))
  && negb (PyStr.truthy (normalize_for_compare (cell (Key g)))
           && has_same_cat (search_of items g)
           && (match matching_vlm_subcats (search_of items g) with
               | [] => true
               | _ :: _ => false
               end)
           && PyStr.truthy (normalize_for_compare (cell (_subcat_for_match g)))).

(** What the second sort has to keep of a row: key, value and flags. *)
Definition flagged_facts (x : Row * (Flag * Flag)) : string * string * (Flag * Flag) :=
  (Key (fst x), Value (fst x), snd x).

Definition py_bool_text (b : bool) : string := if b then "true" else "false".

(** Concrete tables for [add_missing_items]. *)
Definition held_C : DataFrame :=
  [row "gender" "" "" "female";
   row "outer" "t-shirts" "color" "red"].

Definition held_G : DataFrame :=
  [row "gender" "" "" "female";
   row "outer" "t shirt" "color" "red";
   row "outer" "coat" "color" "blue"].

Definition lacking_G : DataFrame :=
  [row "gender" "" "" "female";
   row "outer" "t shirt" "fit" "slim";
   row "mood" "" "" "calm"].

(* ================================================================== *)
(** * Properties *)
(* ================================================================== *)

(** ** The string primitives and the matchers on small inputs *)

(** The code points below 256 that [str.isspace] accepts and those that
    [str.lower] changes. *)
Example isspace_and_lower_tables :
  filter (fun n => PyStr.isspace (ascii_of_N n)) (map N.of_nat (seq 0 256))
  = [9; 10; 11; 12; 13; 28; 29; 30; 31; 32; 133; 160]%N
  /\ filter (fun n => negb (N_of_ascii (PyStr.lower_char (ascii_of_N n)) =? n)%N)
            (map N.of_nat (seq 0 256))
     = (map N.of_nat (seq 65 26 ++ seq 192 23 ++ seq 216 7))%list
  /\ PyStr.lower "Outer WEAR" = "outer wear".
Proof. repeat split; vm_compute; reflexivity. Qed.

Example split_example :
  PyStr.split "  sky   blue " = ["sky"; "blue"]
  /\ PyStr.split_on "," "a,,b" = ["a"; ""; "b"]
  /\ PyStr.strip "  T-Shirt  " = "T-Shirt"
  /\ PyStr.rstrip_char "s" "dress" = "dre"
  /\ normalize_text " T_Shirt " = "tshirt".
Proof. repeat split; reflexivity. Qed.

Example word_level_match_example :
  word_level_match "sky blue" "skyblue" = true
  /\ word_level_match "Sky Blue, red" "blue" = true
  /\ word_level_match "" "" = false
  /\ fuzzy_match_subcat "jeans" "pants" = false.
Proof. repeat split; vm_compute; reflexivity. Qed.

Example separator_tolerance :
  normalize_text "t-shirt" = normalize_text "t shirt"
  /\ normalize_text "t shirt" = normalize_text "T_Shirt".
Proof. split; reflexivity. Qed.

(** ** The reconciler on the scenarios of the specification *)

(** Scenario B: a marketing entry the candidate repeats. *)
Example scenario_b_full_marks :
  exists r,
    reconcile [row "fashion style" "" "" "casual"]
              [row "fashion style" "" "" "casual"] = Ok r
    /\ marketing_match r = 1 /\ marketing_total r = 1
    /\ (marketing_acc r == 100)%Q.
Proof. eexists. split; [vm_compute; reflexivity|]. repeat split. Qed.

(** Scenario C: the value is found through the pair, the subcategory is
    counted as an error, and the product accuracy is 60. *)
Example scenario_c_scores_sixty :
  exists r,
    reconcile scenario_c_G scenario_c_C = Ok r
    /\ product_match r = 1 /\ product_total r = 1 /\ subcat_errors r = 1
    /\ (product_acc r == 60)%Q.
Proof. eexists. split; [vm_compute; reflexivity|]. repeat split. Qed.

(** Scenario D: a candidate row the ground truth has no entry for is an
    extra and leaves match and total alone. *)
Example scenario_d_counts_extra :
  exists r,
    reconcile scenario_c_G scenario_d_C = Ok r
    /\ product_extra r = 1 /\ product_match r = 1 /\ product_total r = 1.
Proof. eexists. split; [vm_compute; reflexivity|]. repeat split. Qed.

(** ** The counters of the reconciler *)

Lemma tally_ok_init : tally_ok (mkTally 0 0 0 0 0).
Proof. unfold tally_ok; simpl; lia. Qed.

Lemma score_fnf_row_ok vlm_df lookup t fnf_row :
  tally_ok t -> tally_ok (score_fnf_row vlm_df lookup t fnf_row).
Proof.
  unfold tally_ok, score_fnf_row. intros (Hm & Hp & Hs).
  repeat match goal with
         | |- context [if ?b then _ else _] => destruct b
         end; simpl; lia.
Qed.

Lemma fold_score_ok vlm_df lookup fnf_df :
  forall t, tally_ok t ->
            tally_ok (fold_left (score_fnf_row vlm_df lookup) fnf_df t).
Proof.
  induction fnf_df as [|row rest IH]; intros t Ht; simpl.
  - exact Ht.
  - apply IH, score_fnf_row_ok, Ht.
Qed.

(** ** The scoring step *)

Lemma truediv_ok a b : b <> 0 -> truediv a b = Ok (inject_Z a / inject_Z b)%Q.
Proof.
  intros Hb. unfold truediv. destruct (Z.eqb_spec b 0); [contradiction|reflexivity].
Qed.

Lemma percent_bounds a b :
  0 < b -> 0 <= a <= b ->
  (0 <= inject_Z a / inject_Z b * 100 /\ inject_Z a / inject_Z b * 100 <= 100)%Q.
Proof.
  intros Hb [Ha Hab].
  assert (Hb' : (0 < inject_Z b)%Q) by (rewrite (Zlt_Qlt 0 b) in Hb; exact Hb).
  assert (H0 : (0 <= inject_Z a / inject_Z b)%Q).
  { apply Qle_shift_div_l; [exact Hb'|]. rewrite Qmult_0_l.
    rewrite (Zle_Qle 0 a) in Ha. exact Ha. }
  assert (H1 : (inject_Z a / inject_Z b <= 1)%Q).
  { apply Qle_shift_div_r; [exact Hb'|]. rewrite Qmult_1_l.
    rewrite (Zle_Qle a b) in Hab. exact Hab. }
  split; lra.
Qed.

Lemma score_returns t extra ix :
  score t extra ix =
  Ok (mkAccuracy (marketing_acc_of t)
                 (t_marketing_match t) (t_marketing_total t) (fst extra)
                 (product_acc_of t) (value_acc_of t) (subcat_acc_of t)
                 (t_product_match t) (t_product_total t) (snd extra)
                 (t_subcat_errors t)
                 (idx_has_brand ix) (idx_has_product_name ix)).
Proof.
  unfold score, marketing_acc_of, product_acc_of, value_acc_of, subcat_acc_of.
  destruct (Z.ltb_spec 0 (t_marketing_total t)) as [Hm|Hm];
    destruct (Z.ltb_spec 0 (t_product_total t)) as [Hp|Hp];
    repeat (rewrite truediv_ok by lia); simpl; reflexivity.
Qed.

(** [calculate_accuracy] always returns a record, built from the counters
    of its three loops. *)
Lemma calculate_accuracy_returns vlm_df fnf_df fnf_lookup :
  exists t extra ix,
    tally_ok t
    /\ calculate_accuracy vlm_df fnf_df fnf_lookup =
       Ok (mkAccuracy (marketing_acc_of t)
                      (t_marketing_match t) (t_marketing_total t) (fst extra)
                      (product_acc_of t) (value_acc_of t) (subcat_acc_of t)
                      (t_product_match t) (t_product_total t) (snd extra)
                      (t_subcat_errors t)
                      (idx_has_brand ix) (idx_has_product_name ix)).
Proof.
  unfold calculate_accuracy.
  eexists _, _, _. split; [|apply score_returns].
  apply fold_score_ok, tally_ok_init.
Qed.

Lemma fold_score_totals vlm_df lookup fnf_df :
  forall t,
    let t' := fold_left (score_fnf_row vlm_df lookup) fnf_df t in
    t_marketing_total t' + t_product_total t'
    <= t_marketing_total t + t_product_total t + Z.of_nat (length fnf_df).
Proof.
  induction fnf_df as [|fnf_row rest IH]; intros t; cbn zeta.
  - simpl. lia.
  - cbn [fold_left length]. specialize (IH (score_fnf_row vlm_df lookup t fnf_row)).
    cbn zeta in IH.
    assert (Hstep :
      t_marketing_total (score_fnf_row vlm_df lookup t fnf_row)
      + t_product_total (score_fnf_row vlm_df lookup t fnf_row)
      <= t_marketing_total t + t_product_total t + 1).
    { unfold score_fnf_row.
      repeat match goal with
             | |- context [if ?b then _ else _] => destruct b
             end; simpl; lia. }
    lia.
Qed.

Lemma acc_of_bounds t :
  tally_ok t ->
  (0 <= marketing_acc_of t <= 100 /\ 0 <= value_acc_of t <= 100
   /\ 0 <= subcat_acc_of t <= 100 /\ 0 <= product_acc_of t <= 100)%Q.
Proof.
  intros (Hm & Hp & Hs).
  assert (Bm : (0 <= marketing_acc_of t <= 100)%Q).
  { unfold marketing_acc_of.
    destruct (Z.ltb_spec 0 (t_marketing_total t)); [|split; lra].
    apply percent_bounds; lia. }
  assert (Bv : (0 <= value_acc_of t <= 100)%Q).
  { unfold value_acc_of.
    destruct (Z.ltb_spec 0 (t_product_total t)); [|split; lra].
    apply percent_bounds; lia. }
  assert (Bs : (0 <= subcat_acc_of t <= 100)%Q).
  { unfold subcat_acc_of.
    destruct (Z.ltb_spec 0 (t_product_total t)); [|split; lra].
    apply percent_bounds; lia. }
  repeat split; try tauto.
  - unfold product_acc_of. destruct (0 <? t_product_total t); lra.
  - unfold product_acc_of. destruct (0 <? t_product_total t); lra.
Qed.

(** ** C10: bounds of the record *)

(** C10.  On every pair of tables (and whatever index of the ground truth
    is passed), [calculate_accuracy] returns a record whose match counters
    and subcategory-error counter never exceed their totals, whose totals
    together never exceed the number of ground-truth rows, and whose four
    accuracies lie between 0 and 100. *)
Theorem calculate_accuracy_bounds (vlm_df fnf_df : DataFrame) (fnf_lookup : Dict.t) :
  exists r,
    calculate_accuracy vlm_df fnf_df fnf_lookup = Ok r
    /\ 0 <= marketing_match r <= marketing_total r
    /\ 0 <= product_match r <= product_total r
    /\ 0 <= subcat_errors r <= product_total r
    /\ marketing_total r + product_total r <= Z.of_nat (length fnf_df)
    /\ (0 <= marketing_acc r <= 100)%Q
    /\ (0 <= value_acc r <= 100)%Q
    /\ (0 <= subcat_acc r <= 100)%Q
    /\ (0 <= product_acc r <= 100)%Q.
Proof.
  unfold calculate_accuracy.
  set (ix := build_vlm_index vlm_df).
  set (t := fold_left (score_fnf_row vlm_df (vlm_lookup ix)) fnf_df
                      (mkTally 0 0 0 0 0)).
  set (extra := fold_left (count_extra fnf_lookup) vlm_df (0, 0)).
  assert (Ht : tally_ok t) by (apply fold_score_ok, tally_ok_init).
  pose proof (fold_score_totals vlm_df (vlm_lookup ix) fnf_df (mkTally 0 0 0 0 0))
    as Hlen.
  cbn zeta in Hlen. fold t in Hlen. simpl in Hlen.
  destruct (acc_of_bounds t Ht) as (Bm & Bv & Bs & Bp).
  destruct Ht as (Hm & Hp & Hs).
  eexists. split; [apply score_returns|]. simpl.
  repeat split; solve [lia | tauto].
Qed.

(** ** C6: empty denominators *)

(** C6.  The scoring step never divides by zero: [calculate_accuracy]
    returns a record on every input, and in that record a marketing total
    of 0 comes with a marketing accuracy of 0, and a product total of 0
    with value, subcategory and product accuracies of 0. *)
Theorem zero_total_scores_zero (vlm_df fnf_df : DataFrame) (fnf_lookup : Dict.t) :
  exists r,
    calculate_accuracy vlm_df fnf_df fnf_lookup = Ok r
    /\ (marketing_total r = 0 -> marketing_acc r = 0%Q)
    /\ (product_total r = 0 ->
        value_acc r = 0%Q /\ subcat_acc r = 0%Q /\ product_acc r = 0%Q).
Proof.
  destruct (calculate_accuracy_returns vlm_df fnf_df fnf_lookup)
    as (t & extra & ix & _ & ->).
  eexists. split; [reflexivity|]. simpl. split.
  - intros H. unfold marketing_acc_of. rewrite H. reflexivity.
  - intros H. unfold value_acc_of, subcat_acc_of, product_acc_of.
    rewrite H. simpl. repeat split.
Qed.

(** The theorem at work on two empty tables, where both totals are 0. *)
Lemma zero_total_scores_zero_witness :
  exists r,
    calculate_accuracy [] [] Dict.empty = Ok r
    /\ marketing_acc r = 0%Q
    /\ value_acc r = 0%Q /\ subcat_acc r = 0%Q /\ product_acc r = 0%Q.
Proof.
  destruct (zero_total_scores_zero [] [] Dict.empty) as (r & Hr & Hm & Hp).
  exists r. split; [exact Hr|].
  assert (E : r = mkAccuracy 0 0 0 0 0 0 0 0 0 0 0 false false).
  { vm_compute in Hr. injection Hr as <-. reflexivity. }
  split.
  - apply Hm. rewrite E. reflexivity.
  - apply Hp. rewrite E. reflexivity.
Defined.

(** ** C1: scenario A *)

(** C1, as stated, fails: with one product entry in the ground truth and
    no candidate row the product accuracy is not 0. *)
Lemma scenario_a_product_acc_not_zero :
  ~ (exists r,
       calculate_accuracy scenario_a_C scenario_a_G (build_fnf_lookup scenario_a_G)
       = Ok r
       /\ product_total r = 1 /\ product_match r = 0
       /\ (product_acc r == 0)%Q).
Proof.
  intros (r & Hr & _ & _ & Hacc).
  vm_compute in Hr. injection Hr as <-.
  vm_compute in Hacc. discriminate Hacc.
Qed.

(** C1, amended.  In scenario A [calculate_accuracy] returns a record with
    product total 1 and product match 0; no subcategory error is counted
    for an entry the candidate lacks, so the value accuracy is 0, the
    subcategory accuracy 100 and the product accuracy 0.6 * 0 + 0.4 * 100,
    that is 40.  The record is the same when the candidate table holds the
    missing entry as a row with an empty value. *)
Theorem scenario_a_scores_forty :
  exists r,
    calculate_accuracy scenario_a_C scenario_a_G (build_fnf_lookup scenario_a_G)
    = Ok r
    /\ calculate_accuracy scenario_a_C_completed scenario_a_G
                          (build_fnf_lookup scenario_a_G)
       = Ok r
    /\ product_total r = 1 /\ product_match r = 0 /\ subcat_errors r = 0
    /\ (value_acc r == 0)%Q /\ (subcat_acc r == 100)%Q
    /\ (product_acc r == 40)%Q.
Proof.
  eexists. split; [vm_compute; reflexivity|].
  split; [vm_compute; reflexivity|].
  repeat split.
Qed.

(** ** C9: determinism *)

(** C9.  Two calls of [calculate_accuracy] on the same tables and the same
    index both return, and they return the same record: equal in every
    count, every accuracy and both bonus flags. *)
Theorem calculate_accuracy_deterministic
        (vlm_df fnf_df : DataFrame) (fnf_lookup : Dict.t)
        (first second : result AccuracyRecord) :
  calculate_accuracy vlm_df fnf_df fnf_lookup = first ->
  calculate_accuracy vlm_df fnf_df fnf_lookup = second ->
  exists r, first = Ok r /\ second = Ok r.
Proof.
  intros <- <-.
  destruct (calculate_accuracy_returns vlm_df fnf_df fnf_lookup)
    as (t & extra & ix & _ & ->).
  eexists. split; reflexivity.
Qed.

Lemma calculate_accuracy_deterministic_witness :
  exists r,
    reconcile scenario_c_G scenario_c_C = Ok r
    /\ reconcile scenario_c_G scenario_c_C = Ok r.
Proof.
  exact (calculate_accuracy_deterministic
           scenario_c_C scenario_c_G (build_fnf_lookup scenario_c_G)
           _ _ eq_refl eq_refl).
Defined.

(** ** C7: duplicated candidate rows *)

Lemma dedup_key_eqb_refl k : dedup_key_eqb k k = true.
Proof.
  destruct k as [[c s] k]. unfold dedup_key_eqb.
  rewrite !String.eqb_refl. reflexivity.
Qed.

Lemma remove_duplicates_unfold vlm_df :
  remove_duplicates vlm_df = drop_duplicates [] vlm_df.
Proof. destruct vlm_df; reflexivity. Qed.

(** Rows whose keys have all been seen leave nothing. *)
Lemma drop_duplicates_covered rows :
  forall seen,
    (forall r, In r rows -> existsb (dedup_key_eqb (dedup_key r)) seen = true) ->
    drop_duplicates seen rows = [].
Proof.
  induction rows as [|r rest IH]; intros seen Hcov; simpl.
  - reflexivity.
  - rewrite (Hcov r (or_introl eq_refl)).
    apply IH. intros r' Hr'. apply Hcov. right. exact Hr'.
Qed.

(** Appending rows that repeat seen keys or earlier rows changes nothing. *)
Lemma drop_duplicates_app_covered rows1 :
  forall seen rows2,
    (forall r, In r rows2 ->
               existsb (dedup_key_eqb (dedup_key r)) seen = true \/ In r rows1) ->
    drop_duplicates seen (rows1 ++ rows2)%list = drop_duplicates seen rows1.
Proof.
  induction rows1 as [|a rest IH]; intros seen rows2 Hcov; simpl.
  - apply drop_duplicates_covered. intros r Hr.
    destruct (Hcov r Hr) as [H|[]]. exact H.
  - destruct (existsb (dedup_key_eqb (dedup_key a)) seen) eqn:Ha.
    + apply IH. intros r Hr. destruct (Hcov r Hr) as [H|[<-|H]]; auto.
    + f_equal. apply IH. intros r Hr. cbn [existsb].
      destruct (Hcov r Hr) as [H|[<-|H]].
      * left. rewrite H. apply orb_true_r.
      * left. rewrite dedup_key_eqb_refl. reflexivity.
      * right. exact H.
Qed.

Lemma drop_duplicates_twice rows :
  forall seen,
    drop_duplicates seen (every_row_twice rows) = drop_duplicates seen rows.
Proof.
  induction rows as [|a rest IH]; intros seen.
  - reflexivity.
  - change (every_row_twice (a :: rest)) with (a :: a :: every_row_twice rest).
    cbn [drop_duplicates].
    destruct (existsb (dedup_key_eqb (dedup_key a)) seen) eqn:Ha.
    + apply IH.
    + cbn [existsb]. rewrite dedup_key_eqb_refl. cbn [orb].
      f_equal. apply IH.
Qed.

Lemma remove_duplicates_twice C :
  remove_duplicates (every_row_twice C) = remove_duplicates C.
Proof. rewrite !remove_duplicates_unfold. apply drop_duplicates_twice. Qed.

Lemma remove_duplicates_app_self C :
  remove_duplicates (C ++ C)%list = remove_duplicates C.
Proof.
  rewrite !remove_duplicates_unfold.
  apply drop_duplicates_app_covered. intros r Hr. right. exact Hr.
Qed.

(** C7.  For every ground truth [G] and candidate [C], the pipeline that
    de-duplicates and then reconciles returns a record, and it returns
    that same record for [C] with every row written twice, whether each
    copy follows its original or the whole table is repeated after
    itself: no count and no accuracy changes. *)
Theorem dedup_then_reconcile_duplicated
        (add_missing_items : DataFrame -> DataFrame -> DataFrame)
        (G C : DataFrame) :
  exists r,
    dedup_then_reconcile add_missing_items G C = Ok r
    /\ dedup_then_reconcile add_missing_items G (every_row_twice C) = Ok r
    /\ dedup_then_reconcile add_missing_items G (C ++ C)%list = Ok r.
Proof.
  unfold dedup_then_reconcile.
  rewrite remove_duplicates_twice, remove_duplicates_app_self.
  unfold reconcile.
  destruct (calculate_accuracy_returns
              (add_missing_items (remove_duplicates C) G) G (build_fnf_lookup G))
    as (t & extra & ix & _ & ->).
  eexists. repeat split.
Qed.

(** Without the de-duplication the copies would count: the extra row of
    scenario D is counted once, its two copies twice. *)
Example duplicates_count_without_dedup :
  (exists r, reconcile scenario_c_G scenario_d_C = Ok r /\ product_extra r = 1)
  /\ (exists r, reconcile scenario_c_G (every_row_twice scenario_d_C) = Ok r
                /\ product_extra r = 2)
  /\ (exists r, dedup_then_reconcile (fun vlm_df _ => vlm_df) scenario_c_G
                                     (every_row_twice scenario_d_C)
                = Ok r /\ product_extra r = 1).
Proof.
  repeat split; eexists; (split; [vm_compute; reflexivity|reflexivity]).
Qed.

(** ** C2: the order of the lookups *)

Lemma truthy_true_iff s : PyStr.truthy s = true <-> s <> "".
Proof.
  unfold PyStr.truthy. destruct (String.eqb_spec s ""); simpl; split; congruence.
Qed.

Lemma truthy_false_iff s : PyStr.truthy s = false <-> s = "".
Proof.
  unfold PyStr.truthy. destruct (String.eqb_spec s ""); simpl; split; congruence.
Qed.

Lemma find_first_hit {A : Type} (test : A -> bool) (before after : list A) (x : A) :
  (forall y, In y before -> test y = false) ->
  test x = true ->
  find test (before ++ x :: after)%list = Some x.
Proof.
  induction before as [|b rest IH]; intros Hbefore Hx; simpl.
  - rewrite Hx. reflexivity.
  - rewrite (Hbefore b (or_introl eq_refl)).
    apply IH; [|exact Hx]. intros y Hy. apply Hbefore. right. exact Hy.
Qed.

Lemma find_no_hit {A : Type} (test : A -> bool) (l : list A) :
  (forall y, In y l -> test y = false) -> find test l = None.
Proof.
  induction l as [|b rest IH]; intros Hl; simpl.
  - reflexivity.
  - rewrite (Hl b (or_introl eq_refl)). apply IH.
    intros y Hy. apply Hl. right. exact Hy.
Qed.




(** ** C4: one key under two subcategories *)

Lemma key_eqb_refl k : key_eqb k k = true.
Proof. destruct k; simpl; rewrite !String.eqb_refl; reflexivity. Qed.

Lemma dict_get_set_same d k v : Dict.get (Dict.set d k v) k = Some v.
Proof.
  induction d as [|[k' v'] d IH]; simpl.
  - rewrite key_eqb_refl. reflexivity.
  - destruct (key_eqb k' k) eqn:E; simpl; rewrite E; [reflexivity|exact IH].
Qed.

(** In the candidate index every row overwrites the pair of its category
    and key: after the loop the pair of the last row holds the value of
    the last row, whatever the earlier rows stored. *)
Lemma vlm_lookup_last_row_wins (vlm_df : DataFrame) (r : Row) :
  Dict.get (vlm_lookup (build_vlm_index (vlm_df ++ [r])%list))
           (Key2 (cell (_cat_for_match r)) (cell (Key r)))
  = Some (cell (Value r)).
Proof.
  unfold build_vlm_index. rewrite fold_left_app. simpl.
  apply dict_get_set_same.
Qed.

(** C4 at the failing input.  With [color] under the subcategories [coat]
    and [jacket] of [outer], in that order, the pair [(outer, color)] of
    the candidate index holds "black", the value of the last row, while
    the index of the ground truth built from the same rows keeps "red",
    the value of the first; the ground-truth entry asking for "red" is
    therefore scored as a miss.  A record is returned all the same. *)
Theorem pair_lookup_keeps_last_row :
  Dict.get (vlm_lookup (build_vlm_index two_subcats_C)) (Key2 "outer" "color")
  = Some "black"
  /\ Dict.get (build_fnf_lookup two_subcats_C) (Key2 "outer" "color")
     = Some "red"
  /\ find_value (vlm_lookup (build_vlm_index two_subcats_C))
                "outer" "parka" "color" = "black"
  /\ exists r, reconcile two_subcats_G two_subcats_C = Ok r
               /\ product_total r = 1 /\ product_match r = 0.
Proof.
  repeat split; try (vm_compute; reflexivity).
  eexists. split; [vm_compute; reflexivity|]. split; reflexivity.
Qed.

(** ** C5: what [word_level_match] compares *)

Lemma in_add_if_truthy t x (ws : set string) :
  In t (add_if_truthy x ws) <-> (t = x /\ t <> "") \/ In t ws.
Proof.
  unfold add_if_truthy. destruct (PyStr.truthy x) eqn:E.
  - rewrite set_add_iff. apply truthy_true_iff in E.
    split; intros [H|H]; auto.
    + left. split; congruence.
    + left. tauto.
  - apply truthy_false_iff in E. split; [auto|].
    intros [[-> H]|H]; [contradiction|exact H].
Qed.

(** The tokens a loop of guarded [add] calls leaves in the set. *)
Lemma in_fold_add (f : string -> string) t (l : list string) :
  forall ws : set string,
    In t (fold_left (fun ws word => add_if_truthy (f word) ws) l ws)
    <-> In t ws \/ (t <> "" /\ exists word, In word l /\ t = f word).
Proof.
  induction l as [|w rest IH]; intros ws; simpl.
  - split; [auto|]. intros [H|(_ & w & [] & _)]. exact H.
  - rewrite IH, in_add_if_truthy. split.
    + intros [[[-> Ht]|H]|(Ht & w' & Hw' & ->)]; auto.
      * right. split; [exact Ht|]. exists w. auto.
      * right. split; [exact Ht|]. exists w'. auto.
    + intros [H|(Ht & w' & [<-|Hw'] & ->)]; auto.
      right. split; [exact Ht|]. exists w'. auto.
Qed.

Lemma in_word_level_fold t (l : list string) :
  forall ws : set string,
    In t (fold_left
            (fun words v =>
               let words :=
                 fold_left (fun ws word => add_if_truthy (normalize_word word) ws)
                           (PyStr.split v) words in
               add_if_truthy (normalize_word v) words) l ws)
    <-> In t ws
        \/ (t <> ""
            /\ exists v, In v l
                         /\ (t = normalize_word v
                             \/ exists word, In word (PyStr.split v)
                                             /\ t = normalize_word word)).
Proof.
  induction l as [|v rest IH]; intros ws; simpl.
  - split; [auto|]. intros [H|(_ & v & [] & _)]. exact H.
  - rewrite IH, in_add_if_truthy, in_fold_add. split.
    + intros [[[-> Ht]|[H|(Ht & w & Hw & ->)]]|(Ht & v' & Hv' & Hor)]; auto.
      * right. split; [exact Ht|]. exists v. auto.
      * right. split; [exact Ht|]. exists v. split; [auto|]. right. exists w. auto.
      * right. split; [exact Ht|]. exists v'. auto.
    + intros [H|(Ht & v' & [<-|Hv'] & Hor)]; auto.
      * left. destruct Hor as [->|(w & Hw & ->)]; auto.
        right. right. split; [exact Ht|]. exists w. auto.
      * right. split; [exact Ht|]. exists v'. auto.
Qed.

Lemma in_word_level_tokens val t :
  In t (word_level_tokens val) <-> is_token val t.
Proof.
  unfold word_level_tokens, is_token. rewrite in_word_level_fold.
  split; [intros [[]|H]; exact H | intros H; right; exact H].
Qed.

Lemma no_token_of_empty t : ~ is_token "" t.
Proof.
  intros (Ht & v & Hv & Hor). simpl in Hv. destruct Hv as [<-|[]].
  destruct Hor as [->|(w & [] & _)]. apply Ht. reflexivity.
Qed.

(** C5, as stated, fails: the tokens of the specification, with the
    trailing 's' stripped, make "shoes" and "shoe" overlap, while
    [word_level_match] keeps the 's' and finds no common token. *)
Lemma word_level_match_keeps_plural :
  spec_word_overlap "shoes" "shoe" = true
  /\ word_level_match "shoes" "shoe" = false.
Proof. split; vm_compute; reflexivity. Qed.

(** C5, amended.  [word_level_match a b] is true exactly when [a] and [b]
    share a token, the tokens of a text being, for each of its
    comma-separated phrases, the normalised phrase and each of its
    normalised words, with no singularisation;
    [word_level_match "shoes" "shoe"] is false, whereas
    [fuzzy_match_subcat], which strips the trailing 's' of each word,
    holds of "shoes" and "shoe". *)
Theorem word_level_match_iff_common_token :
  (forall a b : string,
      word_level_match a b = true
      <-> exists t, is_token a t /\ is_token b t)
  /\ word_level_match "shoes" "shoe" = false
  /\ fuzzy_match_subcat "shoes" "shoe" = true.
Proof.
  split; [|split; vm_compute; reflexivity].
  intros a b. unfold word_level_match. split.
  - destruct (negb (PyStr.truthy a) || negb (PyStr.truthy b)); [discriminate|].
    intros H.
    destruct (set_inter string_dec (word_level_tokens a) (word_level_tokens b))
      as [|t rest] eqn:E; [discriminate H|].
    exists t.
    assert (Hin : In t (set_inter string_dec (word_level_tokens a)
                                  (word_level_tokens b)))
      by (rewrite E; left; reflexivity).
    apply set_inter_elim in Hin. destruct Hin as [Ha Hb].
    split; apply in_word_level_tokens; assumption.
  - intros (t & Ha & Hb).
    assert (Ea : PyStr.truthy a = true).
    { apply truthy_true_iff. intros ->. exact (no_token_of_empty t Ha). }
    assert (Eb : PyStr.truthy b = true).
    { apply truthy_true_iff. intros ->. exact (no_token_of_empty t Hb). }
    rewrite Ea, Eb. cbn [negb orb].
    assert (Hin : In t (set_inter string_dec (word_level_tokens a)
                                  (word_level_tokens b))).
    { apply set_inter_intro; apply in_word_level_tokens; assumption. }
    destruct (set_inter string_dec (word_level_tokens a) (word_level_tokens b));
      [destruct Hin|reflexivity].
Qed.

(** ** C3: which load failures stop the comparison *)


Lemma load_sheet_error (not_found : string) (file : FileState) :
  PyStr.truthy not_found = true ->
  error_set (snd (load_sheet not_found file)) = load_fails file.
Proof.
  intros Hnf. destruct file as [|message|wb]; simpl.
  - exact Hnf.
  - reflexivity.
  - destruct (has_required_cols wb); reflexivity.
Qed.

Lemma load_sheet_loads (not_found : string) (file : FileState) :
  loads file = true ->
  exists df, load_sheet not_found file = (Some df, None).
Proof.
  destruct file as [|message|wb]; simpl; try discriminate.
  intros ->. simpl. eexists. reflexivity.
Qed.

Lemma cache_data_miss {A : Type} (ttl : option Q)
      (slot : Caches -> option (Entry A)) (store : Entry A -> Caches -> Caches)
      (func : Caches -> A * Caches) (now : Q) (caches : Caches) :
  slot caches = None ->
  cache_data ttl slot store func now caches
  = (fst (func caches),
     store (mkEntry (fst (func caches)) now) (snd (func caches))).
Proof.
  intros H. unfold cache_data. rewrite H.
  destruct (func caches) as [value caches']. reflexivity.
Qed.

Section CachedLoad.

Variables FNF_FILE ODDCONCEPT_FILE : string.

(** The entry of [load_data] has no ttl: once stored it is served. *)
Lemma load_data_hit now fnf result_files odd m1 m2 caches e :
  load_data_cache caches = Some e ->
  load_data FNF_FILE ODDCONCEPT_FILE now fnf result_files odd m1 m2 caches
  = (entry_value e, caches).
Proof.
  intros H. unfold load_data, cache_data. rewrite H. reflexivity.
Qed.

(** After a call of [load_data] its cache holds what the call returned. *)
Lemma load_data_stored now fnf result_files odd m1 m2 caches :
  exists e,
    load_data_cache
      (snd (load_data FNF_FILE ODDCONCEPT_FILE now fnf result_files odd m1 m2
                      caches)) = Some e
    /\ entry_value e
       = fst (load_data FNF_FILE ODDCONCEPT_FILE now fnf result_files odd m1 m2
                        caches).
Proof.
  destruct (load_data_cache caches) as [e|] eqn:H.
  - rewrite (load_data_hit _ _ _ _ _ _ _ _ H). exists e. auto.
  - unfold load_data. rewrite (cache_data_miss _ _ _ _ _ _ H).
    cbn [fst snd store_load_data load_data_cache].
    eexists. split; reflexivity.
Qed.

Lemma main_fst env caches :
  fst (main FNF_FILE ODDCONCEPT_FILE env caches)
  = main_report
      (fst (load_data FNF_FILE ODDCONCEPT_FILE (env_clock env) (env_fnf env)
                      (env_result_files env) (env_odd env)
                      (mtime_of (env_fnf env) (env_fnf_st_mtime env))
                      (mtime_of (env_odd env) (env_odd_st_mtime env)) caches)).
Proof.
  unfold main. destruct (load_data _ _ _ _ _ _ _ _ _) as [ld c]. cbn [fst].
  destruct (reaches_button (main_report ld) && env_refresh_clicked env);
    reflexivity.
Qed.

Lemma main_snd env caches :
  snd (main FNF_FILE ODDCONCEPT_FILE env caches)
  = if reaches_button (fst (main FNF_FILE ODDCONCEPT_FILE env caches))
       && env_refresh_clicked env
    then no_caches
    else snd (load_data FNF_FILE ODDCONCEPT_FILE (env_clock env) (env_fnf env)
                        (env_result_files env) (env_odd env)
                        (mtime_of (env_fnf env) (env_fnf_st_mtime env))
                        (mtime_of (env_odd env) (env_odd_st_mtime env)) caches).
Proof.
  unfold main. destruct (load_data _ _ _ _ _ _ _ _ _) as [ld c].
  destruct (reaches_button (main_report ld) && env_refresh_clicked env) eqn:B;
    cbn [fst snd]; rewrite B; reflexivity.
Qed.

(** A run whose caches are not cleared at the button repeats itself:
    the next run shows the same report, whatever it meets. *)
Lemma main_repeats env env' caches :
  load_data_cache (snd (main FNF_FILE ODDCONCEPT_FILE env caches)) <> None ->
  fst (main FNF_FILE ODDCONCEPT_FILE env'
            (snd (main FNF_FILE ODDCONCEPT_FILE env caches)))
  = fst (main FNF_FILE ODDCONCEPT_FILE env caches).
Proof.
  rewrite main_snd.
  destruct (reaches_button _ && env_refresh_clicked env);
    [intros H; exfalso; apply H; reflexivity|].
  intros _. rewrite !main_fst.
  destruct (load_data_stored (env_clock env) (env_fnf env) (env_result_files env)
              (env_odd env) (mtime_of (env_fnf env) (env_fnf_st_mtime env))
              (mtime_of (env_odd env) (env_odd_st_mtime env)) caches)
    as (e & He & Hv).
  rewrite (load_data_hit _ _ _ _ _ _ _ _ He). cbn [fst]. rewrite Hv. reflexivity.
Qed.

Lemma main_keeps_cache env caches :
  reaches_button (fst (main FNF_FILE ODDCONCEPT_FILE env caches))
  && env_refresh_clicked env = false ->
  load_data_cache (snd (main FNF_FILE ODDCONCEPT_FILE env caches)) <> None.
Proof.
  intros H. rewrite main_snd, H.
  destruct (load_data_stored (env_clock env) (env_fnf env) (env_result_files env)
              (env_odd env) (mtime_of (env_fnf env) (env_fnf_st_mtime env))
              (mtime_of (env_odd env) (env_odd_st_mtime env)) caches)
    as (e & He & _).
  rewrite He. discriminate.
Qed.

Lemma caches_after_snoc history env :
  caches_after FNF_FILE ODDCONCEPT_FILE (history ++ [env])
  = snd (main FNF_FILE ODDCONCEPT_FILE env
              (caches_after FNF_FILE ODDCONCEPT_FILE history)).
Proof. unfold caches_after. rewrite fold_left_app. reflexivity. Qed.

(** When the cache of [load_data] is empty, so are the other two. *)
Lemma caches_after_empty history :
  load_data_cache (caches_after FNF_FILE ODDCONCEPT_FILE history) = None ->
  caches_after FNF_FILE ODDCONCEPT_FILE history = no_caches.
Proof.
  destruct history as [|x rest] using rev_ind; [reflexivity|].
  rewrite caches_after_snoc, main_snd.
  destruct (reaches_button _ && env_refresh_clicked x) eqn:B; [reflexivity|].
  intros H. exfalso. revert H.
  destruct (load_data_stored (env_clock x) (env_fnf x) (env_result_files x)
              (env_odd x) (mtime_of (env_fnf x) (env_fnf_st_mtime x))
              (mtime_of (env_odd x) (env_odd_st_mtime x))
              (caches_after FNF_FILE ODDCONCEPT_FILE rest))
    as (e & He & _).
  rewrite He. discriminate.
Qed.

(** A run that loads: the gate of [load_data] and [main]. *)
Lemma loading_run_report env :
  let report := fst (main FNF_FILE ODDCONCEPT_FILE env no_caches) in
  ((exists message, report = LoadFailed message)
   <-> load_fails (env_fnf env) = true \/ load_fails (env_odd env) = true)
  /\ (loads (env_fnf env) = true -> loads (env_odd env) = true ->
      fst (load_gemini_results (env_result_files env)) = None ->
      report = NoGeminiResult).
Proof.
  cbn zeta. rewrite main_fst.
  unfold load_data, load_fnf_data, load_oddconcept_data, cache_data.
  cbn [load_data_cache load_fnf_data_cache load_oddconcept_data_cache no_caches
       store_load_fnf_data store_load_oddconcept_data store_load_data].
  pose proof (load_sheet_error
                ("F&F 정답지 파일을 찾을 수 없습니다: " ++ FNF_FILE) (env_fnf env)
                eq_refl) as Efnf.
  pose proof (load_sheet_error
                ("오드컨셉 결과 파일을 찾을 수 없습니다: " ++ ODDCONCEPT_FILE)
                (env_odd env) eq_refl) as Eodd.
  split.
  - destruct (load_sheet _ (env_fnf env)) as [d e]. cbn [snd] in Efnf.
    rewrite Efnf.
    destruct (load_fails (env_fnf env)).
    + cbn [fst main_report error]. split; [intros _; left; reflexivity|].
      intros _. eexists. reflexivity.
    + destruct (load_gemini_results (env_result_files env)) as [g gname].
      cbn [load_oddconcept_data_cache].
      destruct (load_sheet _ (env_odd env)) as [d' e']. cbn [snd] in Eodd.
      rewrite Eodd.
      destruct (load_fails (env_odd env)).
      * cbn [fst main_report error]. split; [intros _; right; reflexivity|].
        intros _. eexists. reflexivity.
      * cbn [fst]. unfold main_report.
        cbn [error error_set df_fnf df_oddconcept df_gemini].
        split; [|intros [H|H]; discriminate H].
        intros [message H]. exfalso.
        destruct d; [|discriminate H]. destruct d'; [|discriminate H].
        destruct (image_list _); [discriminate H|].
        destruct (has_cols _ _); discriminate H.
  - intros Hfnf Hodd Hgem.
    destruct (load_sheet_loads
                ("F&F 정답지 파일을 찾을 수 없습니다: " ++ FNF_FILE) (env_fnf env)
                Hfnf) as [df Hdf].
    destruct (load_sheet_loads
                ("오드컨셉 결과 파일을 찾을 수 없습니다: " ++ ODDCONCEPT_FILE)
                (env_odd env) Hodd) as [df' Hdf'].
    rewrite Hdf. cbn [error_set load_oddconcept_data_cache].
    destruct (load_gemini_results (env_result_files env)) as [g gname].
    cbn [fst] in Hgem. subst g.
    rewrite Hdf'. reflexivity.
Qed.

End CachedLoad.



(** ** C8: the corpus summary *)

Lemma py_sum_from (rates : list Q) :
  forall start : Q,
    (fold_left Qplus rates start == start + fold_right Qplus 0 rates)%Q.
Proof.
  induction rates as [|x rest IH]; intros start; simpl.
  - ring.
  - rewrite IH. ring.
Qed.

Lemma py_sum_map_total (f : AccuracyRecord -> Q) (accs : list AccuracyRecord) :
  (py_sum (map f accs) == total f accs)%Q.
Proof.
  unfold py_sum. rewrite py_sum_from, Qplus_0_l.
  induction accs as [|a rest IH]; simpl.
  - reflexivity.
  - rewrite IH. reflexivity.
Qed.

(** [average] is the arithmetic mean: times the number of rates it gives
    their sum (both sides are 0 for the empty list). *)
Lemma average_times_length (rates : list Q) :
  (average rates * inject_Z (Z.of_nat (length rates)) == py_sum rates)%Q.
Proof.
  destruct rates as [|x rest].
  - reflexivity.
  - unfold average. rewrite Qmult_comm. apply Qmult_div_r.
    unfold Qeq. simpl. lia.
Qed.

(** C8.  Three images with product accuracies 100, 0 and 50 average to 50
    whatever their counts are; for every corpus each of the four averages
    times the number of images is the sum of the per-image accuracies,
    and the combined score of a source is half the sum of its marketing
    average and its product average. *)
Theorem summary_unweighted_mean :
  (forall (a b c : AccuracyRecord) (odd_accs : list AccuracyRecord),
      (product_acc a == 100)%Q -> (product_acc b == 0)%Q ->
      (product_acc c == 50)%Q ->
      (avg_gemini_product (summary [a; b; c] odd_accs) == 50)%Q)
  /\ (forall gemini_accs odd_accs : list AccuracyRecord,
         let s := summary gemini_accs odd_accs in
         (avg_gemini_marketing s * images gemini_accs
          == total marketing_acc gemini_accs)%Q
         /\ (avg_gemini_product s * images gemini_accs
             == total product_acc gemini_accs)%Q
         /\ (avg_odd_marketing s * images odd_accs
             == total marketing_acc odd_accs)%Q
         /\ (avg_odd_product s * images odd_accs
             == total product_acc odd_accs)%Q
         /\ (avg_gemini s
             == (avg_gemini_marketing s + avg_gemini_product s) / 2)%Q
         /\ (avg_odd s == (avg_odd_marketing s + avg_odd_product s) / 2)%Q).
Proof.
  split.
  - intros a b c odd_accs Ha Hb Hc.
    unfold summary. cbn [avg_gemini_product map].
    unfold average, py_sum. cbn [fold_left length].
    rewrite Ha, Hb, Hc. reflexivity.
  - intros gemini_accs odd_accs. cbn zeta. unfold summary, images.
    cbn [avg_gemini_marketing avg_gemini_product avg_gemini
         avg_odd_marketing avg_odd_product avg_odd].
    repeat split; try reflexivity.
    + rewrite <- py_sum_map_total, <- (length_map marketing_acc gemini_accs).
      apply average_times_length.
    + rewrite <- py_sum_map_total, <- (length_map product_acc gemini_accs).
      apply average_times_length.
    + rewrite <- py_sum_map_total, <- (length_map marketing_acc odd_accs).
      apply average_times_length.
    + rewrite <- py_sum_map_total, <- (length_map product_acc odd_accs).
      apply average_times_length.
Qed.

(** The theorem at work on three records whose product totals are 1, 0
    and 8: the corpus average is 50, not the item-weighted 5/9 of 100. *)
Lemma summary_unweighted_mean_witness :
  (avg_gemini_product (summary [image_full; image_empty; image_half] []) == 50)%Q.
Proof.
  apply (proj1 summary_unweighted_mean image_full image_empty image_half []);
    reflexivity.
Defined.

(* ================================================================== *)
(** * Further properties *)
(* ================================================================== *)

(** ** The string primitives *)

Lemma lower_char_idem c : PyStr.lower_char (PyStr.lower_char c) = PyStr.lower_char c.
Proof. destruct c as [[] [] [] [] [] [] [] []]; reflexivity. Qed.

Lemma isspace_lower_char c : PyStr.isspace (PyStr.lower_char c) = PyStr.isspace c.
Proof. destruct c as [[] [] [] [] [] [] [] []]; reflexivity. Qed.

Lemma lower_idem s : PyStr.lower (PyStr.lower s) = PyStr.lower s.
Proof.
  induction s as [|c r IH]; simpl; [reflexivity|].
  rewrite lower_char_idem, IH. reflexivity.
Qed.

Lemma truthy_lower s : PyStr.truthy (PyStr.lower s) = PyStr.truthy s.
Proof. destruct s; reflexivity. Qed.

Lemma lower_app a b : PyStr.lower (a ++ b) = PyStr.lower a ++ PyStr.lower b.
Proof. induction a as [|c r IH]; simpl; [reflexivity|]. rewrite IH. reflexivity. Qed.

Lemma lstrip_lower s : PyStr.lstrip (PyStr.lower s) = PyStr.lower (PyStr.lstrip s).
Proof.
  induction s as [|c r IH]; simpl; [reflexivity|].
  rewrite isspace_lower_char. destruct (PyStr.isspace c); [exact IH|reflexivity].
Qed.

Lemma rstrip_lower s : PyStr.rstrip (PyStr.lower s) = PyStr.lower (PyStr.rstrip s).
Proof.
  induction s as [|c r IH]; simpl; [reflexivity|].
  rewrite isspace_lower_char, IH, truthy_lower.
  destruct (PyStr.isspace c && negb (PyStr.truthy (PyStr.rstrip r))); reflexivity.
Qed.

Lemma strip_lower s : PyStr.strip (PyStr.lower s) = PyStr.lower (PyStr.strip s).
Proof. unfold PyStr.strip. rewrite lstrip_lower, rstrip_lower. reflexivity. Qed.

Lemma lstrip_starts_clean s : starts_clean (PyStr.lstrip s).
Proof.
  induction s as [|c r IH]; simpl; [exact I|].
  destruct (PyStr.isspace c) eqn:E; [exact IH|exact E].
Qed.

Lemma lstrip_clean s : starts_clean s -> PyStr.lstrip s = s.
Proof. destruct s as [|c r]; simpl; [reflexivity|]. intros ->. reflexivity. Qed.

Lemma rstrip_starts_clean s : starts_clean s -> starts_clean (PyStr.rstrip s).
Proof.
  destruct s as [|c r]; simpl; [exact id|].
  intros E. rewrite E. simpl. exact E.
Qed.

Lemma rstrip_idem s : PyStr.rstrip (PyStr.rstrip s) = PyStr.rstrip s.
Proof.
  induction s as [|c r IH]; simpl; [reflexivity|].
  destruct (PyStr.isspace c && negb (PyStr.truthy (PyStr.rstrip r))) eqn:E.
  - reflexivity.
  - simpl. rewrite IH, E. reflexivity.
Qed.

Lemma strip_idem s : PyStr.strip (PyStr.strip s) = PyStr.strip s.
Proof.
  unfold PyStr.strip.
  rewrite (lstrip_clean (PyStr.rstrip (PyStr.lstrip s))).
  - apply rstrip_idem.
  - apply rstrip_starts_clean, lstrip_starts_clean.
Qed.

Lemma cell_idem s : cell (cell s) = cell s.
Proof.
  unfold cell. rewrite strip_lower, lower_idem, strip_idem. reflexivity.
Qed.

(** ** The matchers *)

Lemma inter_nonempty_iff (l1 l2 : set string) :
  set_inter string_dec l1 l2 <> [] <-> exists t, In t l1 /\ In t l2.
Proof.
  split.
  - destruct (set_inter string_dec l1 l2) as [|t rest] eqn:E; [congruence|].
    intros _. exists t. apply set_inter_elim with (Aeq_dec := string_dec).
    rewrite E. left. reflexivity.
  - intros (t & H1 & H2) E.
    pose proof (set_inter_intro string_dec t l1 l2 H1 H2) as Hin.
    rewrite E in Hin. exact Hin.
Qed.

(** Whether two word sets meet, as [bool(words1 & words2)] and as
    [len(words1 & words2) > 0] decide it. *)
Lemma meet_bool_true_iff (l1 l2 : set string) :
  match set_inter string_dec l1 l2 with [] => false | _ :: _ => true end = true
  <-> exists t, In t l1 /\ In t l2.
Proof.
  rewrite <- inter_nonempty_iff.
  destruct (set_inter string_dec l1 l2); split; intros H;
    try discriminate; try reflexivity.
  exfalso. apply H. reflexivity.
Qed.

Lemma meet_len_true_iff (l1 l2 : set string) :
  (0 <? Z.of_nat (length (set_inter string_dec l1 l2))) = true
  <-> exists t, In t l1 /\ In t l2.
Proof.
  rewrite <- inter_nonempty_iff.
  destruct (set_inter string_dec l1 l2); split; intros H;
    try discriminate; try reflexivity.
  exfalso. apply H. reflexivity.
Qed.

Lemma bool_eq_iff (b1 b2 : bool) : (b1 = true <-> b2 = true) -> b1 = b2.
Proof.
  destruct b1, b2; intros [H1 H2]; try reflexivity.
  - symmetry. apply H1. reflexivity.
  - apply H2. reflexivity.
Qed.

Lemma meet_bool_sym (l1 l2 : set string) :
  match set_inter string_dec l1 l2 with [] => false | _ :: _ => true end
  = match set_inter string_dec l2 l1 with [] => false | _ :: _ => true end.
Proof.
  apply bool_eq_iff. rewrite !meet_bool_true_iff.
  split; intros (t & H1 & H2); exists t; auto.
Qed.

Lemma meet_len_sym (l1 l2 : set string) :
  (0 <? Z.of_nat (length (set_inter string_dec l1 l2)))
  = (0 <? Z.of_nat (length (set_inter string_dec l2 l1))).
Proof.
  apply bool_eq_iff. rewrite !meet_len_true_iff.
  split; intros (t & H1 & H2); exists t; auto.
Qed.

(** X1.  The three word matchers do not depend on the order of their
    arguments: [word_level_match], [fuzzy_match_subcat] and
    [match_subcat_words] give the same answer for [(a, b)] and [(b, a)]. *)
Theorem matchers_symmetric (a b : string) :
  word_level_match a b = word_level_match b a
  /\ fuzzy_match_subcat a b = fuzzy_match_subcat b a
  /\ match_subcat_words a b = match_subcat_words b a.
Proof.
  unfold word_level_match, fuzzy_match_subcat, match_subcat_words.
  rewrite (orb_comm (negb (PyStr.truthy a))).
  rewrite (orb_comm (negb (PyStr.truthy (PyStr.strip a)))).
  rewrite meet_len_sym, (meet_bool_sym (fuzzy_tokens a)),
    (meet_bool_sym (subcat_word_tokens a)).
  repeat split.
Qed.

Lemma in_words_fold (f : string -> string) t (l : list string) :
  forall ws : set string,
    In t (fold_left
            (fun words v =>
               fold_left (fun ws word => add_if_truthy (f word) ws)
                         (PyStr.split v) words) l ws)
    <-> In t ws
        \/ (t <> ""
            /\ exists v, In v l
                         /\ exists word, In word (PyStr.split v) /\ t = f word).
Proof.
  induction l as [|v rest IH]; intros ws; simpl.
  - split; [auto|]. intros [H|(_ & v & [] & _)]. exact H.
  - rewrite IH, in_fold_add. split.
    + intros [[H|(Ht & w & Hw & ->)]|(Ht & v' & Hv' & Hw)]; auto.
      * right. split; [exact Ht|]. exists v. split; [auto|]. exists w. auto.
      * right. split; [exact Ht|]. exists v'. auto.
    + intros [H|(Ht & v' & [<-|Hv'] & w & Hw & ->)]; auto.
      * left. right. split; [exact Ht|]. exists w. auto.
      * right. split; [exact Ht|]. exists v'. split; [exact Hv'|]. exists w. auto.
Qed.

Lemma in_phrase_words_fold (f : string -> string) t (l : list string) :
  forall ws : set string,
    In t (fold_left
            (fun words v =>
               let words := add_if_truthy (f v) words in
               fold_left (fun ws word => add_if_truthy (f word) ws)
                         (PyStr.split v) words) l ws)
    <-> In t ws
        \/ (t <> ""
            /\ exists v, In v l
                         /\ (t = f v
                             \/ exists word, In word (PyStr.split v)
                                             /\ t = f word)).
Proof.
  induction l as [|v rest IH]; intros ws; simpl.
  - split; [auto|]. intros [H|(_ & v & [] & _)]. exact H.
  - rewrite IH, in_fold_add, in_add_if_truthy. split.
    + intros [[[[-> Ht]|H]|(Ht & w & Hw & ->)]|(Ht & v' & Hv' & Hor)]; auto.
      * right. split; [exact Ht|]. exists v. auto.
      * right. split; [exact Ht|]. exists v. split; [auto|]. right. exists w. auto.
      * right. split; [exact Ht|]. exists v'. auto.
    + intros [H|(Ht & v' & [<-|Hv'] & Hor)]; auto.
      * left. destruct Hor as [->|(w & Hw & ->)]; auto.
        right. split; [exact Ht|]. exists w. auto.
      * right. split; [exact Ht|]. exists v'. auto.
Qed.

Lemma in_fuzzy_tokens label t :
  In t (fuzzy_tokens label) <-> is_fuzzy_token label t.
Proof.
  unfold fuzzy_tokens, is_fuzzy_token.
  rewrite (in_words_fold (fun word => PyStr.rstrip_char "s" (normalize_text word))).
  split; [intros [[]|H]; exact H | intros H; right; exact H].
Qed.

Lemma fuzzy_token_is_subcat_token label t :
  In t (fuzzy_tokens label) -> In t (subcat_word_tokens label).
Proof.
  unfold fuzzy_tokens, subcat_word_tokens.
  rewrite (in_words_fold (fun word => PyStr.rstrip_char "s" (normalize_text word))).
  rewrite (in_phrase_words_fold
             (fun word => PyStr.rstrip_char "s" (normalize_for_compare word))).
  intros [[]|(Ht & v & Hv & w & Hw & ->)].
  right. split; [exact Ht|]. exists v. split; [exact Hv|]. right. exists w. auto.
Qed.

(** A blank text: stripping leaves nothing. *)
Lemma strip_empty_lstrip s : PyStr.strip s = "" -> PyStr.lstrip s = "".
Proof.
  unfold PyStr.strip. pose proof (lstrip_starts_clean s) as Hc.
  destruct (PyStr.lstrip s) as [|c r]; [reflexivity|].
  simpl in Hc. simpl. rewrite Hc. simpl. discriminate.
Qed.

Lemma lstrip_empty_split_on s : PyStr.lstrip s = "" -> PyStr.split_on "," s = [s].
Proof.
  induction s as [|c r IH]; simpl; [reflexivity|].
  destruct (PyStr.isspace c) eqn:E; [|discriminate].
  intros Hr. rewrite (IH Hr).
  destruct (Ascii.eqb_spec c ","%char) as [->|_]; [discriminate E|reflexivity].
Qed.

Lemma blank_comma_values s : PyStr.strip s = "" -> comma_values s = [""].
Proof.
  intros H. unfold comma_values.
  rewrite (lstrip_empty_split_on s (strip_empty_lstrip s H)). simpl.
  rewrite H. reflexivity.
Qed.

Lemma blank_tokens s :
  PyStr.strip s = "" ->
  word_level_tokens s = [] /\ fuzzy_tokens s = [] /\ subcat_word_tokens s = [].
Proof.
  intros H. unfold word_level_tokens, fuzzy_tokens, subcat_word_tokens.
  rewrite (blank_comma_values s H). repeat split.
Qed.

Lemma set_inter_nil_r (l : set string) : set_inter string_dec l [] = [].
Proof. induction l as [|a l IH]; simpl; [reflexivity|exact IH]. Qed.

(** X2.  [fuzzy_match_subcat a b] holds exactly when the two labels share
    a token, the tokens of a label being the words of its comma-separated
    phrases, each normalised and without its trailing 's' characters, and
    never the empty text. *)
Theorem fuzzy_match_subcat_iff_common_token (a b : string) :
  fuzzy_match_subcat a b = true
  <-> exists t, is_fuzzy_token a t /\ is_fuzzy_token b t.
Proof.
  unfold fuzzy_match_subcat. split.
  - destruct (negb (PyStr.truthy a) || negb (PyStr.truthy b)); [discriminate|].
    rewrite meet_bool_true_iff. intros (t & Ha & Hb).
    exists t. split; apply in_fuzzy_tokens; assumption.
  - intros (t & Ha & Hb).
    apply in_fuzzy_tokens in Ha. apply in_fuzzy_tokens in Hb.
    assert (Ea : PyStr.truthy a = true).
    { apply truthy_true_iff. intros ->. exact Ha. }
    assert (Eb : PyStr.truthy b = true).
    { apply truthy_true_iff. intros ->. exact Hb. }
    rewrite Ea, Eb. cbn [negb orb].
    apply meet_bool_true_iff. exists t. auto.
Qed.

(** X3.  [match_cat_words], the category test of [add_missing_items], is
    the same function as [fuzzy_match_subcat]: its extra guard on
    stripped arguments never changes the answer. *)
Theorem match_cat_words_is_fuzzy_match (a b : string) :
  match_cat_words a b = fuzzy_match_subcat a b.
Proof.
  unfold match_cat_words, fuzzy_match_subcat.
  change (cat_word_tokens a) with (fuzzy_tokens a).
  change (cat_word_tokens b) with (fuzzy_tokens b).
  destruct (negb (PyStr.truthy a) || negb (PyStr.truthy b)); [reflexivity|].
  destruct (PyStr.truthy (PyStr.strip a)) eqn:Ea.
  - destruct (PyStr.truthy (PyStr.strip b)) eqn:Eb; [reflexivity|].
    apply truthy_false_iff in Eb.
    destruct (blank_tokens b Eb) as (_ & -> & _).
    rewrite set_inter_nil_r. reflexivity.
  - apply truthy_false_iff in Ea.
    destruct (blank_tokens a Ea) as (_ & -> & _). reflexivity.
Qed.

(** X4.  Whatever [fuzzy_match_subcat] accepts, [match_subcat_words]
    accepts too: the subcategory test of [add_missing_items] only adds
    the whole-phrase tokens. *)
Theorem fuzzy_match_implies_match_subcat_words (a b : string) :
  fuzzy_match_subcat a b = true -> match_subcat_words a b = true.
Proof.
  unfold fuzzy_match_subcat, match_subcat_words.
  destruct (negb (PyStr.truthy a) || negb (PyStr.truthy b)); [discriminate|].
  rewrite meet_bool_true_iff. intros (t & Ha & Hb).
  assert (Sa : PyStr.truthy (PyStr.strip a) = true).
  { destruct (PyStr.truthy (PyStr.strip a)) eqn:E; [reflexivity|].
    apply truthy_false_iff in E. destruct (blank_tokens a E) as (_ & E' & _).
    rewrite E' in Ha. destruct Ha. }
  assert (Sb : PyStr.truthy (PyStr.strip b) = true).
  { destruct (PyStr.truthy (PyStr.strip b)) eqn:E; [reflexivity|].
    apply truthy_false_iff in E. destruct (blank_tokens b E) as (_ & E' & _).
    rewrite E' in Hb. destruct Hb. }
  rewrite Sa, Sb. cbn [negb orb].
  apply meet_bool_true_iff. exists t.
  split; apply fuzzy_token_is_subcat_token; assumption.
Qed.

Lemma fuzzy_match_implies_match_subcat_words_witness :
  match_subcat_words "running shoes, sneakers" "Shoe" = true.
Proof.
  apply (fuzzy_match_implies_match_subcat_words "running shoes, sneakers" "Shoe").
  vm_compute. reflexivity.
Defined.

(** X5.  A blank argument (empty or whitespace only) never matches, not
    even another blank one: all four matchers answer false. *)
Theorem blank_never_matches (a b : string) :
  PyStr.strip a = "" \/ PyStr.strip b = "" ->
  word_level_match a b = false
  /\ fuzzy_match_subcat a b = false
  /\ match_cat_words a b = false
  /\ match_subcat_words a b = false.
Proof.
  intros H.
  assert (Hw : word_level_match a b = false).
  { unfold word_level_match.
    destruct (negb (PyStr.truthy a) || negb (PyStr.truthy b)); [reflexivity|].
    destruct H as [H|H]; destruct (blank_tokens _ H) as (-> & _ & _);
      rewrite ?set_inter_nil_r; reflexivity. }
  assert (Hf : fuzzy_match_subcat a b = false).
  { unfold fuzzy_match_subcat.
    destruct (negb (PyStr.truthy a) || negb (PyStr.truthy b)); [reflexivity|].
    destruct H as [H|H]; destruct (blank_tokens _ H) as (_ & -> & _);
      rewrite ?set_inter_nil_r; reflexivity. }
  assert (Hs : match_subcat_words a b = false).
  { unfold match_subcat_words.
    destruct (negb (PyStr.truthy a) || negb (PyStr.truthy b)); [reflexivity|].
    destruct H as [H|H]; rewrite H; simpl; rewrite ?orb_true_r; reflexivity. }
  repeat split; try assumption.
  unfold match_cat_words.
  destruct (negb (PyStr.truthy a) || negb (PyStr.truthy b)); [reflexivity|].
  destruct H as [H|H]; rewrite H; simpl; rewrite ?orb_true_r; reflexivity.
Qed.

Lemma blank_never_matches_witness :
  word_level_match "   " "   " = false
  /\ fuzzy_match_subcat "   " "   " = false
  /\ match_cat_words "   " "   " = false
  /\ match_subcat_words "   " "   " = false.
Proof.
  apply (blank_never_matches "   " "   "). left. reflexivity.
Defined.

(** ** The normalisers *)

Lemma remove_char_comm c1 c2 s :
  PyStr.remove_char c1 (PyStr.remove_char c2 s)
  = PyStr.remove_char c2 (PyStr.remove_char c1 s).
Proof.
  induction s as [|c r IH]; simpl; [reflexivity|].
  destruct (Ascii.eqb c c2) eqn:E2; destruct (Ascii.eqb c c1) eqn:E1; simpl;
    rewrite ?E1, ?E2, IH; reflexivity.
Qed.

Lemma remove_char_app ch a b :
  PyStr.remove_char ch (a ++ b) = PyStr.remove_char ch a ++ PyStr.remove_char ch b.
Proof.
  induction a as [|c r IH]; simpl; [reflexivity|].
  destruct (Ascii.eqb c ch); simpl; rewrite IH; reflexivity.
Qed.

Lemma in_remove_char ch c s :
  In c (list_ascii_of_string (PyStr.remove_char ch s))
  <-> In c (list_ascii_of_string s) /\ c <> ch.
Proof.
  induction s as [|c' r IH]; simpl.
  - tauto.
  - destruct (Ascii.eqb_spec c' ch) as [->|Hne]; simpl; rewrite IH.
    + split; [tauto|]. intros [[<-|H] Hc]; [contradiction|tauto].
    + split; [|tauto]. intros [<-|H]; tauto.
Qed.

Lemma in_lower c s :
  In c (list_ascii_of_string (PyStr.lower s)) -> PyStr.lower_char c = c.
Proof.
  induction s as [|c' r IH]; simpl; [tauto|].
  intros [<-|H]; [apply lower_char_idem|exact (IH H)].
Qed.

Lemma remove_space_lower s :
  PyStr.remove_char " " (PyStr.lower s) = PyStr.lower (PyStr.remove_char " " s).
Proof.
  induction s as [|c r IH]; simpl; [reflexivity|].
  assert (E : Ascii.eqb (PyStr.lower_char c) " " = Ascii.eqb c " ")
    by (destruct c as [[] [] [] [] [] [] [] []]; reflexivity).
  rewrite E. destruct (Ascii.eqb c " "); simpl; rewrite IH; reflexivity.
Qed.

Lemma plain_tail c r : plain (String c r) -> plain r.
Proof. intros H c' Hin. apply H. simpl. right. exact Hin. Qed.

Lemma plain_head c r : plain (String c r) -> PyStr.isspace c = true -> c = " "%char.
Proof. intros H. apply H. simpl. left. reflexivity. Qed.

Lemma remove_space_lstrip s :
  plain s -> PyStr.remove_char " " (PyStr.lstrip s) = PyStr.remove_char " " s.
Proof.
  induction s as [|c r IH]; intros Hp; simpl; [reflexivity|].
  destruct (PyStr.isspace c) eqn:E; [|reflexivity].
  rewrite (plain_head c r Hp E). simpl. apply IH. exact (plain_tail c r Hp).
Qed.

Lemma remove_space_rstrip s :
  plain s -> PyStr.remove_char " " (PyStr.rstrip s) = PyStr.remove_char " " s.
Proof.
  induction s as [|c r IH]; intros Hp; simpl; [reflexivity|].
  specialize (IH (plain_tail c r Hp)).
  destruct (PyStr.isspace c) eqn:E; simpl.
  - rewrite (plain_head c r Hp E) in *. simpl.
    destruct (PyStr.truthy (PyStr.rstrip r)) eqn:T; simpl; [exact IH|].
    apply truthy_false_iff in T. rewrite T in IH. simpl in IH. exact IH.
  - destruct (Ascii.eqb c " "); rewrite IH; reflexivity.
Qed.

Lemma plain_lstrip s : plain s -> plain (PyStr.lstrip s).
Proof.
  induction s as [|c r IH]; intros Hp; simpl; [exact Hp|].
  destruct (PyStr.isspace c); [exact (IH (plain_tail c r Hp))|exact Hp].
Qed.

Lemma remove_space_strip s :
  plain s -> PyStr.remove_char " " (PyStr.strip s) = PyStr.remove_char " " s.
Proof.
  intros Hp. unfold PyStr.strip.
  rewrite remove_space_rstrip by (apply plain_lstrip; exact Hp).
  apply remove_space_lstrip. exact Hp.
Qed.

(** On a text whose only whitespace is the space character, stripping is
    absorbed by the removal of the separators. *)
Lemma normalize_text_plain s :
  plain s -> normalize_text s = without_separators (PyStr.lower s).
Proof.
  intros Hp. unfold normalize_text, without_separators.
  destruct s as [|c r]; [reflexivity|]. cbn [PyStr.truthy String.eqb negb].
  f_equal.
  rewrite (remove_char_comm " " "-"), (remove_char_comm " " "-" (PyStr.lower _)).
  f_equal. rewrite !remove_space_lower. f_equal.
  apply remove_space_strip. exact Hp.
Qed.

Lemma without_separators_app a b :
  without_separators (a ++ b) = without_separators a ++ without_separators b.
Proof. unfold without_separators. rewrite !remove_char_app. reflexivity. Qed.

Lemma plain_app a b : plain a -> plain b -> plain (a ++ b).
Proof.
  intros Ha Hb c Hin. 
  assert (E : list_ascii_of_string (a ++ b)
              = (list_ascii_of_string a ++ list_ascii_of_string b)%list).
  { clear. induction a as [|c r IH]; simpl; [reflexivity|]. rewrite IH. reflexivity. }
  rewrite E in Hin. apply in_app_or in Hin. destruct Hin; auto.
Qed.

Lemma plain_separator (sep : string) :
  sep = "-" \/ sep = " " \/ sep = "_" -> plain sep.
Proof.
  intros [-> | [-> | ->]] c Hin E; simpl in Hin; destruct Hin as [<-|[]];
    try reflexivity; discriminate E.
Qed.

(** X6.  The four normalisers of the file, [normalize_text],
    [normalize_word], [normalize_for_dedup] and [normalize_for_compare],
    are one function, and its result holds no hyphen, no space, no
    underscore and no character that [lower] would change. *)
Theorem normalisers_agree (s : string) :
  normalize_word s = normalize_text s
  /\ normalize_for_dedup s = normalize_text s
  /\ normalize_for_compare s = normalize_text s
  /\ forall c, In c (list_ascii_of_string (normalize_text s)) ->
               c <> "-"%char /\ c <> " "%char /\ c <> "_"%char
               /\ PyStr.lower_char c = c.
Proof.
  assert (E : normalize_word s = normalize_text s).
  { unfold normalize_word, normalize_text.
    destruct s as [|c r]; [reflexivity|]. cbn [PyStr.truthy String.eqb negb].
    f_equal. apply remove_char_comm. }
  split; [exact E|]. split; [reflexivity|]. split; [reflexivity|].
  intros c Hin. unfold normalize_text in Hin.
  destruct (negb (PyStr.truthy s)); [destruct Hin|].
  apply in_remove_char in Hin. destruct Hin as [Hin H1].
  apply in_remove_char in Hin. destruct Hin as [Hin H2].
  apply in_remove_char in Hin. destruct Hin as [Hin H3].
  repeat split; try assumption.
  exact (in_lower c _ Hin).
Qed.



(** ** normalize_image_name *)

Lemma str_app_nil_r (s : string) : s ++ "" = s.
Proof. induction s as [|c r IH]; simpl; [reflexivity|]. rewrite IH. reflexivity. Qed.

Lemma str_app_assoc (a b c : string) : (a ++ b) ++ c = a ++ (b ++ c).
Proof. induction a as [|x r IH]; simpl; [reflexivity|]. rewrite IH. reflexivity. Qed.

Lemma rev_app (a b : string) :
  PyStrMore.rev (a ++ b) = PyStrMore.rev b ++ PyStrMore.rev a.
Proof.
  induction a as [|c r IH]; simpl.
  - rewrite str_app_nil_r. reflexivity.
  - rewrite IH, str_app_assoc. reflexivity.
Qed.

Lemma str_length_app (a b : string) :
  String.length (a ++ b) = (String.length a + String.length b)%nat.
Proof. induction a as [|c r IH]; simpl; [reflexivity|]. rewrite IH. reflexivity. Qed.

Lemma substring_prefix (a b : string) :
  String.substring 0 (String.length a) (a ++ b) = a.
Proof.
  induction a as [|c r IH]; simpl.
  - destruct b; reflexivity.
  - rewrite IH. reflexivity.
Qed.

Lemma drop_last_app (a e : string) :
  PyStrMore.drop_last (String.length e) (a ++ e) = a.
Proof.
  unfold PyStrMore.drop_last. rewrite str_length_app.
  replace (String.length a + String.length e - String.length e)%nat
    with (String.length a) by lia.
  apply substring_prefix.
Qed.

Lemma lstrip_app_clean (s e : string) :
  PyStr.truthy e = true -> starts_clean e ->
  PyStr.lstrip (s ++ e) = PyStr.lstrip s ++ e.
Proof.
  intros Te Ce. induction s as [|c r IH]; simpl.
  - apply lstrip_clean. exact Ce.
  - destruct (PyStr.isspace c); [exact IH|reflexivity].
Qed.

Lemma rstrip_app_kept (t e : string) :
  PyStr.truthy (PyStr.rstrip e) = true ->
  PyStr.rstrip (t ++ e) = t ++ PyStr.rstrip e.
Proof.
  intros Te. induction t as [|c r IH]; simpl; [reflexivity|].
  rewrite IH.
  assert (T : PyStr.truthy (r ++ PyStr.rstrip e) = true).
  { destruct r; [exact Te|reflexivity]. }
  rewrite T, andb_false_r. reflexivity.
Qed.

(** A suffix that survives [strip] and [lower] is still the suffix of the
    stripped and lowered text. *)
Lemma cell_app_suffix (s e : string) :
  PyStr.truthy e = true -> starts_clean e ->
  PyStr.rstrip e = e -> PyStr.lower e = e ->
  cell (s ++ e) = PyStr.lower (PyStr.lstrip s) ++ e.
Proof.
  intros Te Ce Re Le. unfold cell, PyStr.strip.
  rewrite lstrip_app_clean by assumption.
  rewrite rstrip_app_kept by (rewrite Re; exact Te).
  rewrite Re, lower_app, Le. reflexivity.
Qed.

Lemma truthy_app_r (s e : string) :
  PyStr.truthy e = true -> PyStr.truthy (s ++ e) = true.
Proof. destruct s; [exact id|reflexivity]. Qed.

Lemma prefix_empty_l (s : string) : String.prefix "" s = true.
Proof. destruct s; reflexivity. Qed.

Lemma strip_known_extension (y e : string) :
  In e image_extensions ->
  strip_first_extension image_extensions (y ++ e) = y.
Proof.
  unfold image_extensions. intros He.
  assert (D : forall e', PyStrMore.drop_last (String.length e') (y ++ e') = y)
    by (intros e'; apply drop_last_app).
  simpl in He.
  destruct He as [<-|[<-|[<-|[<-|[<-|[]]]]]];
    unfold strip_first_extension, PyStrMore.endswith;
    rewrite rev_app; cbn [PyStrMore.rev String.append String.prefix];
    repeat match goal with
           | |- context [ascii_dec ?a ?b] =>
               let E := fresh in
               destruct (ascii_dec a b) as [E|E];
               [try discriminate E|try (exfalso; apply E; reflexivity)]
           end;
    rewrite ?prefix_empty_l;
    apply D.
Qed.



(** ** remove_duplicates *)

Lemma dedup_key_eqb_true_iff a b : dedup_key_eqb a b = true <-> a = b.
Proof.
  destruct a as [[c s] k], b as [[c' s'] k']. unfold dedup_key_eqb.
  rewrite !andb_true_iff, !String.eqb_eq. split.
  - intros [[-> ->] ->]. reflexivity.
  - intros E. injection E as -> -> ->. auto.
Qed.

Lemma seen_true_iff k seen :
  existsb (dedup_key_eqb k) seen = true <-> In k seen.
Proof.
  rewrite existsb_exists. split.
  - intros (x & Hx & E). apply dedup_key_eqb_true_iff in E. subst x. exact Hx.
  - intros H. exists k. split; [exact H|apply dedup_key_eqb_refl].
Qed.

Lemma seen_false_iff k seen :
  existsb (dedup_key_eqb k) seen = false <-> ~ In k seen.
Proof.
  rewrite <- seen_true_iff. destruct (existsb (dedup_key_eqb k) seen);
    split; congruence.
Qed.

Lemma in_drop_duplicates rows :
  forall seen r,
    In r (drop_duplicates seen rows) ->
    In r rows /\ ~ In (dedup_key r) seen.
Proof.
  induction rows as [|a rest IH]; intros seen r; simpl; [tauto|].
  destruct (existsb (dedup_key_eqb (dedup_key a)) seen) eqn:E.
  - intros H. destruct (IH _ _ H). tauto.
  - intros [<-|H].
    + split; [auto|]. apply seen_false_iff. exact E.
    + destruct (IH _ _ H) as [H1 H2]. split; [auto|].
      intros Hs. apply H2. right. exact Hs.
Qed.

Lemma drop_duplicates_nodup rows :
  forall seen, NoDup (map dedup_key (drop_duplicates seen rows)).
Proof.
  induction rows as [|a rest IH]; intros seen; simpl; [constructor|].
  destruct (existsb (dedup_key_eqb (dedup_key a)) seen); [apply IH|].
  simpl. constructor; [|apply IH].
  intros Hin. apply in_map_iff in Hin. destruct Hin as (r & Hk & Hr).
  apply in_drop_duplicates in Hr. destruct Hr as [_ Hr].
  apply Hr. left. symmetry. exact Hk.
Qed.

Lemma drop_duplicates_covers rows :
  forall seen r,
    In r rows ->
    In (dedup_key r) seen
    \/ exists r', In r' (drop_duplicates seen rows) /\ dedup_key r' = dedup_key r.
Proof.
  induction rows as [|a rest IH]; intros seen r; simpl; [tauto|].
  destruct (existsb (dedup_key_eqb (dedup_key a)) seen) eqn:E.
  - intros [<-|H]; [left; apply seen_true_iff; exact E|exact (IH _ _ H)].
  - intros [<-|H].
    + right. exists a. simpl. auto.
    + destruct (IH (dedup_key a :: seen) r H) as [[Hk|Hs]|(r' & Hr' & Hk)].
      * right. exists a. simpl. auto.
      * left. exact Hs.
      * right. exists r'. simpl. auto.
Qed.

Lemma drop_duplicates_keeps_first before :
  forall seen r after,
    ~ In (dedup_key r) seen ->
    (forall b, In b before -> dedup_key b <> dedup_key r) ->
    In r (drop_duplicates seen (before ++ r :: after)%list).
Proof.
  induction before as [|a rest IH]; intros seen r after Hs Hb; simpl.
  - apply seen_false_iff in Hs. rewrite Hs. left. reflexivity.
  - destruct (existsb (dedup_key_eqb (dedup_key a)) seen).
    + apply IH; [exact Hs|]. intros b Hin. apply Hb. right. exact Hin.
    + right. apply IH.
      * intros [E|H]; [|exact (Hs H)]. exact (Hb a (or_introl eq_refl) E).
      * intros b Hin. apply Hb. right. exact Hin.
Qed.

Lemma drop_duplicates_fixed rows :
  forall seen,
    NoDup (map dedup_key rows) ->
    (forall r, In r rows -> ~ In (dedup_key r) seen) ->
    drop_duplicates seen rows = rows.
Proof.
  induction rows as [|a rest IH]; intros seen Hnd Hs; simpl; [reflexivity|].
  simpl in Hnd. apply NoDup_cons_iff in Hnd. destruct Hnd as [Ha Hnd].
  assert (E : existsb (dedup_key_eqb (dedup_key a)) seen = false)
    by (apply seen_false_iff, Hs; left; reflexivity).
  rewrite E. f_equal. apply IH; [exact Hnd|].
  intros r Hr [Hk|Hin].
  - apply Ha. rewrite Hk. apply in_map. exact Hr.
  - apply (Hs r); [right; exact Hr|exact Hin].
Qed.

Lemma drop_duplicates_length rows :
  forall seen, (length (drop_duplicates seen rows) <= length rows)%nat.
Proof.
  induction rows as [|a rest IH]; intros seen; simpl; [lia|].
  destruct (existsb (dedup_key_eqb (dedup_key a)) seen); simpl.
  - specialize (IH seen). lia.
  - specialize (IH (dedup_key a :: seen)). lia.
Qed.

(** X9.  What [remove_duplicates] keeps: no two kept rows share the
    normalised triple (matched Cat, matched Subcat, Key); every kept row
    is a row of the table and the table never grows; every triple of the
    table is still represented; and the row kept for a triple is the
    first row of the table that carries it. *)
Theorem remove_duplicates_keeps_first_of_each_key (vlm_df : DataFrame) :
  NoDup (map dedup_key (remove_duplicates vlm_df))
  /\ (forall r, In r (remove_duplicates vlm_df) -> In r vlm_df)
  /\ (length (remove_duplicates vlm_df) <= length vlm_df)%nat
  /\ (forall r, In r vlm_df ->
                exists r', In r' (remove_duplicates vlm_df)
                           /\ dedup_key r' = dedup_key r)
  /\ (forall before r after,
         vlm_df = (before ++ r :: after)%list ->
         (forall b, In b before -> dedup_key b <> dedup_key r) ->
         In r (remove_duplicates vlm_df)).
Proof.
  rewrite remove_duplicates_unfold. repeat split.
  - apply drop_duplicates_nodup.
  - intros r H. apply in_drop_duplicates in H. tauto.
  - apply drop_duplicates_length.
  - intros r H. destruct (drop_duplicates_covers vlm_df [] r H) as [[]|H']. exact H'.
  - intros before r after -> Hb. apply drop_duplicates_keeps_first; [tauto|exact Hb].
Qed.

Lemma remove_duplicates_keeps_first_of_each_key_witness :
  In (row "outer" "jacket" "color" "black")
     (remove_duplicates [row "bag" "tote" "color" "red";
                         row "outer" "jacket" "color" "black";
                         row "Outer" "Jacket" "Color" "navy"]).
Proof.
  apply (proj2 (proj2 (proj2 (proj2
           (remove_duplicates_keeps_first_of_each_key
              [row "bag" "tote" "color" "red";
               row "outer" "jacket" "color" "black";
               row "Outer" "Jacket" "Color" "navy"]))))
           [row "bag" "tote" "color" "red"]
           (row "outer" "jacket" "color" "black")
           [row "Outer" "Jacket" "Color" "navy"] eq_refl).
  intros b [<-|[]]. vm_compute. discriminate.
Defined.

(** X10.  A table without repeated triples passes [remove_duplicates]
    unchanged, and so does every table that [remove_duplicates] has
    produced: de-duplicating twice is de-duplicating once. *)
Theorem remove_duplicates_idempotent (vlm_df : DataFrame) :
  (NoDup (map dedup_key vlm_df) -> remove_duplicates vlm_df = vlm_df)
  /\ remove_duplicates (remove_duplicates vlm_df) = remove_duplicates vlm_df.
Proof.
  assert (F : forall df, NoDup (map dedup_key df) -> remove_duplicates df = df).
  { intros df H. rewrite remove_duplicates_unfold.
    apply drop_duplicates_fixed; [exact H|]. intros r _ []. }
  split; [apply F|].
  apply F. rewrite remove_duplicates_unfold. apply drop_duplicates_nodup.
Qed.

Lemma remove_duplicates_idempotent_witness :
  remove_duplicates scenario_d_C = scenario_d_C.
Proof.
  apply (proj1 (remove_duplicates_idempotent scenario_d_C)).
  repeat constructor; simpl; intros H;
    repeat (destruct H as [H|H]; [discriminate H|]); exact H.
Defined.

(** ** The two indexes *)

Lemma key_eqb_true_iff a b : key_eqb a b = true <-> a = b.
Proof.
  destruct a, b; simpl; rewrite ?andb_true_iff, ?String.eqb_eq;
    split; try discriminate; intros ?; intuition congruence.
Qed.

Lemma key_eqb_false_iff a b : key_eqb a b = false <-> a <> b.
Proof.
  rewrite <- key_eqb_true_iff. destruct (key_eqb a b); split; congruence.
Qed.

Lemma dict_get_set_other d k v k' :
  k' <> k -> Dict.get (Dict.set d k v) k' = Dict.get d k'.
Proof.
  intros Hne. induction d as [|[k0 v0] d IH]; simpl.
  - assert (E : key_eqb k k' = false) by (apply key_eqb_false_iff; congruence).
    rewrite E. reflexivity.
  - destruct (key_eqb k0 k) eqn:E; simpl.
    + apply key_eqb_true_iff in E. subst k0.
      assert (E' : key_eqb k k' = false) by (apply key_eqb_false_iff; congruence).
      rewrite E'. reflexivity.
    + destruct (key_eqb k0 k'); [reflexivity|exact IH].
Qed.

Lemma dict_mem_false_iff d k : Dict.mem d k = false <-> Dict.get d k = None.
Proof. unfold Dict.mem. destruct (Dict.get d k); split; congruence. Qed.

(** One turn of the ground-truth loop never changes an entry that is
    there. *)
Lemma fnf_lookup_step_keeps d r k v :
  Dict.get d k = Some v -> Dict.get (fnf_lookup_step d r) k = Some v.
Proof.
  intros H. unfold fnf_lookup_step.
  destruct (negb (PyStr.truthy (cell (Value r))) || (cell (Value r) =? "nan")%string);
    [exact H|].
  set (k3 := Key3 _ _ _). set (k2 := Key2 _ _).
  assert (H3 : Dict.get (if negb (Dict.mem d k3)
                         then Dict.set d k3 (cell (Value r)) else d) k = Some v).
  { destruct (Dict.mem d k3) eqn:M; cbn [negb]; [exact H|].
    rewrite dict_get_set_other; [exact H|].
    intros ->. apply dict_mem_false_iff in M. congruence. }
  destruct (Dict.mem _ k2) eqn:M; cbn [negb]; [exact H3|].
  rewrite dict_get_set_other; [exact H3|].
  intros ->. apply dict_mem_false_iff in M. congruence.
Qed.

Lemma valued_false_step d r : valued r = false -> fnf_lookup_step d r = d.
Proof.
  unfold valued, fnf_lookup_step. intros H.
  destruct (PyStr.truthy (cell (Value r))); simpl in *; [|reflexivity].
  destruct (cell (Value r) =? "nan")%string; [reflexivity|discriminate H].
Qed.

(** A turn leaves a key alone that the row is not filed under. *)
Lemma fnf_lookup_step_other d r k :
  k <> key3_of r -> k <> key2_of r ->
  Dict.get (fnf_lookup_step d r) k = Dict.get d k.
Proof.
  intros H3 H2. unfold fnf_lookup_step.
  destruct (negb (PyStr.truthy (cell (Value r))) || (cell (Value r) =? "nan")%string);
    [reflexivity|].
  fold (key3_of r). fold (key2_of r).
  destruct (Dict.mem d (key3_of r)); cbn [negb].
  - destruct (Dict.mem d (key2_of r)); cbn [negb]; [reflexivity|].
    apply dict_get_set_other. exact H2.
  - destruct (Dict.mem _ (key2_of r)); cbn [negb].
    + apply dict_get_set_other. exact H3.
    + rewrite !dict_get_set_other by assumption. reflexivity.
Qed.

(** A turn on a recorded row files its value under each of its two keys
    that is still free. *)
Lemma fnf_lookup_step_files d r k :
  valued r = true -> k = key3_of r \/ k = key2_of r ->
  Dict.get d k = None ->
  Dict.get (fnf_lookup_step d r) k = Some (cell (Value r)).
Proof.
  intros Hv Hk Hnone. unfold valued in Hv. apply andb_true_iff in Hv.
  destruct Hv as [Hv1 Hv2]. unfold fnf_lookup_step.
  rewrite Hv1. apply negb_true_iff in Hv2. rewrite Hv2. cbn [negb orb].
  fold (key3_of r). fold (key2_of r).
  destruct Hk as [->| ->].
  - apply dict_mem_false_iff in Hnone. rewrite Hnone. cbn [negb].
    destruct (Dict.mem _ (key2_of r)); cbn [negb].
    + apply dict_get_set_same.
    + rewrite dict_get_set_other by (unfold key3_of, key2_of; discriminate).
      apply dict_get_set_same.
  - assert (N : Dict.get (if negb (Dict.mem d (key3_of r))
                          then Dict.set d (key3_of r) (cell (Value r)) else d)
                         (key2_of r) = None).
    { destruct (Dict.mem d (key3_of r)); cbn [negb]; [exact Hnone|].
      rewrite dict_get_set_other by (unfold key3_of, key2_of; discriminate).
      exact Hnone. }
    apply dict_mem_false_iff in N. rewrite N. cbn [negb].
    apply dict_get_set_same.
Qed.

Lemma fold_fnf_keeps rows :
  forall d k v,
    Dict.get d k = Some v ->
    Dict.get (fold_left fnf_lookup_step rows d) k = Some v.
Proof.
  induction rows as [|r rest IH]; intros d k v H; simpl; [exact H|].
  apply IH, fnf_lookup_step_keeps, H.
Qed.

Lemma fold_fnf_absent rows :
  forall d k,
    Dict.get d k = None ->
    (forall r, In r rows -> valued r = true -> k <> key3_of r /\ k <> key2_of r) ->
    Dict.get (fold_left fnf_lookup_step rows d) k = None.
Proof.
  induction rows as [|r rest IH]; intros d k H Hrows; simpl; [exact H|].
  apply IH.
  - destruct (valued r) eqn:V.
    + destruct (Hrows r (or_introl eq_refl) V) as [H3 H2].
      rewrite fnf_lookup_step_other by assumption. exact H.
    + rewrite valued_false_step by exact V. exact H.
  - intros r' Hin. apply Hrows. right. exact Hin.
Qed.

(** X11.  The index of the ground truth keeps the first value: a key,
    triple or pair, is indexed exactly when some recorded row (a row
    whose value is neither empty nor "nan") is filed under it, and it
    then holds the value of the first such row of the table. *)
Theorem fnf_lookup_first_row_wins (edited_fnf_img : DataFrame) (k : LookupKey) :
  (forall before r after,
      edited_fnf_img = (before ++ r :: after)%list ->
      valued r = true ->
      k = key3_of r \/ k = key2_of r ->
      (forall b, In b before -> valued b = true ->
                 k <> key3_of b /\ k <> key2_of b) ->
      Dict.get (build_fnf_lookup edited_fnf_img) k = Some (cell (Value r)))
  /\ ((forall r, In r edited_fnf_img -> valued r = true ->
                 k <> key3_of r /\ k <> key2_of r) ->
      Dict.get (build_fnf_lookup edited_fnf_img) k = None).
Proof.
  unfold build_fnf_lookup. split.
  - intros before r after -> Hv Hk Hb.
    rewrite fold_left_app. simpl.
    apply fold_fnf_keeps. apply fnf_lookup_step_files; try assumption.
    apply fold_fnf_absent; [reflexivity|exact Hb].
  - intros Hnone. apply fold_fnf_absent; [reflexivity|exact Hnone].
Qed.

Lemma fnf_lookup_first_row_wins_witness :
  Dict.get (build_fnf_lookup two_subcats_C) (Key2 "outer" "color") = Some "red".
Proof.
  apply (proj1 (fnf_lookup_first_row_wins two_subcats_C (Key2 "outer" "color"))
           [] (row "outer" "coat" "color" "red")
           [row "outer" "jacket" "color" "black"] eq_refl eq_refl).
  - right. reflexivity.
  - intros b [].
Defined.

Lemma index_vlm_row_get ix r k :
  Dict.get (vlm_lookup (index_vlm_row ix r)) k
  = if key_eqb k (key2_of r) || key_eqb k (key3_of r)
    then Some (cell (Value r))
    else Dict.get (vlm_lookup ix) k.
Proof.
  unfold index_vlm_row. cbn [vlm_lookup].
  fold (key3_of r). fold (key2_of r).
  destruct (key_eqb k (key2_of r)) eqn:E2; cbn [orb].
  - apply key_eqb_true_iff in E2. subst k. apply dict_get_set_same.
  - apply key_eqb_false_iff in E2. rewrite dict_get_set_other by exact E2.
    destruct (key_eqb k (key3_of r)) eqn:E3.
    + apply key_eqb_true_iff in E3. subst k. apply dict_get_set_same.
    + apply key_eqb_false_iff in E3. apply dict_get_set_other. exact E3.
Qed.

Lemma fold_index_other rows :
  forall ix k,
    (forall r, In r rows -> k <> key3_of r /\ k <> key2_of r) ->
    Dict.get (vlm_lookup (fold_left index_vlm_row rows ix)) k
    = Dict.get (vlm_lookup ix) k.
Proof.
  induction rows as [|r rest IH]; intros ix k Hrows; simpl; [reflexivity|].
  rewrite IH by (intros r' Hin; apply Hrows; right; exact Hin).
  rewrite index_vlm_row_get.
  destruct (Hrows r (or_introl eq_refl)) as [H3 H2].
  apply key_eqb_false_iff in H3. apply key_eqb_false_iff in H2.
  rewrite H3, H2. reflexivity.
Qed.

(** X12.  The index of the candidate: a key, triple or pair, is indexed
    exactly when some row of the table is filed under it, whatever the
    value of the row, and it then holds the value of the last such row. *)
Theorem vlm_lookup_holds_last_row (vlm_df : DataFrame) (k : LookupKey) :
  (forall before r after,
      vlm_df = (before ++ r :: after)%list ->
      k = key3_of r \/ k = key2_of r ->
      (forall b, In b after -> k <> key3_of b /\ k <> key2_of b) ->
      Dict.get (vlm_lookup (build_vlm_index vlm_df)) k = Some (cell (Value r)))
  /\ ((forall r, In r vlm_df -> k <> key3_of r /\ k <> key2_of r) ->
      Dict.get (vlm_lookup (build_vlm_index vlm_df)) k = None).
Proof.
  unfold build_vlm_index. split.
  - intros before r after -> Hk Hafter.
    rewrite fold_left_app. simpl.
    rewrite fold_index_other by exact Hafter.
    rewrite index_vlm_row_get.
    destruct Hk as [-> | ->]; rewrite key_eqb_refl, ?orb_true_r; reflexivity.
  - intros Hnone. rewrite fold_index_other by exact Hnone. reflexivity.
Qed.

Lemma vlm_lookup_holds_last_row_witness :
  Dict.get (vlm_lookup (build_vlm_index two_subcats_C)) (Key2 "outer" "color")
  = Some "black".
Proof.
  apply (proj1 (vlm_lookup_holds_last_row two_subcats_C (Key2 "outer" "color"))
           [row "outer" "coat" "color" "red"]
           (row "outer" "jacket" "color" "black") [] eq_refl).
  - right. reflexivity.
  - intros b [].
Defined.

(** ** The counters of calculate_accuracy *)

Lemma fold_score_counts vlm_df lookup fnf_df :
  forall t,
    let t' := fold_left (score_fnf_row vlm_df lookup) fnf_df t in
    t_marketing_total t' = t_marketing_total t + count_rows is_marketing_entry fnf_df
    /\ t_product_total t' = t_product_total t + count_rows is_product_entry fnf_df.
Proof.
  unfold count_rows.
  induction fnf_df as [|r rest IH]; intros t; cbn zeta.
  - simpl. lia.
  - cbn [fold_left]. specialize (IH (score_fnf_row vlm_df lookup t r)).
    cbn zeta in IH. destruct IH as [IHm IHp]. rewrite IHm, IHp.
    cbn [filter]. unfold score_fnf_row, is_marketing_entry, is_product_entry.
    destruct (PyStr.truthy (cell (Key r))); destruct (PyStr.truthy (cell (Value r)));
      cbn [negb andb t_marketing_total t_product_total length]; lia.
Qed.

(** X13.  The two denominators depend on the ground truth alone: for
    every candidate table and every index, the marketing total is the
    number of ground-truth rows with a value and no key, and the product
    total the number of ground-truth rows with a value and a key. *)
Theorem totals_count_ground_truth (vlm_df fnf_df : DataFrame) (fnf_lookup : Dict.t) :
  exists r,
    calculate_accuracy vlm_df fnf_df fnf_lookup = Ok r
    /\ marketing_total r = count_rows is_marketing_entry fnf_df
    /\ product_total r = count_rows is_product_entry fnf_df.
Proof.
  unfold calculate_accuracy. rewrite score_returns.
  eexists. split; [reflexivity|]. cbn [marketing_total product_total].
  pose proof (fold_score_counts vlm_df (vlm_lookup (build_vlm_index vlm_df))
                fnf_df (mkTally 0 0 0 0 0)) as H.
  cbn zeta in H. cbn [t_marketing_total t_product_total] in H.
  destruct H as [-> ->]. split; lia.
Qed.

Lemma find_value_empty cat subcat key : find_value Dict.empty cat subcat key = "".
Proof.
  unfold find_value, direct_value, Dict.get_default, scan_value. simpl.
  destruct (negb (PyStr.truthy key)); reflexivity.
Qed.

Lemma fold_count_extra_bounds fnf_lookup vlm_df :
  forall extra,
    let extra' := fold_left (count_extra fnf_lookup) vlm_df extra in
    fst extra <= fst extra' <= fst extra + count_rows is_marketing_entry vlm_df
    /\ snd extra <= snd extra' <= snd extra + count_rows is_product_entry vlm_df
    /\ (fnf_lookup = Dict.empty ->
        fst extra' = fst extra + count_rows is_marketing_entry vlm_df
        /\ snd extra' = snd extra + count_rows is_product_entry vlm_df).
Proof.
  unfold count_rows.
  induction vlm_df as [|r rest IH]; intros extra; cbn zeta.
  - simpl. lia.
  - cbn [fold_left]. specialize (IH (count_extra fnf_lookup extra r)).
    cbn zeta in IH. destruct IH as (IHm & IHp & IHe).
    cbn [filter].
    assert (Hstep :
      let e := count_extra fnf_lookup extra r in
      fst extra <= fst e
      <= fst extra + (if is_marketing_entry r then 1 else 0)
      /\ snd extra <= snd e
         <= snd extra + (if is_product_entry r then 1 else 0)
      /\ (fnf_lookup = Dict.empty ->
          fst e = fst extra + (if is_marketing_entry r then 1 else 0)
          /\ snd e = snd extra + (if is_product_entry r then 1 else 0))).
    { cbn zeta. unfold count_extra, is_marketing_entry, is_product_entry.
      destruct (PyStr.truthy (cell (Value r))) eqn:V; cbn [negb].
      - destruct (PyStr.truthy (cell (Key r))) eqn:K; cbn [negb andb].
        + split; [|split].
          * destruct (negb (PyStr.truthy (find_value _ _ _ _))); cbn [fst snd]; lia.
          * destruct (negb (PyStr.truthy (find_value _ _ _ _))); cbn [fst snd]; lia.
          * intros ->. rewrite find_value_empty. cbn. lia.
        + split; [|split].
          * destruct (negb (PyStr.truthy (find_value _ _ _ _))); cbn [fst snd]; lia.
          * destruct (negb (PyStr.truthy (find_value _ _ _ _))); cbn [fst snd]; lia.
          * intros ->. rewrite find_value_empty. cbn. lia.
      - rewrite !andb_false_r. lia. }
    cbn zeta in Hstep. destruct Hstep as (Sm & Sp & Se).
    repeat split.
    + lia.
    + destruct (is_marketing_entry r); cbn [length] in *; lia.
    + lia.
    + destruct (is_product_entry r); cbn [length] in *; lia.
    + destruct (IHe H), (Se H).
      destruct (is_marketing_entry r); cbn [length] in *; lia.
    + destruct (IHe H), (Se H).
      destruct (is_product_entry r); cbn [length] in *; lia.
Qed.

(** X14.  The extra counters count candidate rows: the marketing extra
    never exceeds the number of candidate rows with a value and no key,
    the product extra never exceeds the number of candidate rows with a
    value and a key, neither is negative, and against an empty index of
    the ground truth every such row is an extra. *)
Theorem extras_count_candidate_rows (vlm_df fnf_df : DataFrame) (fnf_lookup : Dict.t) :
  exists r,
    calculate_accuracy vlm_df fnf_df fnf_lookup = Ok r
    /\ 0 <= marketing_extra r <= count_rows is_marketing_entry vlm_df
    /\ 0 <= product_extra r <= count_rows is_product_entry vlm_df
    /\ (fnf_lookup = Dict.empty ->
        marketing_extra r = count_rows is_marketing_entry vlm_df
        /\ product_extra r = count_rows is_product_entry vlm_df).
Proof.
  unfold calculate_accuracy. rewrite score_returns.
  eexists. split; [reflexivity|]. cbn [marketing_extra product_extra].
  pose proof (fold_count_extra_bounds fnf_lookup vlm_df (0, 0)) as H.
  cbn zeta in H. cbn [fst snd] in H. destruct H as (Hm & Hp & He).
  repeat split; try lia; destruct (He H); lia.
Qed.

Lemma extras_count_candidate_rows_witness :
  exists r,
    reconcile [] scenario_d_C = Ok r
    /\ marketing_extra r = 0 /\ product_extra r = 2.
Proof.
  destruct (extras_count_candidate_rows scenario_d_C [] (build_fnf_lookup []))
    as (r & Hr & _ & _ & He).
  exists r. split; [exact Hr|]. exact (He eq_refl).
Defined.

Lemma fold_score_empty_candidate fnf_df :
  forall t,
    let t' := fold_left (score_fnf_row [] Dict.empty) fnf_df t in
    t_marketing_match t' = t_marketing_match t
    /\ t_product_match t' = t_product_match t
    /\ t_subcat_errors t' = t_subcat_errors t.
Proof.
  induction fnf_df as [|r rest IH]; intros t; cbn zeta.
  - simpl. auto.
  - cbn [fold_left]. specialize (IH (score_fnf_row [] Dict.empty t r)).
    cbn zeta in IH. destruct IH as (-> & -> & ->).
    unfold score_fnf_row, subcat_error. rewrite find_value_empty.
    cbn [PyStr.truthy String.eqb negb andb]. rewrite !andb_false_r.
    destruct (negb (PyStr.truthy (cell (Key r))) && PyStr.truthy (cell (Value r)));
      [cbn; repeat split; lia|].
    destruct (negb (negb (PyStr.truthy (cell (Key r))))
              && PyStr.truthy (cell (Value r)));
      cbn; repeat split; lia.
Qed.

Lemma zero_percent (b : Z) : (inject_Z 0 / inject_Z b * 100 == 0)%Q.
Proof. unfold Qdiv. change (inject_Z 0) with 0%Q. ring. Qed.

Lemma full_percent (b : Z) : 0 < b -> (inject_Z (b - 0) / inject_Z b * 100 == 100)%Q.
Proof.
  intros Hb. rewrite Z.sub_0_r.
  assert (N : ~ (inject_Z b == 0)%Q) by (unfold Qeq; simpl; lia).
  field. exact N.
Qed.

(** X15.  Against an empty candidate table nothing matches and nothing is
    extra: both match counters, the subcategory errors, both extras and
    both bonus flags are 0 or false, the marketing and value accuracies
    are 0, and as soon as the ground truth has one product entry the
    subcategory accuracy is 100 and the product accuracy 40. *)
Theorem empty_candidate_scores (fnf_df : DataFrame) (fnf_lookup : Dict.t) :
  exists r,
    calculate_accuracy [] fnf_df fnf_lookup = Ok r
    /\ marketing_match r = 0 /\ product_match r = 0 /\ subcat_errors r = 0
    /\ marketing_extra r = 0 /\ product_extra r = 0
    /\ has_brand r = false /\ has_product_name r = false
    /\ (marketing_acc r == 0)%Q /\ (value_acc r == 0)%Q
    /\ (0 < product_total r ->
        (subcat_acc r == 100)%Q /\ (product_acc r == 40)%Q)
    /\ (product_total r = 0 -> (product_acc r == 0)%Q).
Proof.
  unfold calculate_accuracy. rewrite score_returns.
  eexists. split; [reflexivity|].
  cbn [build_vlm_index fold_left vlm_lookup idx_has_brand idx_has_product_name
       marketing_match product_match subcat_errors marketing_extra product_extra
       has_brand has_product_name marketing_acc value_acc subcat_acc product_acc
       product_total fst snd].
  pose proof (fold_score_empty_candidate fnf_df (mkTally 0 0 0 0 0)) as H.
  cbn zeta in H. cbn [t_marketing_match t_product_match t_subcat_errors] in H.
  destruct H as (Hm & Hp & Hs).
  set (t := fold_left (score_fnf_row [] Dict.empty) fnf_df (mkTally 0 0 0 0 0)) in *.
  assert (Am : (marketing_acc_of t == 0)%Q).
  { unfold marketing_acc_of. rewrite Hm.
    destruct (0 <? t_marketing_total t); [apply zero_percent|reflexivity]. }
  assert (Av : (value_acc_of t == 0)%Q).
  { unfold value_acc_of. rewrite Hp.
    destruct (0 <? t_product_total t); [apply zero_percent|reflexivity]. }
  do 9 (split; [first [assumption | reflexivity]|]).
  split.
  - intros Hpos.
    assert (As : (subcat_acc_of t == 100)%Q).
    { unfold subcat_acc_of. rewrite Hs.
      apply Z.ltb_lt in Hpos. rewrite Hpos. apply Z.ltb_lt in Hpos.
      apply full_percent. exact Hpos. }
    split; [exact As|].
    unfold product_acc_of.
    apply Z.ltb_lt in Hpos. rewrite Hpos. rewrite Av, As. reflexivity.
  - intros Hz. unfold product_acc_of. rewrite Hz. reflexivity.
Qed.

Lemma empty_candidate_scores_witness :
  exists r,
    reconcile scenario_a_G [] = Ok r
    /\ (subcat_acc r == 100)%Q /\ (product_acc r == 40)%Q.
Proof.
  destruct (empty_candidate_scores scenario_a_G (build_fnf_lookup scenario_a_G))
    as (r & Hr & _ & _ & _ & _ & _ & _ & _ & _ & _ & Hpos & _).
  exists r. split; [exact Hr|]. apply Hpos.
  unfold reconcile in Hr. vm_compute in Hr. injection Hr as <-. reflexivity.
Defined.

Lemma fold_index_flags rows :
  forall ix,
    idx_has_brand (fold_left index_vlm_row rows ix)
    = idx_has_brand ix || existsb (names_bonus "brand") rows
    /\ idx_has_product_name (fold_left index_vlm_row rows ix)
       = idx_has_product_name ix || existsb (names_bonus "product_name") rows.
Proof.
  induction rows as [|r rest IH]; intros ix; simpl.
  - rewrite !orb_false_r. auto.
  - destruct (IH (index_vlm_row ix r)) as [-> ->].
    unfold index_vlm_row, names_bonus. cbn [idx_has_brand idx_has_product_name].
    split.
    + destruct ((cell (Key r) =? "brand")%string && PyStr.truthy (cell (Value r)));
        cbn [orb]; rewrite ?orb_true_r; reflexivity.
    + destruct ((cell (Key r) =? "product_name")%string
                && PyStr.truthy (cell (Value r)));
        cbn [orb]; rewrite ?orb_true_r; reflexivity.
Qed.

(** X16.  The bonus flags: [has_brand] is set exactly when some candidate
    row has the key "brand" and a non-empty value, [has_product_name]
    exactly when some candidate row has the key "product_name" and a
    non-empty value; the ground truth plays no part. *)
Theorem bonus_flags_from_candidate (vlm_df fnf_df : DataFrame) (fnf_lookup : Dict.t) :
  exists r,
    calculate_accuracy vlm_df fnf_df fnf_lookup = Ok r
    /\ has_brand r = existsb (names_bonus "brand") vlm_df
    /\ has_product_name r = existsb (names_bonus "product_name") vlm_df.
Proof.
  unfold calculate_accuracy. rewrite score_returns.
  eexists. split; [reflexivity|]. cbn [has_brand has_product_name].
  unfold build_vlm_index.
  destruct (fold_index_flags vlm_df (mkVlmIndex Dict.empty false false)) as [-> ->].
  split; reflexivity.
Qed.

(** ** What the reconciler reads of a row *)

Lemma fold_left_Forall2 {A B : Type} (R : B -> B -> Prop) (f g : A -> B -> A) :
  (forall a x y, R x y -> f a x = g a y) ->
  forall l l', Forall2 R l l' -> forall a, fold_left f l a = fold_left g l' a.
Proof.
  intros Hfg l l' H. induction H as [|x y l l' Hxy _ IH]; intros a; simpl.
  - reflexivity.
  - rewrite (Hfg a x y Hxy). apply IH.
Qed.

Lemma index_vlm_row_same ix r r' :
  same_cells r r' -> index_vlm_row ix r = index_vlm_row ix r'.
Proof.
  intros (Hk & Hv & Hc & Hs). unfold index_vlm_row.
  rewrite Hk, Hv, Hc, Hs. reflexivity.
Qed.

Lemma fnf_lookup_step_same d r r' :
  same_cells r r' -> fnf_lookup_step d r = fnf_lookup_step d r'.
Proof.
  intros (Hk & Hv & Hc & Hs). unfold fnf_lookup_step.
  rewrite Hk, Hv, Hc, Hs. reflexivity.
Qed.

Lemma count_extra_same d extra r r' :
  same_cells r r' -> count_extra d extra r = count_extra d extra r'.
Proof.
  intros (Hk & Hv & Hc & Hs). unfold count_extra.
  rewrite Hk, Hv, Hc, Hs. reflexivity.
Qed.

Lemma subcat_error_same vlm_df vlm_df' f_cat f_subcat f_key v_val :
  Forall2 same_cells vlm_df vlm_df' ->
  subcat_error vlm_df f_cat f_subcat f_key v_val
  = subcat_error vlm_df' f_cat f_subcat f_key v_val.
Proof.
  intros H. unfold subcat_error.
  destruct (PyStr.truthy f_cat && PyStr.truthy f_subcat && PyStr.truthy f_key
            && PyStr.truthy v_val); [|reflexivity].
  induction H as [|x y l l' (Hk & Hv & Hc & Hs) _ IH]; simpl; [reflexivity|].
  rewrite Hk, Hc.
  destruct (word_level_match f_cat (cell (_cat_for_match y))
            && (cell (Key y) =? f_key)%string); [|exact IH].
  rewrite Hs. reflexivity.
Qed.

Lemma score_fnf_row_same vlm_df vlm_df' lookup t r r' :
  Forall2 same_cells vlm_df vlm_df' -> same_cells r r' ->
  score_fnf_row vlm_df lookup t r = score_fnf_row vlm_df' lookup t r'.
Proof.
  intros Hdf (Hk & Hv & Hc & Hs). unfold score_fnf_row.
  rewrite Hk, Hv, Hc, Hs.
  rewrite (subcat_error_same vlm_df vlm_df') by exact Hdf. reflexivity.
Qed.

Lemma same_cells_normalise r : same_cells r (normalise_row r).
Proof. unfold same_cells, normalise_row. simpl. rewrite !cell_idem. auto. Qed.

Lemma Forall2_map_normalise df : Forall2 same_cells df (map normalise_row df).
Proof.
  induction df as [|r rest IH]; simpl; constructor;
    [apply same_cells_normalise|exact IH].
Qed.

Lemma reconcile_same_cells G G' C C' :
  Forall2 same_cells G G' -> Forall2 same_cells C C' ->
  reconcile G C = reconcile G' C'.
Proof.
  intros HG HC. unfold reconcile, calculate_accuracy, build_fnf_lookup, build_vlm_index.
  rewrite (fold_left_Forall2 same_cells index_vlm_row index_vlm_row
             (fun a x y H => index_vlm_row_same a x y H) C C' HC).
  rewrite (fold_left_Forall2 same_cells fnf_lookup_step fnf_lookup_step
             (fun a x y H => fnf_lookup_step_same a x y H) G G' HG).
  set (ix := fold_left index_vlm_row C' _).
  set (lk := fold_left fnf_lookup_step G' _).
  rewrite (fold_left_Forall2 same_cells (count_extra lk) (count_extra lk)
             (fun a x y H => count_extra_same lk a x y H) C C' HC).
  rewrite (fold_left_Forall2 same_cells
             (score_fnf_row C (vlm_lookup ix)) (score_fnf_row C' (vlm_lookup ix))
             (fun a x y H => score_fnf_row_same C C' (vlm_lookup ix) a x y HC H)
             G G' HG).
  reflexivity.
Qed.

(** X17.  The reconciler reads a row only through its stripped and
    lowered key, value and match labels: two pairs of tables that agree
    row by row on these four cells get the same record, whatever their
    display columns, letter case and outer whitespace; in particular a
    table may be normalised beforehand. *)
Theorem reconcile_reads_normalised_cells (G G' C C' : DataFrame) :
  (Forall2 same_cells G G' -> Forall2 same_cells C C' ->
   reconcile G C = reconcile G' C')
  /\ reconcile (map normalise_row G) (map normalise_row C) = reconcile G C.
Proof.
  split; [apply reconcile_same_cells|].
  symmetry. apply reconcile_same_cells; apply Forall2_map_normalise.
Qed.

Lemma reconcile_reads_normalised_cells_witness :
  reconcile [mkRow "" "" " Pattern" "SOLID " " Bottom " "Jeans"]
            [mkRow "Bottom" "" "pattern" "Solid" "BOTTOM" " pants"]
  = reconcile scenario_c_G scenario_c_C.
Proof.
  apply (proj1 (reconcile_reads_normalised_cells
                  [mkRow "" "" " Pattern" "SOLID " " Bottom " "Jeans"] scenario_c_G
                  [mkRow "Bottom" "" "pattern" "Solid" "BOTTOM" " pants"]
                  scenario_c_C));
    repeat constructor.
Defined.

(** ** Extras and full marks *)

Lemma dict_get_set d k v k' :
  Dict.get (Dict.set d k v) k' = if key_eqb k' k then Some v else Dict.get d k'.
Proof.
  destruct (key_eqb k' k) eqn:E.
  - apply key_eqb_true_iff in E. subst k'. apply dict_get_set_same.
  - apply key_eqb_false_iff in E. apply dict_get_set_other. exact E.
Qed.

Lemma fnf_lookup_step_truthy d r :
  all_values_truthy d -> all_values_truthy (fnf_lookup_step d r).
Proof.
  intros Hd. unfold fnf_lookup_step.
  destruct (PyStr.truthy (cell (Value r))) eqn:V; cbn [negb orb]; [|exact Hd].
  destruct (cell (Value r) =? "nan")%string; [exact Hd|].
  assert (H3 : all_values_truthy
                 (if negb (Dict.mem d (Key3 (cell (_cat_for_match r))
                                            (cell (_subcat_for_match r))
                                            (cell (Key r))))
                  then Dict.set d (Key3 (cell (_cat_for_match r))
                                        (cell (_subcat_for_match r))
                                        (cell (Key r))) (cell (Value r))
                  else d)).
  { destruct (negb (Dict.mem d _)); [|exact Hd].
    intros k v. rewrite dict_get_set.
    destruct (key_eqb k _); [intros E; injection E as <-; exact V|apply Hd]. }
  destruct (negb (Dict.mem _ (Key2 _ _))); [|exact H3].
  intros k v. rewrite dict_get_set.
  destruct (key_eqb k _); [intros E; injection E as <-; exact V|apply H3].
Qed.

Lemma build_fnf_lookup_truthy G : all_values_truthy (build_fnf_lookup G).
Proof.
  unfold build_fnf_lookup.
  assert (H : forall rows d, all_values_truthy d ->
                             all_values_truthy (fold_left fnf_lookup_step rows d)).
  { induction rows as [|r rest IH]; intros d Hd; simpl; [exact Hd|].
    apply IH, fnf_lookup_step_truthy, Hd. }
  apply H. intros k v. discriminate.
Qed.

(** After the loop a recorded row finds both of its keys indexed. *)
Lemma build_fnf_lookup_files G g k :
  In g G -> valued g = true -> k = key3_of g \/ k = key2_of g ->
  exists v, Dict.get (build_fnf_lookup G) k = Some v.
Proof.
  intros Hin Hv Hk. unfold build_fnf_lookup.
  apply in_split in Hin. destruct Hin as (before & after & ->).
  rewrite fold_left_app. simpl.
  destruct (Dict.get (fold_left fnf_lookup_step before Dict.empty) k) as [v|] eqn:E.
  - exists v. apply fold_fnf_keeps, fnf_lookup_step_keeps, E.
  - exists (cell (Value g)). apply fold_fnf_keeps.
    apply fnf_lookup_step_files; assumption.
Qed.

Lemma find_value_direct lookup cat subcat key :
  PyStr.truthy (direct_value lookup cat subcat key) = true ->
  find_value lookup cat subcat key = direct_value lookup cat subcat key.
Proof. intros H. unfold find_value. rewrite H. reflexivity. Qed.

Lemma fold_count_extra_none fnf_lookup vlm_df :
  (forall r, In r vlm_df -> PyStr.truthy (cell (Value r)) = true ->
             PyStr.truthy (find_value fnf_lookup (cell (_cat_for_match r))
                                      (cell (_subcat_for_match r))
                                      (cell (Key r))) = true) ->
  forall extra, fold_left (count_extra fnf_lookup) vlm_df extra = extra.
Proof.
  induction vlm_df as [|r rest IH]; intros H extra; simpl; [reflexivity|].
  rewrite IH by (intros r' Hin; apply H; right; exact Hin).
  unfold count_extra.
  destruct (PyStr.truthy (cell (Value r))) eqn:V; cbn [negb]; [|reflexivity].
  rewrite (H r (or_introl eq_refl) V). reflexivity.
Qed.

(** X18.  A candidate row is an extra only if its category and key are
    new: when every candidate row with a value has a recorded row of the
    ground truth with the same category and key, whatever the
    subcategories, both extra counters are 0. *)
Theorem no_extra_for_known_pairs (G C : DataFrame) :
  (forall r, In r C -> PyStr.truthy (cell (Value r)) = true ->
             exists g, In g G /\ valued g = true /\ key2_of g = key2_of r) ->
  exists rec,
    reconcile G C = Ok rec
    /\ marketing_extra rec = 0 /\ product_extra rec = 0.
Proof.
  intros H. unfold reconcile, calculate_accuracy. rewrite score_returns.
  eexists. split; [reflexivity|]. cbn [marketing_extra product_extra].
  rewrite fold_count_extra_none; [split; reflexivity|].
  intros r Hr Hv. destruct (H r Hr Hv) as (g & Hg & Hvg & Hk).
  destruct (build_fnf_lookup_files G g (key2_of r) Hg Hvg (or_intror (eq_sym Hk)))
    as [v2 E2].
  assert (D : PyStr.truthy (direct_value (build_fnf_lookup G)
                              (cell (_cat_for_match r)) (cell (_subcat_for_match r))
                              (cell (Key r))) = true).
  { unfold direct_value, Dict.get_default. fold (key2_of r). rewrite E2.
    destruct (Dict.get (build_fnf_lookup G) (Key3 _ _ _)) as [v3|] eqn:E3.
    - exact (build_fnf_lookup_truthy G _ _ E3).
    - exact (build_fnf_lookup_truthy G _ _ E2). }
  rewrite find_value_direct by exact D. exact D.
Qed.

Lemma no_extra_for_known_pairs_witness :
  exists rec,
    reconcile scenario_c_G scenario_c_C = Ok rec
    /\ marketing_extra rec = 0 /\ product_extra rec = 0.
Proof.
  apply (no_extra_for_known_pairs scenario_c_G scenario_c_C).
  intros r [<-|[]] _.
  exists (row "bottom" "jeans" "pattern" "solid").
  repeat split. left. reflexivity.
Defined.

Lemma fold_score_all_matched vlm_df lookup fnf_df :
  (forall g, In g fnf_df -> PyStr.truthy (cell (Value g)) = true ->
             find_value lookup (cell (_cat_for_match g)) (cell (_subcat_for_match g))
                        (cell (Key g)) = cell (Value g)
             /\ word_level_match (cell (Value g)) (cell (Value g)) = true) ->
  forall t,
    let t' := fold_left (score_fnf_row vlm_df lookup) fnf_df t in
    t_marketing_match t' - t_marketing_match t
    = t_marketing_total t' - t_marketing_total t
    /\ t_product_match t' - t_product_match t
       = t_product_total t' - t_product_total t.
Proof.
  induction fnf_df as [|g rest IH]; intros H t; cbn zeta.
  - simpl. lia.
  - cbn [fold_left].
    specialize (IH (fun g' Hin => H g' (or_intror Hin)) (score_fnf_row vlm_df lookup t g)).
    cbn zeta in IH. destruct IH as [IHm IHp].
    assert (S :
      t_marketing_match (score_fnf_row vlm_df lookup t g) - t_marketing_match t
      = t_marketing_total (score_fnf_row vlm_df lookup t g) - t_marketing_total t
      /\ t_product_match (score_fnf_row vlm_df lookup t g) - t_product_match t
         = t_product_total (score_fnf_row vlm_df lookup t g) - t_product_total t).
    { unfold score_fnf_row.
      destruct (PyStr.truthy (cell (Value g))) eqn:V.
      - destruct (H g (or_introl eq_refl) V) as [-> W]. rewrite V, W.
        destruct (PyStr.truthy (cell (Key g))); cbn; lia.
      - rewrite !andb_false_r. lia. }
    lia.
Qed.

(** X19.  Full value marks for a faithful copy: when the ground truth
    files no two rows under the same triple and each of its values
    word-matches itself, reconciling the ground truth with itself counts
    every marketing entry and every product entry as a match. *)
Theorem ground_truth_matches_itself (G : DataFrame) :
  NoDup (map key3_of G) ->
  (forall g, In g G -> PyStr.truthy (cell (Value g)) = true ->
             word_level_match (cell (Value g)) (cell (Value g)) = true) ->
  exists rec,
    reconcile G G = Ok rec
    /\ marketing_match rec = marketing_total rec
    /\ product_match rec = product_total rec.
Proof.
  intros Hnd Hw. unfold reconcile, calculate_accuracy. rewrite score_returns.
  eexists. split; [reflexivity|].
  cbn [marketing_match marketing_total product_match product_total].
  pose proof (fold_score_all_matched G (vlm_lookup (build_vlm_index G)) G) as F.
  assert (Hall : forall g, In g G -> PyStr.truthy (cell (Value g)) = true ->
             find_value (vlm_lookup (build_vlm_index G))
                        (cell (_cat_for_match g)) (cell (_subcat_for_match g))
                        (cell (Key g)) = cell (Value g)
             /\ word_level_match (cell (Value g)) (cell (Value g)) = true).
  { intros g Hg Hv. split; [|exact (Hw g Hg Hv)].
    assert (E : Dict.get (vlm_lookup (build_vlm_index G)) (key3_of g)
                = Some (cell (Value g))).
    { destruct (in_split g G Hg) as (before & after & HG).
      unfold build_vlm_index. rewrite HG, fold_left_app. simpl.
      rewrite fold_index_other.
      - rewrite index_vlm_row_get, (key_eqb_refl (key3_of g)), orb_true_r. reflexivity.
      - intros b Hb. split; [|unfold key3_of, key2_of; discriminate].
        intros Heq. rewrite HG, map_app in Hnd. simpl in Hnd.
        apply NoDup_remove_2 in Hnd. apply Hnd. apply in_or_app. right.
        rewrite Heq. apply in_map. exact Hb. }
    assert (D : direct_value (vlm_lookup (build_vlm_index G))
                  (cell (_cat_for_match g)) (cell (_subcat_for_match g))
                  (cell (Key g)) = cell (Value g)).
    { unfold direct_value, Dict.get_default. fold (key3_of g). rewrite E. reflexivity. }
    rewrite find_value_direct by (rewrite D; exact Hv). exact D. }
  specialize (F Hall (mkTally 0 0 0 0 0)). cbn zeta in F.
  cbn [t_marketing_match t_marketing_total t_product_match t_product_total] in F.
  destruct F as [Fm Fp]. split; lia.
Qed.

Lemma ground_truth_matches_itself_witness :
  exists rec,
    reconcile two_subcats_C two_subcats_C = Ok rec
    /\ marketing_match rec = marketing_total rec
    /\ product_match rec = product_total rec.
Proof.
  apply (ground_truth_matches_itself two_subcats_C).
  - repeat constructor; simpl; intros H;
      repeat (destruct H as [H|H]; [discriminate H|]); exact H.
  - intros g [<-|[<-|[]]] _; vm_compute; reflexivity.
Defined.

(** ** The corpus averages stay percentages *)

Lemma sum_bounds (lo hi : Q) (rates : list Q) :
  (forall x, In x rates -> (lo <= x <= hi)%Q) ->
  (inject_Z (Z.of_nat (length rates)) * lo <= fold_right Qplus 0 rates
   /\ fold_right Qplus 0 rates <= inject_Z (Z.of_nat (length rates)) * hi)%Q.
Proof.
  induction rates as [|x rest IH]; intros H.
  - simpl. split; rewrite Qmult_0_l; apply Qle_refl.
  - destruct (IH (fun y Hy => H y (or_intror Hy))) as [IHl IHh].
    destruct (H x (or_introl eq_refl)) as [Hl Hh].
    cbn [fold_right length]. rewrite Nat2Z.inj_succ.
    assert (E : (inject_Z (Z.succ (Z.of_nat (length rest)))
                 == 1 + inject_Z (Z.of_nat (length rest)))%Q).
    { unfold Z.succ. rewrite inject_Z_plus. ring. }
    rewrite E. split.
    + setoid_replace ((1 + inject_Z (Z.of_nat (length rest))) * lo)%Q
        with (lo + inject_Z (Z.of_nat (length rest)) * lo)%Q by ring.
      apply Qplus_le_compat; assumption.
    + setoid_replace ((1 + inject_Z (Z.of_nat (length rest))) * hi)%Q
        with (hi + inject_Z (Z.of_nat (length rest)) * hi)%Q by ring.
      apply Qplus_le_compat; assumption.
Qed.

Lemma average_bounds (lo hi : Q) (rates : list Q) :
  (lo <= 0 <= hi)%Q ->
  (forall x, In x rates -> (lo <= x <= hi)%Q) ->
  (lo <= average rates <= hi)%Q.
Proof.
  intros H0 H. destruct rates as [|x rest]; [exact H0|].
  unfold average.
  destruct (sum_bounds lo hi (x :: rest) H) as [Hl Hh].
  assert (N : (0 < inject_Z (Z.of_nat (length (x :: rest))))%Q).
  { rewrite <- (Zlt_Qlt 0). simpl. lia. }
  assert (S : (py_sum (x :: rest) == fold_right Qplus 0 (x :: rest))%Q).
  { unfold py_sum. rewrite py_sum_from. ring. }
  set (l := x :: rest) in *.
  split.
  - apply Qle_shift_div_l; [exact N|]. rewrite S, Qmult_comm. exact Hl.
  - apply Qle_shift_div_r; [exact N|]. rewrite S, Qmult_comm. exact Hh.
Qed.

Lemma average_percent (f : AccuracyRecord -> Q) (accs : list AccuracyRecord) :
  (forall r, In r accs -> (0 <= f r <= 100)%Q) ->
  (0 <= average (map f accs) <= 100)%Q.
Proof.
  intros H. apply average_bounds; [split; lra|].
  intros x Hx. apply in_map_iff in Hx. destruct Hx as (r & <- & Hr). exact (H r Hr).
Qed.

(** X20.  The corpus summary of percentages is made of percentages: when
    every per-image record has its marketing and product accuracy between
    0 and 100, so are the four averages and the two combined scores, for
    an empty corpus as well. *)
Theorem summary_stays_percent (gemini_accs odd_accs : list AccuracyRecord) :
  (forall r, In r gemini_accs -> percent_record r) ->
  (forall r, In r odd_accs -> percent_record r) ->
  let s := summary gemini_accs odd_accs in
  (0 <= avg_gemini_marketing s <= 100)%Q
  /\ (0 <= avg_gemini_product s <= 100)%Q
  /\ (0 <= avg_gemini s <= 100)%Q
  /\ (0 <= avg_odd_marketing s <= 100)%Q
  /\ (0 <= avg_odd_product s <= 100)%Q
  /\ (0 <= avg_odd s <= 100)%Q.
Proof.
  intros Hg Ho. cbn zeta. unfold summary.
  cbn [avg_gemini_marketing avg_gemini_product avg_gemini
       avg_odd_marketing avg_odd_product avg_odd].
  pose proof (average_percent marketing_acc gemini_accs
                (fun r Hr => proj1 (Hg r Hr))) as G1.
  pose proof (average_percent product_acc gemini_accs
                (fun r Hr => proj2 (Hg r Hr))) as G2.
  pose proof (average_percent marketing_acc odd_accs
                (fun r Hr => proj1 (Ho r Hr))) as O1.
  pose proof (average_percent product_acc odd_accs
                (fun r Hr => proj2 (Ho r Hr))) as O2.
  set (a := average (map marketing_acc gemini_accs)) in *.
  set (b := average (map product_acc gemini_accs)) in *.
  set (c := average (map marketing_acc odd_accs)) in *.
  set (d := average (map product_acc odd_accs)) in *.
  assert (H2 : forall x y : Q, (0 <= x <= 100 -> 0 <= y <= 100 ->
                                0 <= (x + y) / 2 <= 100)%Q).
  { intros x y [Hx1 Hx2] [Hy1 Hy2]. split.
    - apply Qle_shift_div_l; [reflexivity|]. lra.
    - apply Qle_shift_div_r; [reflexivity|]. lra. }
  repeat split; try tauto; try (apply H2; tauto).
Qed.

Lemma summary_stays_percent_witness :
  (0 <= avg_gemini (summary [image_full; image_empty; image_half] []) <= 100)%Q.
Proof.
  apply (summary_stays_percent [image_full; image_empty; image_half] []).
  - intros r [<-|[<-|[<-|[]]]]; unfold percent_record; simpl; split; split;
      unfold Qle; simpl; lia.
  - intros r [].
Defined.

(** ** The loaders *)

Lemma shape_rows_length rows : forall prev, length (shape_rows prev rows) = length rows.
Proof. induction rows as [|r rest IH]; intros prev; simpl; [reflexivity|]. rewrite IH. reflexivity. Qed.

Lemma shape_rows_lower rows :
  forall prev r,
    In r (shape_rows prev rows) ->
    PyStr.lower (lCat r) = lCat r /\ PyStr.lower (lSubcat r) = lSubcat r
    /\ PyStr.lower (lKey r) = lKey r /\ PyStr.lower (lValue r) = lValue r.
Proof.
  assert (F : forall c, PyStr.lower (fill_lower c) = fill_lower c).
  { intros [s|]; simpl; [apply lower_idem|reflexivity]. }
  induction rows as [|x rest IH]; intros prev r; simpl; [tauto|].
  intros [<-|H]; [simpl; rewrite !F; auto|exact (IH _ _ H)].
Qed.

Lemma shape_rows_ffill rows :
  forall prev i,
    (i < length rows)%nat ->
    Image (nth i (shape_rows prev rows) blank_loaded_row)
    = last_named (firstn (S i) (map raw_Image rows)) prev.
Proof.
  unfold last_named.
  induction rows as [|x rest IH]; intros prev i Hi; simpl in Hi; [lia|].
  destruct i as [|i].
  - simpl. destruct (raw_Image x); reflexivity.
  - cbn [shape_rows nth map firstn fold_left].
    rewrite IH by lia. destruct (raw_Image x); reflexivity.
Qed.

(** X21.  What a successful spreadsheet load returns: the file was
    readable and had the five columns, the table has one row per sheet
    row, its four text columns are lower-case, and the image of each row
    is the last image name written at or above that row of the sheet
    (none while no name has appeared). *)
Theorem load_sheet_forward_fills (not_found : string) (file : FileState)
        (df : list LoadedRow) :
  load_sheet not_found file = (Some df, None) ->
  exists wb,
    file = Readable wb
    /\ has_required_cols wb = true
    /\ length df = length (sheet wb)
    /\ (forall r, In r df ->
                  PyStr.lower (lCat r) = lCat r /\ PyStr.lower (lSubcat r) = lSubcat r
                  /\ PyStr.lower (lKey r) = lKey r
                  /\ PyStr.lower (lValue r) = lValue r)
    /\ (forall i, (i < length df)%nat ->
                  Image (nth i df blank_loaded_row)
                  = last_named (firstn (S i) (map raw_Image (sheet wb))) None).
Proof.
  destruct file as [|message|wb]; simpl; try discriminate.
  destruct (has_required_cols wb) eqn:Hc; simpl; [|discriminate].
  intros E. injection E as <-. exists wb.
  split; [reflexivity|]. split; [exact Hc|].
  split; [apply shape_rows_length|].
  split; [intros r; apply shape_rows_lower|].
  intros i Hi. rewrite shape_rows_length in Hi. apply shape_rows_ffill. exact Hi.
Qed.

Lemma load_sheet_forward_fills_witness :
  exists wb,
    Readable sample_wb = Readable wb
    /\ has_required_cols wb = true
    /\ length (shape_rows None (sheet sample_wb)) = length (sheet wb)
    /\ (forall r, In r (shape_rows None (sheet sample_wb)) ->
                  PyStr.lower (lCat r) = lCat r /\ PyStr.lower (lSubcat r) = lSubcat r
                  /\ PyStr.lower (lKey r) = lKey r
                  /\ PyStr.lower (lValue r) = lValue r)
    /\ (forall i, (i < length (shape_rows None (sheet sample_wb)))%nat ->
                  Image (nth i (shape_rows None (sheet sample_wb)) blank_loaded_row)
                  = last_named (firstn (S i) (map raw_Image (sheet wb))) None).
Proof.
  exact (load_sheet_forward_fills "" (Readable sample_wb)
           (shape_rows None (sheet sample_wb)) eq_refl).
Defined.

Lemma in_unique_images rows :
  forall seen name,
    In name (unique_images seen rows) ->
    ~ In name seen /\ exists r, In r rows /\ Image r = Some name.
Proof.
  induction rows as [|x rest IH]; intros seen name; simpl; [tauto|].
  destruct (Image x) as [n|] eqn:E.
  - destruct (existsb (String.eqb n) seen) eqn:S.
    + intros H. destruct (IH _ _ H) as [H1 (r & Hr & Hi)].
      split; [exact H1|]. exists r. auto.
    + intros [<-|H].
      * split; [|exists x; auto].
        intros Hin. assert (existsb (String.eqb n) seen = true); [|congruence].
        apply existsb_exists. exists n. split; [exact Hin|apply String.eqb_refl].
      * destruct (IH _ _ H) as [H1 (r & Hr & Hi)].
        split; [intros Hin; apply H1; right; exact Hin|]. exists r. auto.
  - intros H. destruct (IH _ _ H) as [H1 (r & Hr & Hi)].
    split; [exact H1|]. exists r. auto.
Qed.

Lemma unique_images_nodup rows : forall seen, NoDup (unique_images seen rows).
Proof.
  induction rows as [|x rest IH]; intros seen; simpl; [constructor|].
  destruct (Image x) as [n|]; [|apply IH].
  destruct (existsb (String.eqb n) seen); [apply IH|].
  constructor; [|apply IH].
  intros H. apply in_unique_images in H. destruct H as [H _].
  apply H. left. reflexivity.
Qed.

Lemma unique_images_complete rows :
  forall seen r name,
    In r rows -> Image r = Some name ->
    In name seen \/ In name (unique_images seen rows).
Proof.
  induction rows as [|x rest IH]; intros seen r name; simpl; [tauto|].
  intros [->|Hr] Hi.
  - rewrite Hi. destruct (existsb (String.eqb name) seen) eqn:S.
    + left. apply existsb_exists in S. destruct S as (n & Hn & E).
      apply String.eqb_eq in E. subst n. exact Hn.
    + right. left. reflexivity.
  - destruct (Image x) as [n|].
    + destruct (existsb (String.eqb n) seen).
      * exact (IH seen r name Hr Hi).
      * destruct (IH (n :: seen) r name Hr Hi) as [[<-|H]|H]; simpl; auto.
    + exact (IH seen r name Hr Hi).
Qed.

(** X22.  The images [main] walks through: the list holds no name twice,
    every name in it is the image of some row of the VLM table, and when
    the table has rows and an [Image_Name] column every image named in a
    row is in the list. *)
Theorem image_list_distinct_names (df : GeminiTable) :
  NoDup (image_list (Some df))
  /\ (forall name, In name (image_list (Some df)) ->
                   exists r, In r (g_rows df) /\ Image r = Some name)
  /\ (existsb (String.eqb "Image_Name") (g_columns df) = true ->
      forall r name, In r (g_rows df) -> Image r = Some name ->
                     In name (image_list (Some df))).
Proof.
  unfold image_list. split; [|split].
  - destruct (0 <? Z.of_nat (length (g_rows df))); [|constructor].
    destruct (existsb (String.eqb _) (g_columns df)); [|constructor].
    apply unique_images_nodup.
  - intros name.
    destruct (0 <? Z.of_nat (length (g_rows df))); [|intros []].
    destruct (existsb (String.eqb _) (g_columns df)); [|intros []].
    intros H. apply in_unique_images in H. tauto.
  - intros Hcol r name Hr Hi. rewrite Hcol.
    assert (L : (0 <? Z.of_nat (length (g_rows df))) = true).
    { apply Z.ltb_lt. destruct (g_rows df); [destruct Hr|simpl; lia]. }
    rewrite L. cbn [existsb]. rewrite Hcol.
    destruct (unique_images_complete (g_rows df) [] r name Hr Hi) as [[]|H]. exact H.
Qed.

Lemma image_list_distinct_names_witness :
  In "look1.jpg" (image_list (Some (shape_gemini sample_wb))).
Proof.
  apply (proj2 (proj2 (image_list_distinct_names (shape_gemini sample_wb)))
           eq_refl
           (mkLoadedRow (Some "look1.jpg") "outer" "jacket" "color" "black")
           "look1.jpg").
  - left. reflexivity.
  - reflexivity.
Defined.

(** ** sort_by_category *)

Section SortProofs.

Context {A : Type}.
Variable clean_extra : A -> A.

Lemma fill_labels_facts (df : list (Cols * A)) :
  forall prev_cat prev_subcat,
    map (fun w => (wKey w, wValue w)) (fill_labels clean_extra prev_cat prev_subcat df)
    = map (fun ca => (clean_text (cKey (fst ca)), clean_text (cValue (fst ca)))) df.
Proof.
  induction df as [|[c a] rest IH]; intros pc ps; simpl; [reflexivity|].
  rewrite IH. reflexivity.
Qed.

Lemma fill_labels_marketing (df : list (Cols * A)) :
  forall prev_cat prev_subcat w,
    In w (fill_labels clean_extra prev_cat prev_subcat df) ->
    w_is_marketing w = (if (wKey w =? "")%string then 1 else 0)
    /\ ((wKey w =? "")%string = true -> w_subcat_filled w = "").
Proof.
  induction df as [|[c a] rest IH]; intros pc ps w; simpl; [tauto|].
  intros [<-|H]; [|exact (IH _ _ _ H)].
  simpl. split; [reflexivity|]. intros ->. reflexivity.
Qed.

Lemma insert_row_perm (w : Work (A := A)) (l : list Work) :
  Permutation.Permutation (insert_row w l) (w :: l).
Proof.
  induction l as [|x rest IH]; simpl; [apply Permutation.Permutation_refl|].
  destruct (sort_key_le (sort_key w) (sort_key x)).
  - apply Permutation.Permutation_refl.
  - eapply Permutation.perm_trans;
      [apply Permutation.perm_skip, IH|apply Permutation.perm_swap].
Qed.

Lemma sort_rows_perm (l : list (Work (A := A))) :
  Permutation.Permutation (sort_rows l) l.
Proof.
  induction l as [|x rest IH]; simpl; [constructor|].
  eapply Permutation.perm_trans;
    [apply insert_row_perm|apply Permutation.perm_skip, IH].
Qed.

Lemma collapse_labels_facts (rows : list (Work (A := A))) :
  forall prev,
    map (fun ra => row_facts (fst ra)) (collapse_labels prev rows)
    = map work_facts rows.
Proof.
  induction rows as [|w rest IH]; intros prev; simpl; [reflexivity|].
  destruct (match prev with Some (pc, ps) => _ | None => false end);
    simpl; rewrite IH; reflexivity.
Qed.

Lemma sort_key_le_total (a b : SortKey) :
  sort_key_le a b = false -> sort_key_le b a = true.
Proof.
  unfold sort_key_le, sort_key_compare.
  rewrite (Z.compare_antisym (k_cat_order a) (k_cat_order b)).
  rewrite (Z.compare_antisym (k_is_marketing b) (k_is_marketing a)).
  rewrite (String.compare_antisym (k_subcat_lower b) (k_subcat_lower a)).
  rewrite (String.compare_antisym (k_key_lower b) (k_key_lower a)).
  destruct (k_cat_order a ?= k_cat_order b); simpl; try congruence.
  destruct (k_is_marketing b ?= k_is_marketing a); simpl; try congruence.
  destruct (String.compare (k_subcat_lower a) (k_subcat_lower b)); simpl;
    try congruence.
  destruct (String.compare (k_key_lower a) (k_key_lower b)); simpl; congruence.
Qed.

Lemma insert_row_sorted (w : Work (A := A)) (l : list Work) :
  Sorted.Sorted (fun x y => sort_key_le (sort_key x) (sort_key y) = true) l ->
  Sorted.Sorted (fun x y => sort_key_le (sort_key x) (sort_key y) = true)
                (insert_row w l).
Proof.
  induction l as [|x rest IH]; intros Hs; simpl.
  - repeat constructor.
  - destruct (sort_key_le (sort_key w) (sort_key x)) eqn:E.
    + constructor; [exact Hs|]. constructor. exact E.
    + apply Sorted.Sorted_inv in Hs. destruct Hs as [Hs Hhd].
      constructor; [apply IH; exact Hs|].
      destruct rest as [|y rest']; simpl.
      * constructor. apply sort_key_le_total. exact E.
      * destruct (sort_key_le (sort_key w) (sort_key y)).
        -- constructor. apply sort_key_le_total. exact E.
        -- constructor. inversion Hhd. assumption.
Qed.

Lemma sort_rows_sorted (l : list (Work (A := A))) :
  Sorted.Sorted (fun x y => sort_key_le (sort_key x) (sort_key y) = true)
                (sort_rows l).
Proof.
  induction l as [|x rest IH]; simpl; [constructor|].
  apply insert_row_sorted. exact IH.
Qed.

End SortProofs.

Lemma sorted_map {X Y : Type} (R : Y -> Y -> Prop) (f : X -> Y) (l : list X) :
  Sorted (fun a b => R (f a) (f b)) l -> Sorted R (map f l).
Proof.
  induction 1 as [|x l _ IH Hhd]; simpl; constructor; [exact IH|].
  destruct Hhd; simpl; constructor. assumption.
Qed.

Lemma collapse_labels_keys {A : Type} (rows : list (Work (A := A))) :
  (forall w, In w rows ->
             w_is_marketing w = (if (wKey w =? "")%string then 1 else 0)) ->
  forall prev,
    map (fun ra => row_sort_key (fst ra)) (collapse_labels prev rows)
    = map sort_key rows.
Proof.
  induction rows as [|w rest IH]; intros Hinv prev; simpl; [reflexivity|].
  assert (E : forall c s, row_sort_key (mkRow c s (wKey w) (wValue w)
                                          (w_cat_filled w) (w_subcat_filled w))
                          = sort_key w).
  { intros c s. unfold row_sort_key, sort_key. simpl.
    rewrite (Hinv w (or_introl eq_refl)). reflexivity. }
  assert (Hrest : forall w', In w' rest ->
             w_is_marketing w' = (if (wKey w' =? "")%string then 1 else 0))
    by (intros w' Hin; apply Hinv; right; exact Hin).
  destruct (match prev with Some (pc, ps) => _ | None => false end);
    simpl; rewrite E, (IH Hrest); reflexivity.
Qed.

Lemma sort_rows_in {A : Type} (l : list (Work (A := A))) w :
  In w (sort_rows l) -> In w l.
Proof. apply Permutation_in, sort_rows_perm. Qed.

(** X23.  Sorting loses and invents nothing: the sorted table has one row
    per row of the input, and its (Key, Value) pairs are, up to order,
    the cleaned (Key, Value) pairs of the input. *)
Theorem sort_by_category_keeps_rows (df_raw : list Cols) :
  length (sort_by_category df_raw) = length df_raw
  /\ Permutation (map (fun r => (Key r, Value r)) (sort_by_category df_raw))
                 (map (fun c => (clean_text (cKey c), clean_text (cValue c)))
                      df_raw).
Proof.
  assert (P : Permutation
                (map (fun r => (Key r, Value r)) (sort_by_category df_raw))
                (map (fun c => (clean_text (cKey c), clean_text (cValue c)))
                     df_raw)).
  { unfold sort_by_category, sort_by_category_with.
    set (work := fill_labels _ None None _).
    assert (E1 : map (fun r => (Key r, Value r))
                     (map fst (collapse_labels None (sort_rows work)))
                 = map (fun w => (wKey w, wValue w)) (sort_rows work)).
    { rewrite map_map.
      transitivity (map (fun f : string * string * string * string =>
                           (fst (fst (fst f)), snd (fst (fst f))))
                        (map (fun ra => row_facts (fst ra))
                             (collapse_labels None (sort_rows work)))).
      - rewrite map_map. reflexivity.
      - rewrite collapse_labels_facts, map_map. reflexivity. }
    rewrite E1.
    eapply perm_trans; [apply Permutation_map, sort_rows_perm|].
    unfold work. rewrite fill_labels_facts, map_map. simpl.
    apply Permutation_refl. }
  split; [|exact P].
  apply Permutation_length in P. rewrite !length_map in P. exact P.
Qed.

(** X24.  The sorted table is in order: each row's sort columns
    (category priority, marketing before product, subcategory, key) are
    at most those of the next row, and the category priorities never
    decrease from any row to any later row. *)
Theorem sort_by_category_sorted (df_raw : list Cols) :
  Sorted (fun a b => sort_key_le a b = true)
         (map row_sort_key (sort_by_category df_raw))
  /\ StronglySorted Z.le
       (map (fun r => k_cat_order (row_sort_key r)) (sort_by_category df_raw)).
Proof.
  assert (S : Sorted (fun a b => sort_key_le a b = true)
                     (map row_sort_key (sort_by_category df_raw))).
  { unfold sort_by_category, sort_by_category_with.
    set (work := fill_labels _ None None _).
    rewrite map_map.
    rewrite (collapse_labels_keys (sort_rows work)).
    - apply sorted_map, sort_rows_sorted.
    - intros w Hw. apply sort_rows_in in Hw.
      exact (proj1 (fill_labels_marketing _ _ _ _ w Hw)). }
  split; [exact S|].
  rewrite <- (map_map row_sort_key k_cat_order).
  apply Sorted_StronglySorted; [intros x y z; apply Z.le_trans|].
  apply sorted_map.
  induction S as [|k l _ IH Hhd]; constructor; [exact IH|].
  destruct Hhd as [|k' l' Hle]; constructor. cbv beta.
  unfold sort_key_le, sort_key_compare in Hle.
  destruct (k_cat_order k ?= k_cat_order k') eqn:E.
  - apply Z.compare_eq in E. rewrite E. apply Z.le_refl.
  - apply Z.compare_lt_iff in E. apply Z.lt_le_incl. exact E.
  - discriminate Hle.
Qed.

Lemma collapse_labels_marketing {A : Type} (rows : list (Work (A := A))) :
  (forall w, In w rows ->
             w_is_marketing w = (if (wKey w =? "")%string then 1 else 0)
             /\ ((wKey w =? "")%string = true -> w_subcat_filled w = "")) ->
  forall prev ra,
    In ra (collapse_labels prev rows) ->
    (Key (fst ra) = "" -> _subcat_for_match (fst ra) = "" /\ Subcat (fst ra) = "")
    /\ (Cat (fst ra) = "" \/ Cat (fst ra) = _cat_for_match (fst ra))
    /\ (Subcat (fst ra) = "" \/ Subcat (fst ra) = _subcat_for_match (fst ra)).
Proof.
  induction rows as [|w rest IH]; intros Hinv prev ra; simpl; [tauto|].
  destruct (Hinv w (or_introl eq_refl)) as [Hm Hs].
  assert (Hrest : forall w', In w' rest ->
             w_is_marketing w' = (if (wKey w' =? "")%string then 1 else 0)
             /\ ((wKey w' =? "")%string = true -> w_subcat_filled w' = ""))
    by (intros w' Hin; apply Hinv; right; exact Hin).
  destruct (match prev with Some (pc, ps) => _ | None => false end).
  - intros [<-|H]; [|exact (IH Hrest _ _ H)]. simpl.
    split; [|auto]. intros Hk. split; [|reflexivity].
    apply Hs. rewrite Hk. reflexivity.
  - intros [<-|H]; [|exact (IH Hrest _ _ H)]. simpl.
    split; [|split; [auto|]].
    + intros Hk. rewrite Hm, Hk. simpl. split; [|reflexivity].
      apply Hs. rewrite Hk. reflexivity.
    + destruct (w_is_marketing w =? 1); auto.
Qed.

Lemma collapse_labels_ffill {A : Type} (rows : list (Work (A := A))) :
  (forall w, In w rows -> w_cat_filled w <> "") ->
  forall prev,
    ffill_texts (option_map fst prev)
                (map (fun ra => Cat (fst ra)) (collapse_labels prev rows))
    = map (fun ra => _cat_for_match (fst ra)) (collapse_labels prev rows).
Proof.
  induction rows as [|w rest IH]; intros Hne prev; simpl; [reflexivity|].
  assert (Hrest : forall w', In w' rest -> w_cat_filled w' <> "")
    by (intros w' Hin; apply Hne; right; exact Hin).
  pose proof (Hne w (or_introl eq_refl)) as Hw.
  destruct prev as [[pc ps]|]; simpl.
  - destruct ((w_cat_filled w =? pc)%string) eqn:Ec; simpl.
    + apply String.eqb_eq in Ec.
      destruct ((w_subcat_filled w =? ps)%string); simpl.
      * rewrite <- (IH Hrest (Some (pc, ps))). simpl. rewrite Ec. reflexivity.
      * apply String.eqb_neq in Hw. rewrite Hw.
        rewrite <- (IH Hrest (Some (w_cat_filled w, w_subcat_filled w))).
        reflexivity.
    + apply String.eqb_neq in Hw. rewrite Hw.
      rewrite <- (IH Hrest (Some (w_cat_filled w, w_subcat_filled w))).
      reflexivity.
  - apply String.eqb_neq in Hw. rewrite Hw.
    rewrite <- (IH Hrest (Some (w_cat_filled w, w_subcat_filled w))).
    reflexivity.
Qed.

(** X25.  The labels of a sorted table: a marketing row (empty key) has
    no subcategory, hidden or shown; every shown label is blank or equal
    to the hidden match label; and when every row has a category,
    forward-filling the shown Cat column gives back the hidden
    [_cat_for_match] column. *)
Theorem sort_by_category_labels (df_raw : list Cols) :
  (forall r, In r (sort_by_category df_raw) ->
             (Key r = "" -> _subcat_for_match r = "" /\ Subcat r = "")
             /\ (Cat r = "" \/ Cat r = _cat_for_match r)
             /\ (Subcat r = "" \/ Subcat r = _subcat_for_match r))
  /\ ((forall r, In r (sort_by_category df_raw) -> _cat_for_match r <> "") ->
      ffill_texts None (map Cat (sort_by_category df_raw))
      = map _cat_for_match (sort_by_category df_raw)).
Proof.
  unfold sort_by_category, sort_by_category_with.
  set (work := fill_labels _ None None _).
  split.
  - intros r Hr. apply in_map_iff in Hr. destruct Hr as (ra & <- & Hra).
    apply (collapse_labels_marketing (sort_rows work)) with (prev := None);
      [|exact Hra].
    intros w Hw. apply sort_rows_in in Hw.
    exact (fill_labels_marketing _ _ _ _ w Hw).
  - intros Hne. rewrite !map_map.
    apply (collapse_labels_ffill (sort_rows work)) with (prev := None).
    intros w Hw E.
    assert (F : In (w_cat_filled w)
                   (map (fun f : string * string * string * string => snd (fst f))
                        (map work_facts (sort_rows work)))).
    { rewrite map_map. apply in_map_iff. exists w. auto. }
    rewrite <- (collapse_labels_facts (sort_rows work) None) in F.
    rewrite map_map in F. apply in_map_iff in F. destruct F as (ra & Hc & Hra).
    apply (Hne (fst ra)); [apply in_map; exact Hra|].
    simpl in Hc. rewrite Hc. exact E.
Qed.

Lemma sort_by_category_labels_witness :
  ffill_texts None
    (map Cat (sort_by_category [mkCols "outer" "jacket" "color" "black";
                                mkCols "" "" "material" "wool";
                                mkCols "mood" "" "" "calm"]))
  = map _cat_for_match
      (sort_by_category [mkCols "outer" "jacket" "color" "black";
                         mkCols "" "" "material" "wool";
                         mkCols "mood" "" "" "calm"]).
Proof.
  apply (proj2 (sort_by_category_labels
                  [mkCols "outer" "jacket" "color" "black";
                   mkCols "" "" "material" "wool";
                   mkCols "mood" "" "" "calm"])).
  intros r Hr. vm_compute in Hr.
  repeat (destruct Hr as [<-|Hr]; [discriminate|]). destruct Hr.
Defined.

(** * add_missing_items *)

(** Where the characters of a piece, a word or a normalised text come
    from. *)
Lemma in_split_on ch s :
  forall v c, In v (PyStr.split_on ch s) -> In c (chars v) -> In c (chars s).
Proof.
  induction s as [|c' r IH]; simpl; intros v c Hv Hc.
  - destruct Hv as [<-|[]]. exact Hc.
  - destruct (Ascii.eqb c' ch).
    + destruct Hv as [<-|Hv]; [destruct Hc|]. right. exact (IH v c Hv Hc).
    + destruct (PyStr.split_on ch r) as [|h t] eqn:E.
      * destruct Hv as [<-|[]]. destruct Hc as [<-|[]]. left. reflexivity.
      * destruct Hv as [<-|Hv].
        -- destruct Hc as [<-|Hc]; [left; reflexivity|].
           right. apply (IH h c); [left; reflexivity|exact Hc].
        -- right. apply (IH v c); [right; exact Hv|exact Hc].
Qed.

Lemma in_split s :
  forall w c, In w (PyStr.split s) -> In c (chars w) ->
              In c (chars s) /\ PyStr.isspace c = false.
Proof.
  induction s as [|c' r IH]; simpl; intros w c Hw Hc; [destruct Hw|].
  destruct (PyStr.isspace c') eqn:Ec.
  - destruct (IH w c Hw Hc). auto.
  - destruct r as [|c'' r'].
    + destruct Hw as [<-|[]]. destruct Hc as [<-|[]]. auto.
    + destruct (PyStr.isspace c'') eqn:Ec'.
      * destruct Hw as [<-|Hw].
        -- destruct Hc as [<-|[]]. auto.
        -- destruct (IH w c Hw Hc). auto.
      * destruct (PyStr.split (String c'' r')) as [|h t] eqn:E.
        -- destruct Hw as [<-|[]]. destruct Hc as [<-|[]]. auto.
        -- destruct Hw as [<-|Hw].
           ++ destruct Hc as [<-|Hc]; [auto|].
              destruct (IH h c (or_introl eq_refl) Hc). auto.
           ++ destruct (IH w c (or_intror Hw) Hc). auto.
Qed.

Lemma in_lstrip s c : In c (chars (PyStr.lstrip s)) -> In c (chars s).
Proof.
  induction s as [|c' r IH]; simpl; [tauto|].
  destruct (PyStr.isspace c'); simpl; auto.
Qed.

Lemma in_rstrip s c : In c (chars (PyStr.rstrip s)) -> In c (chars s).
Proof.
  induction s as [|c' r IH]; simpl; [tauto|].
  destruct (PyStr.isspace c' && negb (PyStr.truthy (PyStr.rstrip r))); simpl;
    [tauto|]. intros [H|H]; auto.
Qed.

Lemma in_strip s c : In c (chars (PyStr.strip s)) -> In c (chars s).
Proof. intros H. apply in_lstrip, in_rstrip. exact H. Qed.

Lemma in_lstrip_kept s c :
  In c (chars s) -> PyStr.isspace c = false -> In c (chars (PyStr.lstrip s)).
Proof.
  induction s as [|c' r IH]; simpl; [tauto|].
  intros [<-|H] Hc.
  - rewrite Hc. left. reflexivity.
  - destruct (PyStr.isspace c'); [auto|right; exact H].
Qed.

Lemma in_rstrip_kept s c :
  In c (chars s) -> PyStr.isspace c = false -> In c (chars (PyStr.rstrip s)).
Proof.
  induction s as [|c' r IH]; simpl; [tauto|].
  intros [<-|H] Hc.
  - rewrite Hc. left. reflexivity.
  - specialize (IH H Hc).
    destruct (PyStr.rstrip r) as [|x y] eqn:E; [destruct IH|].
    rewrite andb_false_r. right. exact IH.
Qed.

Lemma in_strip_kept s c :
  In c (chars s) -> PyStr.isspace c = false -> In c (chars (PyStr.strip s)).
Proof. intros H Hc. apply in_rstrip_kept; [apply in_lstrip_kept|]; assumption. Qed.

Lemma in_lower_from s c :
  In c (chars (PyStr.lower s)) ->
  exists c0, In c0 (chars s) /\ PyStr.lower_char c0 = c.
Proof.
  induction s as [|c' r IH]; simpl; [tauto|].
  intros [<-|H].
  - exists c'. auto.
  - destruct (IH H) as (c0 & H0 & E). exists c0. auto.
Qed.

Lemma in_lower_to s c : In c (chars s) -> In (PyStr.lower_char c) (chars (PyStr.lower s)).
Proof.
  induction s as [|c' r IH]; simpl; [tauto|].
  intros [<-|H]; auto.
Qed.

Lemma in_rstrip_char ch s c : In c (chars (PyStr.rstrip_char ch s)) -> In c (chars s).
Proof.
  induction s as [|c' r IH]; simpl; [tauto|].
  destruct (Ascii.eqb c' ch && negb (PyStr.truthy (PyStr.rstrip_char ch r))); simpl;
    [tauto|]. intros [H|H]; auto.
Qed.

Lemma nonempty_has_char s : s <> "" -> exists c, In c (chars s).
Proof. destruct s as [|c r]; [congruence|]. intros _. exists c. left. reflexivity. Qed.

Lemma has_char_nonempty s c : In c (chars s) -> s <> "".
Proof. destruct s; [intros []|discriminate]. Qed.

Lemma lower_char_separator c :
  PyStr.lower_char c <> "-"%char /\ PyStr.lower_char c <> " "%char
  /\ PyStr.lower_char c <> "_"%char ->
  c <> "-"%char /\ c <> " "%char /\ c <> "_"%char.
Proof.
  intros (H1 & H2 & H3). repeat split; intros ->; [apply H1|apply H2|apply H3];
    reflexivity.
Qed.

(** The characters [normalize_for_compare] keeps. *)
Lemma in_normalize_for_compare s c :
  In c (chars (normalize_for_compare s)) ->
  c <> "-"%char /\ c <> " "%char /\ c <> "_"%char
  /\ exists c0, In c0 (chars s) /\ PyStr.lower_char c0 = c.
Proof.
  unfold normalize_for_compare.
  destruct (negb (PyStr.truthy s)); [intros []|].
  unfold chars. rewrite !in_remove_char. intros [[[H Hh] Hs] Hu].
  repeat split; try assumption.
  destruct (in_lower_from _ _ H) as (c0 & H0 & E).
  exists c0. split; [apply in_strip; exact H0|exact E].
Qed.

Lemma in_normalize_for_compare_kept s c :
  In c (chars s) -> PyStr.isspace c = false ->
  c <> "-"%char -> c <> "_"%char ->
  In (PyStr.lower_char c) (chars (normalize_for_compare s)).
Proof.
  intros H Hc Hh Hu. unfold normalize_for_compare.
  assert (T : PyStr.truthy s = true).
  { apply truthy_true_iff. exact (has_char_nonempty _ _ H). }
  rewrite T. cbn [negb]. unfold chars. rewrite !in_remove_char.
  assert (Hl : forall d, In d ["-"; " "; "_"]%char -> c <> d ->
                         PyStr.lower_char c <> d).
  { intros d Hd Hne E. apply Hne. clear - Hd E.
    destruct Hd as [<-|[<-|[<-|[]]]];
      destruct c as [[] [] [] [] [] [] [] []]; vm_compute in E;
      first [reflexivity | discriminate E]. }
  repeat split.
  - apply in_lower_to, in_strip_kept; assumption.
  - apply Hl; [simpl; auto|exact Hh].
  - apply Hl; [simpl; auto|]. intros ->. discriminate Hc.
  - apply Hl; [simpl; auto|exact Hu].
Qed.

(** A word token of a category comes from a character that
    [normalize_for_compare] keeps: a category with a token is not empty
    once normalised. *)
Lemma cat_token_gives_category b t :
  In t (cat_word_tokens b) -> normalize_for_compare b <> "".
Proof.
  unfold cat_word_tokens.
  rewrite (in_words_fold
             (fun word => PyStr.rstrip_char "s" (normalize_for_compare word))).
  intros [[]|(Ht & v & Hv & w & Hw & ->)].
  destruct (nonempty_has_char _ Ht) as (c & Hc).
  apply in_rstrip_char, in_normalize_for_compare in Hc.
  destruct Hc as (Hh & Hs & Hu & c0 & H0 & E).
  destruct (in_split _ _ _ Hw H0) as [Hv0 Hsp0].
  unfold comma_values in Hv. apply in_map_iff in Hv.
  destruct Hv as (piece & <- & Hp).
  destruct (in_lower_from _ _ Hv0) as (c1 & H1 & E1).
  apply in_strip in H1. pose proof (in_split_on _ _ _ _ Hp H1) as Hb.
  assert (Hsp1 : PyStr.isspace c1 = false).
  { rewrite <- isspace_lower_char, E1. exact Hsp0. }
  assert (Ec : PyStr.lower_char c1 = c).
  { rewrite <- E, <- E1. symmetry. apply lower_char_idem. }
  assert (Hsep : c1 <> "-"%char /\ c1 <> " "%char /\ c1 <> "_"%char).
  { apply lower_char_separator. rewrite Ec. auto. }
  destruct Hsep as (Hh1 & _ & Hu1).
  apply (has_char_nonempty _ (PyStr.lower_char c1)).
  apply in_normalize_for_compare_kept; assumption.
Qed.

Lemma match_cat_words_category a b :
  match_cat_words a b = true -> PyStr.truthy (normalize_for_compare b) = true.
Proof.
  unfold match_cat_words.
  destruct (negb (PyStr.truthy a) || negb (PyStr.truthy b)); [discriminate|].
  destruct (negb (PyStr.truthy (PyStr.strip a)) || negb (PyStr.truthy (PyStr.strip b)));
    [discriminate|].
  intros H. apply meet_bool_true_iff in H. destruct H as (t & _ & Hb).
  apply truthy_true_iff. exact (cat_token_gives_category b t Hb).
Qed.

Lemma in_vlm_items_list vlm_df it :
  In it (vlm_items_list vlm_df)
  <-> exists v, In v vlm_df /\ it = vlm_item_of v
                /\ PyStr.truthy (item_cat it) || PyStr.truthy (item_key it) = true.
Proof.
  unfold vlm_items_list. rewrite filter_In, in_map_iff. split.
  - intros [(v & <- & Hv) H]. exists v. auto.
  - intros (v & Hv & -> & H). split; [exists v; auto|exact H].
Qed.

Lemma filter_empty_iff {X : Type} (f : X -> bool) (l : list X) :
  filter f l = [] <-> forall x, In x l -> f x = false.
Proof.
  induction l as [|a rest IH]; simpl.
  - split; [intros _ x []|reflexivity].
  - destruct (f a) eqn:E.
    + split; [discriminate|]. intros H. rewrite (H a) in E; [discriminate|auto].
    + rewrite IH. split.
      * intros H x [<-|Hx]; auto.
      * intros H x Hx. apply H. auto.
Qed.

(** The search finds a ground-truth row exactly when the candidate
    holds it. *)
Lemma found_match_iff vlm_df g :
  found_match (search_of (vlm_items_list vlm_df) g) = true <-> held_by vlm_df g.
Proof.
  unfold search_of, search_vlm, held_by.
  destruct (PyStr.truthy (normalize_for_compare (cell (Key g)))) eqn:K;
    cbn [negb found_match].
  - rewrite existsb_exists. split.
    + intros (it & Hit & Ek). apply filter_In in Hit. destruct Hit as [Hit Hm].
      apply in_vlm_items_list in Hit. destruct Hit as (v & Hv & -> & _).
      apply andb_true_iff in Hm. destruct Hm as [Hc Hs].
      apply String.eqb_eq in Ek. exists v. auto.
    + intros (v & Hv & Hc & Hs & Ek). exists (vlm_item_of v). split.
      * apply filter_In. split.
        -- apply in_vlm_items_list. exists v. split; [exact Hv|].
           split; [reflexivity|]. cbn [item_key vlm_item_of]. rewrite Ek, K.
           apply orb_true_r.
        -- cbn [item_cat_orig item_subcat_orig vlm_item_of]. rewrite Hc, Hs.
           reflexivity.
      * apply String.eqb_eq. exact Ek.
  - rewrite existsb_exists. split.
    + intros (it & Hit & Hm).
      apply in_vlm_items_list in Hit. destruct Hit as (v & Hv & -> & _).
      apply andb_true_iff in Hm. destruct Hm as [Hc Hk].
      apply negb_true_iff, truthy_false_iff in Hk. exists v. auto.
    + intros (v & Hv & Hc & Ek). exists (vlm_item_of v). split.
      * apply in_vlm_items_list. exists v. split; [exact Hv|].
        split; [reflexivity|]. cbn [item_cat vlm_item_of].
        rewrite (match_cat_words_category _ _ Hc). reflexivity.
      * cbn [item_cat_orig item_key vlm_item_of]. rewrite Hc, Ek. reflexivity.
Qed.

Lemma same_cat_iff vlm_df a :
  existsb (fun it => match_cat_words a (item_cat_orig it)) (vlm_items_list vlm_df) = true
  <-> exists v, In v vlm_df /\ match_cat_words a (cell (_cat_for_match v)) = true.
Proof.
  rewrite existsb_exists. split.
  - intros (it & Hit & Hc).
    apply in_vlm_items_list in Hit. destruct Hit as (v & Hv & -> & _).
    exists v. auto.
  - intros (v & Hv & Hc). exists (vlm_item_of v). split; [|exact Hc].
    apply in_vlm_items_list. exists v. split; [exact Hv|].
    split; [reflexivity|]. cbn [item_cat vlm_item_of].
    rewrite (match_cat_words_category _ _ Hc). reflexivity.
Qed.

Lemma matching_nil_iff vlm_df a b :
  filter (fun it => match_cat_words a (item_cat_orig it)
                    && match_subcat_words b (item_subcat_orig it))
         (vlm_items_list vlm_df) = []
  <-> forall v, In v vlm_df ->
                match_cat_words a (cell (_cat_for_match v)) = true ->
                match_subcat_words b (cell (_subcat_for_match v)) = false.
Proof.
  rewrite filter_empty_iff. split.
  - intros H v Hv Hc.
    assert (Hit : In (vlm_item_of v) (vlm_items_list vlm_df)).
    { apply in_vlm_items_list. exists v. split; [exact Hv|].
      split; [reflexivity|]. cbn [item_cat vlm_item_of].
      rewrite (match_cat_words_category _ _ Hc). reflexivity. }
    specialize (H _ Hit). cbn [item_cat_orig item_subcat_orig vlm_item_of] in H.
    rewrite Hc in H. exact H.
  - intros H it Hit.
    apply in_vlm_items_list in Hit. destruct Hit as (v & Hv & -> & _).
    cbn [item_cat_orig item_subcat_orig vlm_item_of].
    destruct (match_cat_words a (cell (_cat_for_match v))) eqn:Hc; [|reflexivity].
    rewrite (H v Hv Hc). reflexivity.
Qed.

(** The loop passes over a ground-truth row of a new triple exactly
    when the candidate holds it or the row is one it skips. *)
Lemma is_missing_entry_false_iff vlm_df g :
  is_missing_entry (vlm_items_list vlm_df) g = false
  <-> held_by vlm_df g \/ skipped_by vlm_df g.
Proof.
  unfold is_missing_entry. rewrite <- found_match_iff.
  unfold skipped_by.
  destruct (found_match (search_of (vlm_items_list vlm_df) g)) eqn:F;
    cbn [negb andb]; [tauto|].
  destruct (PyStr.truthy (normalize_for_compare (cell (_cat_for_match g)))) eqn:C;
    cbn [andb].
  2:{ apply truthy_false_iff in C. tauto. }
  apply truthy_true_iff in C.
  unfold search_of, search_vlm.
  destruct (PyStr.truthy (normalize_for_compare (cell (Key g)))) eqn:K;
    cbn [negb andb has_same_cat matching_vlm_subcats].
  2:{ apply truthy_false_iff in K. split; [discriminate|].
      intros [H|[H|(H & _)]]; [discriminate H|contradiction|contradiction]. }
  apply truthy_true_iff in K.
  rewrite negb_false_iff, !andb_true_iff, same_cat_iff, truthy_true_iff.
  split.
  - intros [[Hc Hn] Hs]. right. right.
    split; [exact K|]. split; [exact Hs|]. split; [exact Hc|].
    apply matching_nil_iff.
    destruct (filter _ (vlm_items_list vlm_df)); [reflexivity|discriminate].
  - intros [H|[H|(_ & Hs & Hc & Hn)]]; [discriminate H|contradiction|].
    split; [split; [exact Hc|]|exact Hs].
    apply matching_nil_iff in Hn. rewrite Hn. reflexivity.
Qed.

(** One turn of the loop: nothing changes for a triple already added
    or a row that is not missing; otherwise one row and one triple are
    appended. *)
Lemma missing_step_skip items st g :
  existsb (dedup_key_eqb (triple_of g)) (added_items st) = true
  \/ is_missing_entry items g = false ->
  missing_step items st g = st.
Proof.
  unfold missing_step, is_missing_entry, search_of, triple_of. cbv zeta.
  set (s := search_vlm _ _ _ _).
  destruct (existsb _ (added_items st)); [reflexivity|].
  destruct (found_match s); cbn [negb andb]; [reflexivity|].
  destruct (PyStr.truthy (normalize_for_compare (cell (_cat_for_match g))));
    cbn [andb]; [|reflexivity].
  destruct (PyStr.truthy (normalize_for_compare (cell (Key g))));
    destruct (has_same_cat s); destruct (matching_vlm_subcats s);
    destruct (PyStr.truthy (normalize_for_compare (cell (_subcat_for_match g))));
    cbn [negb andb orb]; intros [H|H]; try discriminate H; reflexivity.
Qed.

Lemma missing_step_add vlm_df st g :
  existsb (dedup_key_eqb (triple_of g)) (added_items st) = false ->
  is_missing_entry (vlm_items_list vlm_df) g = true ->
  exists m,
    missing_step (vlm_items_list vlm_df) st g
    = mkMissingState (missing_rows st ++ [m]) (added_items st ++ [triple_of g])
    /\ added_for vlm_df g m.
Proof.
  unfold missing_step, is_missing_entry, search_of, triple_of. cbv zeta.
  intros ->.
  set (items := vlm_items_list vlm_df).
  set (s := search_vlm _ _ _ _).
  destruct (found_match s) eqn:F; cbn [negb andb]; [discriminate|].
  destruct (PyStr.truthy (normalize_for_compare (cell (_cat_for_match g))));
    cbn [andb]; [|discriminate].
  rewrite negb_involutive. intros Hn. apply negb_true_iff in Hn. rewrite Hn.
  assert (Hv : negb (PyStr.truthy (normalize_for_compare (cell (Key g))))
               || PyStr.truthy (normalize_for_compare (cell (Key g))) = true)
    by (destruct (PyStr.truthy _); reflexivity).
  rewrite Hv. cbn [negb andb].
  assert (Hk : is_key_only_missing s = false
               \/ exists it rest,
                   matching_vlm_subcats s = it :: rest
                   /\ exists v, In v vlm_df /\ it = vlm_item_of v
                                /\ match_cat_words (cell (_cat_for_match g))
                                     (cell (_cat_for_match v)) = true
                                /\ match_subcat_words (cell (_subcat_for_match g))
                                     (cell (_subcat_for_match v)) = true).
  { subst s. unfold search_vlm.
    destruct (negb (PyStr.truthy (normalize_for_compare (cell (Key g)))));
      [left; reflexivity|].
    cbn [is_key_only_missing matching_vlm_subcats].
    destruct (filter _ items) as [|it rest] eqn:E.
    - left. destruct (negb _); reflexivity.
    - right. exists it, rest. split; [reflexivity|].
      assert (Hit : In it (filter
                             (fun it => match_cat_words (cell (_cat_for_match g))
                                          (item_cat_orig it)
                                        && match_subcat_words
                                             (cell (_subcat_for_match g))
                                             (item_subcat_orig it)) items)).
      { rewrite E. left. reflexivity. }
      apply filter_In in Hit. destruct Hit as [Hit Hm].
      apply in_vlm_items_list in Hit. destruct Hit as (v & Hin & -> & _).
      apply andb_true_iff in Hm. destruct Hm as [Hc Hs].
      exists v. auto. }
  destruct (is_key_only_missing s) eqn:Ko.
  - destruct Hk as [Hk|(it & rest & -> & v & Hin & -> & Hc & Hs)]; [discriminate|].
    eexists. split; [reflexivity|].
    unfold added_for. cbn. repeat split. exists v. auto.
  - destruct (matching_vlm_subcats s);
      (eexists; split; [reflexivity|]; unfold added_for; cbn; auto).
Qed.

(** The loop over the ground truth, from any state: the rows and the
    triples it appends come from the same ground-truth rows, in order. *)
Lemma fold_missing vlm_df fnf_df :
  forall st,
    exists sources ms,
      missing_rows (fold_left (missing_step (vlm_items_list vlm_df)) fnf_df st)
      = (missing_rows st ++ ms)%list
      /\ added_items (fold_left (missing_step (vlm_items_list vlm_df)) fnf_df st)
         = (added_items st ++ map triple_of sources)%list
      /\ Forall2 (fun g m => In g fnf_df
                             /\ is_missing_entry (vlm_items_list vlm_df) g = true
                             /\ added_for vlm_df g m) sources ms
      /\ (NoDup (added_items st) ->
          NoDup (added_items
                   (fold_left (missing_step (vlm_items_list vlm_df)) fnf_df st)))
      /\ (forall g, In g fnf_df ->
                    is_missing_entry (vlm_items_list vlm_df) g = true ->
                    In (triple_of g)
                       (added_items
                          (fold_left (missing_step (vlm_items_list vlm_df))
                                     fnf_df st))).
Proof.
  induction fnf_df as [|g rest IH]; intros st.
  - exists [], []. simpl. rewrite !app_nil_r.
    split; [reflexivity|]. split; [reflexivity|]. split; [constructor|].
    split; [auto|]. intros g [].
  - cbn [fold_left].
    destruct (existsb (dedup_key_eqb (triple_of g)) (added_items st)) eqn:E.
    + rewrite (missing_step_skip _ st g (or_introl E)).
      destruct (IH st) as (sources & ms & Hm & Ha & HF & Hnd & Hin).
      exists sources, ms.
      split; [exact Hm|]. split; [exact Ha|]. split.
      { eapply Forall2_impl; [|exact HF]. cbv beta.
        intros a b (H1 & H2 & H3). split; [right; exact H1|auto]. }
      split; [exact Hnd|].
      intros g0 [<-|H0] Hg0; [|exact (Hin g0 H0 Hg0)].
      rewrite Ha. apply in_or_app. left. apply seen_true_iff. exact E.
    + destruct (is_missing_entry (vlm_items_list vlm_df) g) eqn:M.
      * destruct (missing_step_add vlm_df st g E M) as (m & -> & Hadd).
        set (st' := mkMissingState _ _).
        destruct (IH st') as (sources & ms & Hm & Ha & HF & Hnd & Hin).
        exists (g :: sources), (m :: ms).
        split; [rewrite Hm; subst st'; cbn; rewrite <- app_assoc; reflexivity|].
        split; [rewrite Ha; subst st'; cbn; rewrite <- app_assoc; reflexivity|].
        split.
        { constructor; [split; [left; reflexivity|auto]|].
          eapply Forall2_impl; [|exact HF]. cbv beta.
          intros a b (H1 & H2 & H3). split; [right; exact H1|auto]. }
        split.
        { intros Hst. apply Hnd. subst st'. cbn.
          apply NoDup_app; [exact Hst|repeat constructor; intros []|].
          intros x Hx [<-|[]]. apply seen_false_iff in E. contradiction. }
        intros g0 [<-|H0] Hg0; [|exact (Hin g0 H0 Hg0)].
        rewrite Ha. apply in_or_app. left. subst st'. cbn.
        apply in_or_app. right. left. reflexivity.
      * rewrite (missing_step_skip _ st g (or_intror M)).
        destruct (IH st) as (sources & ms & Hm & Ha & HF & Hnd & Hin).
        exists sources, ms.
        split; [exact Hm|]. split; [exact Ha|]. split.
        { eapply Forall2_impl; [|exact HF]. cbv beta.
          intros a b (H1 & H2 & H3). split; [right; exact H1|auto]. }
        split; [exact Hnd|].
        intros g0 [<-|H0] Hg0; [|exact (Hin g0 H0 Hg0)].
        rewrite M in Hg0. discriminate.
Qed.

Lemma Forall2_in_l {X Y : Type} (R : X -> Y -> Prop) (l1 : list X) (l2 : list Y) :
  Forall2 R l1 l2 -> forall a, In a l1 -> exists b, In b l2 /\ R a b.
Proof.
  induction 1 as [|x y l1 l2 Hxy HF IH]; intros a; [intros []|].
  intros [<-|Ha].
  - exists y. split; [left; reflexivity|exact Hxy].
  - destruct (IH a Ha) as (b & Hb & Hab). exists b. split; [right; exact Hb|exact Hab].
Qed.

Lemma Forall2_in_r {X Y : Type} (R : X -> Y -> Prop) (l1 : list X) (l2 : list Y) :
  Forall2 R l1 l2 -> forall b, In b l2 -> exists a, In a l1 /\ R a b.
Proof.
  induction 1 as [|x y l1 l2 Hxy HF IH]; intros b; [intros []|].
  intros [<-|Hb].
  - exists x. split; [left; reflexivity|exact Hxy].
  - destruct (IH b Hb) as (a & Ha & Hab). exists a. split; [right; exact Ha|exact Hab].
Qed.

Lemma missing_entry_not_held vlm_df g :
  is_missing_entry (vlm_items_list vlm_df) g = true ->
  ~ held_by vlm_df g /\ ~ skipped_by vlm_df g.
Proof.
  intros M. split; intros H.
  - assert (F : is_missing_entry (vlm_items_list vlm_df) g = false)
      by (apply is_missing_entry_false_iff; left; exact H).
    rewrite M in F. discriminate.
  - assert (F : is_missing_entry (vlm_items_list vlm_df) g = false)
      by (apply is_missing_entry_false_iff; right; exact H).
    rewrite M in F. discriminate.
Qed.

(** X26.  [add_missing_items] hands the candidate table back untouched
    exactly when every ground-truth row is one the candidate holds or
    one the function skips (a row without a category, or a product row
    whose category the candidate has under other subcategories only). *)
Theorem add_missing_items_unchanged_iff (vlm_df fnf_df : DataFrame) :
  add_missing_items vlm_df fnf_df = Unchanged vlm_df
  <-> forall g, In g fnf_df -> held_by vlm_df g \/ skipped_by vlm_df g.
Proof.
  unfold add_missing_items, find_missing.
  destruct (fold_missing vlm_df fnf_df (mkMissingState [] []))
    as (sources & ms & Hm & Ha & HF & _ & Hin).
  cbn [missing_rows added_items app] in Hm, Ha. rewrite Hm. split.
  - destruct ms as [|m ms']; [|discriminate]. intros _ g Hg.
    apply is_missing_entry_false_iff.
    destruct (is_missing_entry (vlm_items_list vlm_df) g) eqn:M; [|reflexivity].
    specialize (Hin g Hg M). rewrite Ha in Hin.
    inversion HF; subst. destruct Hin.
  - intros H. destruct ms as [|m ms']; [reflexivity|].
    inversion HF as [|g m' sources' ms'' (Hg & M & _) HF']; subst.
    apply H, is_missing_entry_false_iff in Hg. rewrite M in Hg. discriminate.
Qed.

Lemma add_missing_items_unchanged_iff_witness :
  (forall g, In g held_G -> held_by held_C g \/ skipped_by held_C g)
  /\ add_missing_items held_C held_G = Unchanged held_C.
Proof.
  assert (H : forall g, In g held_G -> held_by held_C g \/ skipped_by held_C g).
  { intros g [<-|[<-|[<-|[]]]]; apply is_missing_entry_false_iff;
      vm_compute; reflexivity. }
  split; [exact H|].
  exact (proj2 (add_missing_items_unchanged_iff held_C held_G) H).
Defined.

(** X27.  The rows [add_missing_items] adds come, in order, from
    ground-truth rows of pairwise different normalised triples; each
    such ground-truth row is neither held by the candidate nor skipped,
    and its added row is flagged missing, has no value, and carries its
    key and matched category, with its own matched subcategory or, when
    only the key is missing, the subcategory of a matching candidate
    row. *)
Theorem missing_rows_are_missing (vlm_df fnf_df : DataFrame) :
  exists sources,
    NoDup (map triple_of sources)
    /\ Forall2 (fun g m => In g fnf_df
                           /\ ~ held_by vlm_df g
                           /\ ~ skipped_by vlm_df g
                           /\ added_for vlm_df g m)
               sources (missing_rows (find_missing vlm_df fnf_df)).
Proof.
  unfold find_missing.
  destruct (fold_missing vlm_df fnf_df (mkMissingState [] []))
    as (sources & ms & Hm & Ha & HF & Hnd & _).
  cbn [missing_rows added_items app] in Hm, Ha, Hnd.
  exists sources. split.
  - rewrite <- Ha. apply Hnd. constructor.
  - rewrite Hm. eapply Forall2_impl; [|exact HF]. cbv beta.
    intros g m (Hg & M & Hadd).
    destruct (missing_entry_not_held vlm_df g M) as [Hh Hs]. auto.
Qed.

(** X28.  A ground-truth row that the candidate does not hold and that
    is not skipped is represented among the added rows: some added row,
    flagged missing and without value, has its normalised category and
    key, and its normalised subcategory unless the row is flagged as
    missing its key only. *)
Theorem missing_entry_gets_a_row (vlm_df fnf_df : DataFrame) (g : Row) :
  In g fnf_df ->
  ~ held_by vlm_df g ->
  ~ skipped_by vlm_df g ->
  exists m,
    In m (missing_rows (find_missing vlm_df fnf_df))
    /\ _is_missing m = true
    /\ Value (missing_row m) = ""
    /\ normalize_for_compare (_cat_for_match (missing_row m))
       = normalize_for_compare (cell (_cat_for_match g))
    /\ normalize_for_compare (cell (Key (missing_row m)))
       = normalize_for_compare (cell (Key g))
    /\ (_is_key_only_missing m = false ->
        normalize_for_compare (_subcat_for_match (missing_row m))
        = normalize_for_compare (cell (_subcat_for_match g))).
Proof.
  intros Hg Hh Hs.
  assert (M : is_missing_entry (vlm_items_list vlm_df) g = true).
  { destruct (is_missing_entry (vlm_items_list vlm_df) g) eqn:M; [reflexivity|].
    apply is_missing_entry_false_iff in M. tauto. }
  unfold find_missing.
  destruct (fold_missing vlm_df fnf_df (mkMissingState [] []))
    as (sources & ms & Hm & Ha & HF & _ & Hin).
  cbn [missing_rows added_items app] in Hm, Ha.
  specialize (Hin g Hg M). rewrite Ha in Hin.
  apply in_map_iff in Hin. destruct Hin as (g' & Et & Hg').
  destruct (Forall2_in_l _ _ _ HF g' Hg') as (m & Hm' & _ & _ & Hadd).
  exists m. rewrite Hm. split; [exact Hm'|].
  destruct Hadd as (Hv & Hf & Hk & Hc & Hsub).
  unfold triple_of in Et. injection Et as Ec Es Ek.
  split; [exact Hf|]. split; [exact Hv|].
  split; [rewrite Hc; exact Ec|].
  split; [rewrite Hk; exact Ek|].
  intros Ko. rewrite Ko in Hsub. rewrite Hsub. exact Es.
Qed.

Lemma missing_entry_gets_a_row_witness :
  exists m,
    In m (missing_rows (find_missing held_C lacking_G))
    /\ _is_missing m = true
    /\ Value (missing_row m) = ""
    /\ normalize_for_compare (_cat_for_match (missing_row m)) = "mood"
    /\ normalize_for_compare (cell (Key (missing_row m))) = ""
    /\ (_is_key_only_missing m = false ->
        normalize_for_compare (_subcat_for_match (missing_row m)) = "").
Proof.
  assert (M : is_missing_entry (vlm_items_list held_C) (row "mood" "" "" "calm") = true)
    by (vm_compute; reflexivity).
  destruct (missing_entry_not_held held_C _ M) as [Hh Hs].
  apply (missing_entry_gets_a_row held_C lacking_G (row "mood" "" "" "calm")).
  - simpl. auto.
  - exact Hh.
  - exact Hs.
Defined.

(** What the sort keeps of a row with further columns. *)
Lemma fill_labels_flagged {A : Type} (clean_extra : A -> A) (df : list (Cols * A)) :
  forall prev_cat prev_subcat,
    map (fun w => (wKey w, wValue w, wExtra w))
        (fill_labels clean_extra prev_cat prev_subcat df)
    = map (fun ca => (clean_text (cKey (fst ca)), clean_text (cValue (fst ca)),
                      clean_extra (snd ca))) df.
Proof.
  induction df as [|[c a] rest IH]; intros pc ps; simpl; [reflexivity|].
  rewrite IH. reflexivity.
Qed.

Lemma collapse_labels_flagged {A : Type} (rows : list (Work (A := A))) :
  forall prev,
    map (fun ra => (Key (fst ra), Value (fst ra), snd ra)) (collapse_labels prev rows)
    = map (fun w => (wKey w, wValue w, wExtra w)) rows.
Proof.
  induction rows as [|w rest IH]; intros prev; simpl; [reflexivity|].
  destruct (match prev with Some (pc, ps) => _ | None => false end);
    simpl; rewrite IH; reflexivity.
Qed.

Lemma sort_by_category_with_keeps {A : Type} (clean_extra : A -> A)
      (df_raw : list (Cols * A)) :
  Permutation.Permutation
    (map (fun ra => (Key (fst ra), Value (fst ra), snd ra))
         (sort_by_category_with clean_extra df_raw))
    (map (fun ca => (clean_text (cKey (fst ca)), clean_text (cValue (fst ca)),
                     clean_extra (snd ca))) df_raw).
Proof.
  unfold sort_by_category_with.
  rewrite collapse_labels_flagged.
  rewrite <- (fill_labels_flagged clean_extra df_raw None None).
  apply Permutation.Permutation_map, sort_rows_perm.
Qed.

Lemma missing_rows_flagged vlm_df fnf_df m :
  In m (missing_rows (find_missing vlm_df fnf_df)) ->
  _is_missing m = true /\ Value (missing_row m) = "".
Proof.
  unfold find_missing. intros Hm.
  destruct (fold_missing vlm_df fnf_df (mkMissingState [] []))
    as (sources & ms & Hms & _ & HF & _).
  cbn [missing_rows app] in Hms. rewrite Hms in Hm.
  destruct (Forall2_in_r _ _ _ HF m Hm) as (g & _ & _ & _ & Hv & Hf & _).
  auto.
Qed.

Lemma second_sort_keeps (vlm_df : DataFrame) (missing : list MissingRow) :
  (forall m, In m missing -> _is_missing m = true /\ Value (missing_row m) = "") ->
  Permutation.Permutation
    (map flagged_facts
         (sort_by_category_with clean_flags
            (map (fun r => (cols_of r, (FlagNaN, FlagNaN))) vlm_df
             ++ map (fun m => (cols_of (missing_row m),
                               (FlagBool (_is_missing m),
                                FlagBool (_is_key_only_missing m))))
                    missing)%list))
    (map (fun v => (clean_text (Key v), clean_text (Value v),
                    (FlagText "", FlagText ""))) vlm_df
     ++ map (fun m => (clean_text (Key (missing_row m)), "",
                       (FlagText "true",
                        FlagText (py_bool_text (_is_key_only_missing m)))))
            missing)%list.
Proof.
  intros Hflag.
  eapply Permutation.perm_trans; [apply sort_by_category_with_keeps|].
  rewrite map_app, !map_map.
  match goal with
  | |- Permutation.Permutation ?l ?r =>
      assert (El : l = r); [|rewrite El; apply Permutation.Permutation_refl]
  end.
  f_equal.
  apply map_ext_in. intros m Hm. destruct (Hflag m Hm) as [Hf Hv].
  cbn [fst snd cols_of cKey cValue clean_flags clean_flag].
  rewrite Hf, Hv. destruct (_is_key_only_missing m); reflexivity.
Qed.

(** X29.  When [add_missing_items] adds rows, the table it returns
    holds every candidate row and every added row, and nothing else:
    its (Key, Value, flags) triples are a permutation of those of the
    candidate rows, cleaned once more and with two empty flags, followed
    by those of the added rows, with an empty value, the flag 'true' and
    the key-only flag as text. *)
Theorem add_missing_items_keeps_candidate_rows
        (vlm_df fnf_df : DataFrame) (rows : list (Row * (Flag * Flag))) :
  add_missing_items vlm_df fnf_df = WithMissing rows ->
  missing_rows (find_missing vlm_df fnf_df) <> []
  /\ Permutation.Permutation
       (map flagged_facts rows)
       (map (fun v => (clean_text (Key v), clean_text (Value v),
                       (FlagText "", FlagText ""))) vlm_df
        ++ map (fun m => (clean_text (Key (missing_row m)), "",
                          (FlagText "true",
                           FlagText (py_bool_text (_is_key_only_missing m)))))
               (missing_rows (find_missing vlm_df fnf_df)))%list.
Proof.
  unfold add_missing_items.
  pose proof (missing_rows_flagged vlm_df fnf_df) as Hflag.
  destruct (missing_rows (find_missing vlm_df fnf_df)) as [|m0 ms] eqn:E;
    [discriminate|].
  intros H. injection H as <-. split; [discriminate|].
  exact (second_sort_keeps vlm_df (m0 :: ms) Hflag).
Qed.

Lemma add_missing_items_keeps_candidate_rows_witness :
  exists rows,
    add_missing_items held_C lacking_G = WithMissing rows
    /\ missing_rows (find_missing held_C lacking_G) <> []
    /\ Permutation.Permutation
         (map flagged_facts rows)
         (map (fun v => (clean_text (Key v), clean_text (Value v),
                         (FlagText "", FlagText ""))) held_C
          ++ map (fun m => (clean_text (Key (missing_row m)), "",
                            (FlagText "true",
                             FlagText (py_bool_text (_is_key_only_missing m)))))
                 (missing_rows (find_missing held_C lacking_G)))%list.
Proof.
  eexists. split; [vm_compute; reflexivity|].
  apply (add_missing_items_keeps_candidate_rows held_C lacking_G).
  vm_compute. reflexivity.
Defined.
